(** * growEarnTGBot: the ledger, the intent flags and the referral engine of bot.js

    A shallow embedding of the handlers of [src/bot.js] that write the MongoDB
    collections [users], [pending], [withdrawals] and [refs], and the
    properties of the ledger proved on it.

    Conventions of the embedding.
    - A JavaScript number that holds money is an exact rational ([Q]): the
      rounding of IEEE doubles is not modelled, and two amounts are compared
      with [==].  Telegram ids are integers ([Z]), dates are milliseconds since
      the epoch ([Z]).
    - A collection is a finite map from the unique key of its documents
      ([telegramId] for [users], the generated [_id] elsewhere) to the rest of
      the document.  [refs] is only ever appended to and searched: it is a list.
    - A field that the code tests for truthiness only and that [$unset] removes
      is a [bool] ([false] when absent) or an [option].  Every document of
      [users] comes from [ensureUserProfile], so [primaryUPI] and
      [needsUpiSetup] are always defined and the two lines that define them on
      older documents have nothing to do.
    - A handler is a computation in the monad [M]: it threads the database,
      logs the collections it reads and writes and the messages it sends, and
      stops at an exception.  [handle] runs one update from start to end;
      [selected] and [confirm_loop] are the two halves of
      [confirmPendingReferrals], for passes that overlap.
    - What the environment decides is an argument of the update: the clock,
      the referral code [makeReferralCode] draws, the arguments of a command
      after [Number] or [new ObjectId], and which command, if any, Telegraf
      finds in a text message.
    - A text is the sequence of the bytes of its UTF-8 encoding.
    - The handlers are tried in the order [bot.js] registers them.  [/start],
      [/balance], [/profile], [/setupi], [/status] and [/withdraw] come before
      [bot.on("text")] and end the chain; every other text message goes
      through [bot.on("text")] first, and on to [/pay], [/cancelwithdraw],
      [/admin_confirm] or [/admin_credit] only when no dialogue takes it.
    - The Telegram transport does not fail, the channel guard lets the update
      through, and log lines are not recorded.  The handlers that only display
      (help, leaderboard, tasks, the admin panels and the channel commands)
      are left out; the button that re-checks the channel requirements does
      to the database what the profile button does, and a left-out command
      registered after [bot.on("text")] what a text that is no command
      does.  The channel guard is
      modelled on its own, after the handlers, with the answers of
      [getChatMember] as a parameter. *)

From Stdlib Require Import ZArith QArith Lqa String Ascii List Bool Lia.
From stdpp Require Import base option list gmap fin_maps.
Import ListNotations.

Local Open Scope Z_scope.

(** ** Configuration (the constants read from the environment) *)

Record config := mkConfig {
  ADMIN_IDS : list Z;
  CONFIRM_DELAY_HOURS : Q;
  MIN_WITHDRAWAL : Q;
  REFERRAL_REWARD : Q;
}.

(** The values the code falls back to, with one administrator. *)
Definition default_config : config :=
  {| ADMIN_IDS := [1]; CONFIRM_DELAY_HOURS := 48; MIN_WITHDRAWAL := 50;
     REFERRAL_REWARD := 1 # 2 |}.

(** ** Numbers and strings of the host language *)

(** [x < y] on numbers *)
Definition Qltb (x y : Q) : bool := negb (Qle_bool y x).

(** [new Date(v)] drops the fraction of a millisecond, towards zero. *)
Definition timeClip (v : Q) : Z := Z.quot (Qnum v) (Zpos (Qden v)).

(** Truthiness of a string-or-null field. *)
Definition truthy (o : option string) : bool :=
  match o with
  | Some s => negb (String.eqb s EmptyString)
  | None => false
  end.

Definition is_space (c : ascii) : bool :=
  let n := nat_of_ascii c in
  Nat.eqb n 32 || (Nat.leb 9 n && Nat.leb n 13).

Definition byte_is (n : nat) (c : ascii) : bool := Nat.eqb (nat_of_ascii c) n.

(** The characters of three bytes that [trim] removes: U+1680, U+2000 to
    U+200A, U+2028, U+2029, U+202F, U+205F, U+3000 and U+FEFF. *)
Definition white3 (a b c : ascii) : bool :=
  let z := nat_of_ascii c in
  (byte_is 225 a && byte_is 154 b && byte_is 128 c)
  || (byte_is 226 a && byte_is 128 b
      && ((Nat.leb 128 z && Nat.leb z 138) || Nat.eqb z 168 || Nat.eqb z 169
          || Nat.eqb z 175))
  || (byte_is 226 a && byte_is 129 b && byte_is 159 c)
  || (byte_is 227 a && byte_is 128 b && byte_is 128 c)
  || (byte_is 239 a && byte_is 187 b && byte_is 191 c).

(** The number of bytes of the white-space character the text starts with,
    and 0 when it starts with none: the WhiteSpace and LineTerminator of
    ECMAScript are the ASCII ones, U+00A0 and the characters of [white3]. *)
Definition white_bytes (l : list ascii) : nat :=
  match l with
  | [] => 0
  | a :: l1 =>
      if is_space a then 1
      else
        match l1 with
        | [] => 0
        | b :: l2 =>
            if byte_is 194 a && byte_is 160 b then 2
            else
              match l2 with
              | [] => 0
              | c :: _ => if white3 a b c then 3 else 0
              end
        end
  end.

(** The same for the character the text ends with, on the reversed text. *)
Definition white_bytes_rev (l : list ascii) : nat :=
  match l with
  | [] => 0
  | c :: l1 =>
      if is_space c then 1
      else
        match l1 with
        | [] => 0
        | b :: l2 =>
            if byte_is 194 b && byte_is 160 c then 2
            else
              match l2 with
              | [] => 0
              | a :: _ => if white3 a b c then 3 else 0
              end
        end
  end.

(** Remove white-space characters, as [size] measures them, from the front
    of [l], at most [fuel] of them. *)
Fixpoint strip (size : list ascii -> nat) (fuel : nat) (l : list ascii) :
    list ascii :=
  match fuel with
  | O => l
  | S fuel' =>
      match size l with
      | O => l
      | S k => strip size fuel' (skipn (S k) l)
      end
  end.

Definition trimStart (l : list ascii) : list ascii :=
  strip white_bytes (length l) l.

(** [trimEnd], on the reversed text. *)
Definition trimEnd_rev (l : list ascii) : list ascii :=
  strip white_bytes_rev (length l) l.

(** [String.prototype.trim] *)
Definition trim (s : string) : string :=
  string_of_list_ascii
    (rev (trimEnd_rev (rev (trimStart (list_ascii_of_string s))))).

Definition lower_ascii (c : ascii) : ascii :=
  let n := nat_of_ascii c in
  if Nat.leb 65 n && Nat.leb n 90 then ascii_of_nat (n + 32) else c.

(** [String.prototype.toLowerCase], on the ASCII letters: no other character
    lowers to a letter of "cancel" or "confirm". *)
Fixpoint toLowerCase (s : string) : string :=
  match s with
  | EmptyString => EmptyString
  | String c s' => String (lower_ascii c) (toLowerCase s')
  end.

(** [s.split(" ")] *)
Fixpoint split_space_aux (cur : list ascii) (l : list ascii) : list string :=
  match l with
  | [] => [string_of_list_ascii (rev cur)]
  | c :: l' =>
      if Ascii.eqb c " "%char
      then string_of_list_ascii (rev cur) :: split_space_aux [] l'
      else split_space_aux (c :: cur) l'
  end.

Definition split_space (s : string) : list string :=
  split_space_aux [] (list_ascii_of_string s).

Definition is_alpha (c : ascii) : bool :=
  let n := nat_of_ascii c in
  (Nat.leb 65 n && Nat.leb n 90) || (Nat.leb 97 n && Nat.leb n 122).

Definition is_word (c : ascii) : bool :=
  let n := nat_of_ascii c in
  is_alpha c || (Nat.leb 48 n && Nat.leb n 57) || Nat.eqb n 95.

(** The class [[\w.\-]] of [UPI_REGEX]. *)
Definition is_local (c : ascii) : bool :=
  is_word c || Ascii.eqb c "."%char || Ascii.eqb c "-"%char.

Fixpoint span_local (l : list ascii) : list ascii * list ascii :=
  match l with
  | c :: l' =>
      if is_local c
      then let '(a, b) := span_local l' in (c :: a, b)
      else ([], l)
  | [] => ([], [])
  end.

(** [UPI_REGEX.test(text)] for [/^[\w.\-]{2,}@[a-zA-Z]{2,}$/]: the class of the
    local part excludes the at sign, so the match is the longest local prefix,
    an at sign, and letters up to the end. *)
Definition UPI_REGEX_test (text : string) : bool :=
  let '(loc, rest) := span_local (list_ascii_of_string text) in
  Nat.leb 2 (length loc) &&
  match rest with
  | c :: dom =>
      Ascii.eqb c "@"%char && Nat.leb 2 (length dom) && forallb is_alpha dom
  | [] => false
  end.

(** ** Documents *)

(** A document of [users]; its [telegramId] is the key it is stored under. *)
Record user := mkUser {
  username : option string;
  first_name : option string;
  referralCode : string;
  balance : Q;
  confirmedReferrals : Z;
  createdAt : Z;
  badges : list string;
  primaryUPI : option string;
  needsUpiSetup : bool;
  balanceLocked : option Q;
  lastWithdrawAt : option Z;
  awaitingWithdrawUPI : bool;
  awaitingWithdrawUPIConfirm : bool;
  draftWithdrawUPI : option string;
  awaitingUpiSetup : bool;
  draftUpiSetup : option string;
  awaitingSupportMessage : bool;
}.

Inductive referral_status := RPending | RConfirmed | RInvalid.
Inductive invalid_reason := self_referral | no_user_record | no_referrer_record.

(** A document of [pending]. *)
Record pendingDoc := mkPending {
  referredId : Z;
  referrerId : Z;
  p_referralCode : string;
  p_createdAt : Z;
  p_status : referral_status;
  reason : option invalid_reason;
  confirmedAt : option Z;
}.

(** A document of [refs]. *)
Record refDoc := mkRef {
  r_referrerId : Z;
  r_referredId : Z;
  r_referralCode : string;
  r_confirmedAt : Z;
}.

Inductive withdrawal_status := WPending | WPaid | WCancelled.

(** A document of [withdrawals]. *)
Record withdrawal := mkWithdrawal {
  userId : Z;
  upi : string;
  amount : Q;
  requestedAt : Z;
  w_status : withdrawal_status;
  paidAt : option Z;
  paidBy : option Z;
  cancelledAt : option Z;
}.

Definition referral_status_eqb (a b : referral_status) : bool :=
  match a, b with
  | RPending, RPending | RConfirmed, RConfirmed | RInvalid, RInvalid => true
  | _, _ => false
  end.

Definition withdrawal_status_eqb (a b : withdrawal_status) : bool :=
  match a, b with
  | WPending, WPending | WPaid, WPaid | WCancelled, WCancelled => true
  | _, _ => false
  end.

(** ** The database and its declared indexes *)

Inductive collection := Users | Pending | Withdrawals | Refs | RequiredChannels.
Inductive field :=
  F_telegramId | F_referralCode | F_createdAt | F_status | F_chatId
| F_referredId.

Record index := mkIndex { on : collection; key : field; unique : bool }.

(** The [createIndex] calls of [connectDB], in order. *)
Definition connectDB_indexes : list index :=
  [ mkIndex Users F_telegramId true;
    mkIndex Users F_referralCode true;
    mkIndex Pending F_createdAt false;
    mkIndex Withdrawals F_status false;
    mkIndex RequiredChannels F_chatId true ].

Definition collection_eqb (a b : collection) : bool :=
  match a, b with
  | Users, Users | Pending, Pending | Withdrawals, Withdrawals
  | Refs, Refs | RequiredChannels, RequiredChannels => true
  | _, _ => false
  end.

Definition field_eqb (a b : field) : bool :=
  match a, b with
  | F_telegramId, F_telegramId | F_referralCode, F_referralCode
  | F_createdAt, F_createdAt | F_status, F_status | F_chatId, F_chatId
  | F_referredId, F_referredId => true
  | _, _ => false
  end.

(** Does the layout declare a unique index on field [f] of collection [c]? *)
Definition has_unique_index (c : collection) (f : field) : bool :=
  existsb (fun i => collection_eqb (on i) c && field_eqb (key i) f && unique i)
          connectDB_indexes.

Record db := mkDb {
  users : gmap Z user;
  pending : gmap N pendingDoc;
  withdrawals : gmap N withdrawal;
  refs : list refDoc;
}.

Definition empty_db : db := mkDb ∅ ∅ ∅ [].

Definition with_users (f : gmap Z user -> gmap Z user) (s : db) : db :=
  mkDb (f (users s)) (pending s) (withdrawals s) (refs s).
Definition with_pending (f : gmap N pendingDoc -> gmap N pendingDoc) (s : db) : db :=
  mkDb (users s) (f (pending s)) (withdrawals s) (refs s).
Definition with_withdrawals (f : gmap N withdrawal -> gmap N withdrawal) (s : db) : db :=
  mkDb (users s) (pending s) (f (withdrawals s)) (refs s).
Definition with_refs (f : list refDoc -> list refDoc) (s : db) : db :=
  mkDb (users s) (pending s) (withdrawals s) (f (refs s)).

(** ** What a handler sends and which collection it touches *)

Inductive message :=
| Unauthorized | NotFound | MarkedPaid | UsagePay | UsageCancelWithdraw
| ErrorReply | CommandFailed | CancelledAndRefunded | UsageAdminCredit
| TelegramIdMustBeNumber | AmountMustBeNumber | AmountCannotBeZero
| UserNotFound | Credited (amount : Q) (note : string)
| AdminCredited (amount : Q) (note : string)
| WithdrawalPaid (amount : Q) | WithdrawalCancelled
| AlreadyPendingWithdrawal | MinimumNotReached (current : Q)
| ReplyWithUpi | SavedUpiInstructions (upi : string)
| UpiSetupPrompt (current : option string)
| UpiSetupCancelled | SendUpiFirst | SavedUpi (upi : string)
| UpiCaptured (upi : string) | InvalidUpiSetup
| WithdrawalCancelledBalanceRestored | SendUpiBeforeConfirming
| WithdrawalStored (amount : Q) (upi : string)
| WithdrawalRequest (user : Z) (amount : Q) (upi : string)
| UpiNoted (upi : string) | InvalidUpiWithdraw
| SupportRequest (user : Z) (text : string) | SupportThanks | SupportPrompt
| YouReferred | MainMenu | BalanceReply (b : Q) (n : Z) | ProfileReply
| StatusReply
| ReferralConfirmed (reward : Q) (newBalance : Q)
| AuditComplete (confirmed : nat) (invalidated : nat)
| ManualConfirmation (force : bool) (confirmed : nat) (invalidated : nat).

Inductive event :=
| DbRead (c : collection)
| DbWrite (c : collection)
| Reply (m : message)
| Send (to : Z) (m : message)
| AnswerCbQuery.

(** ** The handler monad: the database is threaded, events are logged, and an
    exception stops the rest of the handler *)

Inductive result (A : Type) := Returned (a : A) | Thrown.
Arguments Returned {A} a.
Arguments Thrown {A}.

Definition M (A : Type) : Type := db -> result A * db * list event.

Definition ret {A} (a : A) : M A := fun s => (Returned a, s, []).

Definition bind {A B} (m : M A) (k : A -> M B) : M B :=
  fun s =>
    match m s with
    | (Returned a, s1, l1) =>
        let '(r, s2, l2) := k a s1 in (r, s2, l1 ++ l2)
    | (Thrown, s1, l1) => (Thrown, s1, l1)
    end.

Definition throw {A} : M A := fun s => (Thrown, s, []).

(** [try { m } catch (e) { h }] *)
Definition try_catch {A} (m h : M A) : M A :=
  fun s =>
    match m s with
    | (Returned a, s1, l1) => (Returned a, s1, l1)
    | (Thrown, s1, l1) => let '(r, s2, l2) := h s1 in (r, s2, l1 ++ l2)
    end.

Definition emit (e : event) : M unit := fun s => (Returned tt, s, [e]).
Definition get {A} (c : collection) (f : db -> A) : M A :=
  fun s => (Returned (f s), s, [DbRead c]).
Definition put (c : collection) (f : db -> db) : M unit :=
  fun s => (Returned tt, f s, [DbWrite c]).

Notation "'let*' x ':=' m 'in' k" := (bind m (fun x => k))
  (at level 10, x pattern, m at level 100, k at level 200).
Notation "m '>>' k" := (bind m (fun _ => k))
  (at level 100, k at level 200, right associativity).

(** The database, the log and the result a computation ends with. *)
Definition final {A} (m : M A) (s : db) : db := snd (fst (m s)).
Definition events {A} (m : M A) (s : db) : list event := snd (m s).
Definition value {A} (m : M A) (s : db) : result A := fst (fst (m s)).

Definition reply (m : message) : M unit := emit (Reply m).
Definition sendMessage (to : Z) (m : message) : M unit := emit (Send to m).
Definition answerCbQuery : M unit := emit AnswerCbQuery.

(** ** Field updates ([$set], [$unset], [$inc])

    [set_f x d] is the document [d] with field [f] set to [x]; [$unset] of a
    flag sets it to [false], of an optional field to [None]. *)

Definition set_username (x : option string) (d : user) : user :=
  mkUser x (first_name d) (referralCode d) (balance d) (confirmedReferrals
    d) (createdAt d) (badges d) (primaryUPI d) (needsUpiSetup d)
    (balanceLocked d) (lastWithdrawAt d) (awaitingWithdrawUPI d)
    (awaitingWithdrawUPIConfirm d) (draftWithdrawUPI d) (awaitingUpiSetup d)
    (draftUpiSetup d) (awaitingSupportMessage d).

Definition set_first_name (x : option string) (d : user) : user :=
  mkUser (username d) x (referralCode d) (balance d) (confirmedReferrals d)
    (createdAt d) (badges d) (primaryUPI d) (needsUpiSetup d) (balanceLocked
    d) (lastWithdrawAt d) (awaitingWithdrawUPI d)
    (awaitingWithdrawUPIConfirm d) (draftWithdrawUPI d) (awaitingUpiSetup d)
    (draftUpiSetup d) (awaitingSupportMessage d).

Definition set_balance (x : Q) (d : user) : user :=
  mkUser (username d) (first_name d) (referralCode d) x (confirmedReferrals
    d) (createdAt d) (badges d) (primaryUPI d) (needsUpiSetup d)
    (balanceLocked d) (lastWithdrawAt d) (awaitingWithdrawUPI d)
    (awaitingWithdrawUPIConfirm d) (draftWithdrawUPI d) (awaitingUpiSetup d)
    (draftUpiSetup d) (awaitingSupportMessage d).

Definition set_confirmedReferrals (x : Z) (d : user) : user :=
  mkUser (username d) (first_name d) (referralCode d) (balance d) x
    (createdAt d) (badges d) (primaryUPI d) (needsUpiSetup d) (balanceLocked
    d) (lastWithdrawAt d) (awaitingWithdrawUPI d)
    (awaitingWithdrawUPIConfirm d) (draftWithdrawUPI d) (awaitingUpiSetup d)
    (draftUpiSetup d) (awaitingSupportMessage d).

Definition set_primaryUPI (x : option string) (d : user) : user :=
  mkUser (username d) (first_name d) (referralCode d) (balance d)
    (confirmedReferrals d) (createdAt d) (badges d) x (needsUpiSetup d)
    (balanceLocked d) (lastWithdrawAt d) (awaitingWithdrawUPI d)
    (awaitingWithdrawUPIConfirm d) (draftWithdrawUPI d) (awaitingUpiSetup d)
    (draftUpiSetup d) (awaitingSupportMessage d).

Definition set_needsUpiSetup (x : bool) (d : user) : user :=
  mkUser (username d) (first_name d) (referralCode d) (balance d)
    (confirmedReferrals d) (createdAt d) (badges d) (primaryUPI d) x
    (balanceLocked d) (lastWithdrawAt d) (awaitingWithdrawUPI d)
    (awaitingWithdrawUPIConfirm d) (draftWithdrawUPI d) (awaitingUpiSetup d)
    (draftUpiSetup d) (awaitingSupportMessage d).

Definition set_balanceLocked (x : option Q) (d : user) : user :=
  mkUser (username d) (first_name d) (referralCode d) (balance d)
    (confirmedReferrals d) (createdAt d) (badges d) (primaryUPI d)
    (needsUpiSetup d) x (lastWithdrawAt d) (awaitingWithdrawUPI d)
    (awaitingWithdrawUPIConfirm d) (draftWithdrawUPI d) (awaitingUpiSetup d)
    (draftUpiSetup d) (awaitingSupportMessage d).

Definition set_lastWithdrawAt (x : option Z) (d : user) : user :=
  mkUser (username d) (first_name d) (referralCode d) (balance d)
    (confirmedReferrals d) (createdAt d) (badges d) (primaryUPI d)
    (needsUpiSetup d) (balanceLocked d) x (awaitingWithdrawUPI d)
    (awaitingWithdrawUPIConfirm d) (draftWithdrawUPI d) (awaitingUpiSetup d)
    (draftUpiSetup d) (awaitingSupportMessage d).

Definition set_awaitingWithdrawUPI (x : bool) (d : user) : user :=
  mkUser (username d) (first_name d) (referralCode d) (balance d)
    (confirmedReferrals d) (createdAt d) (badges d) (primaryUPI d)
    (needsUpiSetup d) (balanceLocked d) (lastWithdrawAt d) x
    (awaitingWithdrawUPIConfirm d) (draftWithdrawUPI d) (awaitingUpiSetup d)
    (draftUpiSetup d) (awaitingSupportMessage d).

Definition set_awaitingWithdrawUPIConfirm (x : bool) (d : user) : user :=
  mkUser (username d) (first_name d) (referralCode d) (balance d)
    (confirmedReferrals d) (createdAt d) (badges d) (primaryUPI d)
    (needsUpiSetup d) (balanceLocked d) (lastWithdrawAt d)
    (awaitingWithdrawUPI d) x (draftWithdrawUPI d) (awaitingUpiSetup d)
    (draftUpiSetup d) (awaitingSupportMessage d).

Definition set_draftWithdrawUPI (x : option string) (d : user) : user :=
  mkUser (username d) (first_name d) (referralCode d) (balance d)
    (confirmedReferrals d) (createdAt d) (badges d) (primaryUPI d)
    (needsUpiSetup d) (balanceLocked d) (lastWithdrawAt d)
    (awaitingWithdrawUPI d) (awaitingWithdrawUPIConfirm d) x
    (awaitingUpiSetup d) (draftUpiSetup d) (awaitingSupportMessage d).

Definition set_awaitingUpiSetup (x : bool) (d : user) : user :=
  mkUser (username d) (first_name d) (referralCode d) (balance d)
    (confirmedReferrals d) (createdAt d) (badges d) (primaryUPI d)
    (needsUpiSetup d) (balanceLocked d) (lastWithdrawAt d)
    (awaitingWithdrawUPI d) (awaitingWithdrawUPIConfirm d) (draftWithdrawUPI
    d) x (draftUpiSetup d) (awaitingSupportMessage d).

Definition set_draftUpiSetup (x : option string) (d : user) : user :=
  mkUser (username d) (first_name d) (referralCode d) (balance d)
    (confirmedReferrals d) (createdAt d) (badges d) (primaryUPI d)
    (needsUpiSetup d) (balanceLocked d) (lastWithdrawAt d)
    (awaitingWithdrawUPI d) (awaitingWithdrawUPIConfirm d) (draftWithdrawUPI
    d) (awaitingUpiSetup d) x (awaitingSupportMessage d).

Definition set_awaitingSupportMessage (x : bool) (d : user) : user :=
  mkUser (username d) (first_name d) (referralCode d) (balance d)
    (confirmedReferrals d) (createdAt d) (badges d) (primaryUPI d)
    (needsUpiSetup d) (balanceLocked d) (lastWithdrawAt d)
    (awaitingWithdrawUPI d) (awaitingWithdrawUPIConfirm d) (draftWithdrawUPI
    d) (awaitingUpiSetup d) (draftUpiSetup d) x.

Definition set_p_status (x : referral_status) (d : pendingDoc) : pendingDoc :=
  mkPending (referredId d) (referrerId d) (p_referralCode d) (p_createdAt d)
    x (reason d) (confirmedAt d).

Definition set_reason (x : option invalid_reason) (d : pendingDoc) : pendingDoc :=
  mkPending (referredId d) (referrerId d) (p_referralCode d) (p_createdAt d)
    (p_status d) x (confirmedAt d).

Definition set_confirmedAt (x : option Z) (d : pendingDoc) : pendingDoc :=
  mkPending (referredId d) (referrerId d) (p_referralCode d) (p_createdAt d)
    (p_status d) (reason d) x.

Definition set_w_status (x : withdrawal_status) (d : withdrawal) : withdrawal :=
  mkWithdrawal (userId d) (upi d) (amount d) (requestedAt d) x (paidAt d)
    (paidBy d) (cancelledAt d).

Definition set_paidAt (x : option Z) (d : withdrawal) : withdrawal :=
  mkWithdrawal (userId d) (upi d) (amount d) (requestedAt d) (w_status d) x
    (paidBy d) (cancelledAt d).

Definition set_paidBy (x : option Z) (d : withdrawal) : withdrawal :=
  mkWithdrawal (userId d) (upi d) (amount d) (requestedAt d) (w_status d)
    (paidAt d) x (cancelledAt d).

Definition set_cancelledAt (x : option Z) (d : withdrawal) : withdrawal :=
  mkWithdrawal (userId d) (upi d) (amount d) (requestedAt d) (w_status d)
    (paidAt d) (paidBy d) x.

Definition inc_balance (x : Q) (d : user) : user :=
  set_balance (balance d + x)%Q d.
Definition inc_confirmedReferrals (n : Z) (d : user) : user :=
  set_confirmedReferrals (confirmedReferrals d + n) d.

(** ** Store operations of the MongoDB driver *)

(** [usersCol.findOne({ telegramId })] *)
Definition usersCol_findOne (tid : Z) : M (option user) :=
  get Users (fun s => users s !! tid).

Definition find_by_code (code : string) (m : gmap Z user) : option (Z * user) :=
  List.find (fun kv => String.eqb (referralCode (snd kv)) code) (map_to_list m).

(** [usersCol.findOne({ referralCode })] *)
Definition usersCol_findOne_referralCode (code : string) : M (option (Z * user)) :=
  get Users (fun s => find_by_code code (users s)).

(** [usersCol.insertOne(u)]: a duplicate key of a unique index throws. *)
Definition usersCol_insertOne (tid : Z) (u : user) : M unit :=
  fun s =>
    if (has_unique_index Users F_telegramId
        && bool_decide (is_Some (users s !! tid)))
       || (has_unique_index Users F_referralCode
           && bool_decide (is_Some (find_by_code (referralCode u) (users s))))
    then (Thrown, s, [DbWrite Users])
    else (Returned tt, with_users (insert tid u) s, [DbWrite Users]).

(** [usersCol.updateOne({ telegramId }, update)]; no match, no change. *)
Definition usersCol_updateOne (tid : Z) (f : user -> user) : M unit :=
  put Users (with_users (alter f tid)).

(** [usersCol.findOneAndUpdate({ telegramId }, update,
    { returnDocument: "after" })], read through [.value]. *)
Definition usersCol_findOneAndUpdate (tid : Z) (f : user -> user) : M (option user) :=
  fun s => (Returned (f <$> users s !! tid), with_users (alter f tid) s,
            [DbWrite Users]).

Definition find_by_referred (rid : Z) (m : gmap N pendingDoc) : option (N * pendingDoc) :=
  List.find (fun kv => Z.eqb (referredId (snd kv)) rid) (map_to_list m).

(** [pendingCol.findOne({ referredId })] *)
Definition pendingCol_findOne_referredId (rid : Z) : M (option (N * pendingDoc)) :=
  get Pending (fun s => find_by_referred rid (pending s)).

(** [pendingCol.insertOne(p)]: the driver gives the document an [_id] that no
    stored document has; a duplicate key of a unique index would throw. *)
Definition pendingCol_insertOne (p : pendingDoc) : M unit :=
  fun s =>
    if has_unique_index Pending F_referredId
       && bool_decide (is_Some (find_by_referred (referredId p) (pending s)))
    then (Thrown, s, [DbWrite Pending])
    else (Returned tt,
          with_pending (insert (fresh (dom (pending s))) p) s,
          [DbWrite Pending]).

(** [pendingCol.find(query).toArray()] *)
Definition pendingCol_find (query : pendingDoc -> bool) : M (list (N * pendingDoc)) :=
  get Pending (fun s => List.filter (fun kv => query (snd kv))
                                    (map_to_list (pending s))).

(** [pendingCol.updateOne({ _id }, update)] *)
Definition pendingCol_updateOne (_id : N) (f : pendingDoc -> pendingDoc) : M unit :=
  put Pending (with_pending (alter f _id)).

Definition find_ref (rid : Z) (l : list refDoc) : option refDoc :=
  List.find (fun r => Z.eqb (r_referredId r) rid) l.

(** [refsCol.findOne({ referredId })] *)
Definition refsCol_findOne_referredId (rid : Z) : M (option refDoc) :=
  get Refs (fun s => find_ref rid (refs s)).

(** [refsCol.insertOne(r)] *)
Definition refsCol_insertOne (r : refDoc) : M unit :=
  put Refs (with_refs (fun l => l ++ [r])).

(** [withdrawalsCol.findOne({ _id, status: "pending" })] *)
Definition withdrawalsCol_findOne_pending (_id : N) : M (option withdrawal) :=
  get Withdrawals (fun s =>
    match withdrawals s !! _id with
    | Some w => if withdrawal_status_eqb (w_status w) WPending then Some w else None
    | None => None
    end).

(** [withdrawalsCol.insertOne(w)] *)
Definition withdrawalsCol_insertOne (w : withdrawal) : M unit :=
  put Withdrawals (fun s =>
    with_withdrawals (insert (fresh (dom (withdrawals s))) w) s).

(** [withdrawalsCol.updateOne({ _id }, update)] *)
Definition withdrawalsCol_updateOne (_id : N) (f : withdrawal -> withdrawal) : M unit :=
  put Withdrawals (with_withdrawals (alter f _id)).

(** [withdrawalsCol.find(...)], for replies that only display. *)
Definition withdrawalsCol_find : M unit :=
  get Withdrawals (fun _ => tt).

(** [for (const x of l) body(x)] over an accumulator *)
Fixpoint for_of {A B} (l : list A) (body : A -> B -> M B) (acc : B) : M B :=
  match l with
  | [] => ret acc
  | x :: l' => let* acc' := body x acc in for_of l' body acc'
  end.

(** ** Updates received by the bot *)

Record sender := mkSender {
  from_id : Z;
  from_username : option string;
  from_first_name : option string;
}.

(** Argument of [/pay] and [/cancelwithdraw]: missing, refused by
    [new ObjectId], or an object id. *)
Inductive id_arg := NoArg | BadId | ObjectId (_id : N).

(** Arguments of [/admin_credit] after [Number(...)]: [None] for a value that
    is not finite.  A finite target that is not an integer names no account,
    like an integer no account has. *)
Record credit_args := mkCreditArgs {
  targetId : option Z;
  credit_amount : option Q;
  note : string;
}.

Inductive lookup_kind := Balance | Profile | Status.

(** A function reached through a slash command or through an inline button. *)
Inductive entry := Command | Button.

(** An update, with what the environment decides for it: [code] is what
    [makeReferralCode] would return, [now] what [new Date] would.  [Text] is
    a text message in which Telegraf finds no command: nothing that follows
    [bot.on("text")] in the chain handles it.  [Pay], [CancelWithdraw],
    [AdminConfirm] and [AdminCredit] are the text messages in which it finds
    that command, with the whole [text] of the message, which
    [bot.on("text")] reads first, and with the arguments that the command
    reads in it. *)
Inductive update :=
| Start (from : sender) (text : string) (code : string) (now : Z)
| Lookup (k : lookup_kind) (via : entry) (from : sender) (code : string) (now : Z)
| Setupi (via : entry) (from : sender) (code : string) (now : Z)
| Withdraw (via : entry) (from : sender) (code : string) (now : Z)
| Text (from : sender) (text : string) (code : string) (now : Z)
| Support (from : sender)
| Pay (from : sender) (text : string) (arg : id_arg) (code : string) (now : Z)
| CancelWithdraw (from : sender) (text : string) (arg : id_arg) (code : string)
    (now : Z)
| AdminConfirm (from : sender) (text : string) (code : string) (now : Z)
| AdminConfirmButton (from : sender) (now : Z)
| AdminCredit (from : sender) (text : string) (args : option credit_args)
    (code : string) (now : Z)
| Sweep (now : Z).

(** [for (const a of l) body(a)] *)
Fixpoint for_each {A} (l : list A) (body : A -> M unit) : M unit :=
  match l with
  | [] => ret tt
  | x :: l' => body x >> for_each l' body
  end.

(** ** The handlers of bot.js *)

Section Handlers.

Variable cfg : config.

Definition isAdmin (id : Z) : bool := existsb (Z.eqb id) (ADMIN_IDS cfg).

(** [x || null] *)
Definition or_null (o : option string) : option string :=
  if truthy o then o else None.

Definition same_string (a b : option string) : bool :=
  match a, b with
  | Some x, Some y => String.eqb x y
  | None, None => true
  | _, _ => false
  end.

(** [from.x && from.x !== u.x]: the value to store, when there is one. *)
Definition name_update (given stored : option string) : option string :=
  if truthy given && negb (same_string given stored) then given else None.

Definition apply_update (set : option string -> user -> user)
    (upd : option string) (d : user) : user :=
  match upd with Some _ => set upd d | None => d end.

(** The document [ensureUserProfile] creates for an identity it has not seen;
    the fields it does not list are absent. *)
Definition new_user (from : sender) (code : string) (now : Z) : user :=
  {| username := or_null (from_username from);
     first_name := or_null (from_first_name from);
     referralCode := code; balance := 0; confirmedReferrals := 0;
     createdAt := now; badges := []; primaryUPI := None;
     needsUpiSetup := true; balanceLocked := None;
     lastWithdrawAt := None; awaitingWithdrawUPI := false;
     awaitingWithdrawUPIConfirm := false; draftWithdrawUPI := None;
     awaitingUpiSetup := false; draftUpiSetup := None;
     awaitingSupportMessage := false |}.

Definition ensureUserProfile (from : sender) (code : string) (now : Z) : M user :=
  let tgId := from_id from in
  let* u := usersCol_findOne tgId in
  match u with
  | None =>
      let u := new_user from code now in
      (usersCol_insertOne tgId u >> ret u)
  | Some u =>
      let un := name_update (from_username from) (username u) in
      let fn := name_update (from_first_name from) (first_name u) in
      let updates d := apply_update set_first_name fn (apply_update set_username un d) in
      if bool_decide (is_Some un) || bool_decide (is_Some fn)
      then (usersCol_updateOne tgId updates >> ret (updates u))
      else ret u
  end.

Definition sendMainMenu : M unit := reply MainMenu.

Definition startWithdrawFlow (telegramId : Z) (user : user) (now : Z) : M unit :=
  if match balanceLocked user with Some l => Qltb 0 l | None => false end
  then reply AlreadyPendingWithdrawal
  else if Qltb (balance user) (MIN_WITHDRAWAL cfg)
  then reply (MinimumNotReached (balance user))
  else
    let spendable := balance user in
    let setFields d :=
      let d1 :=
        set_draftWithdrawUPI None
          (set_awaitingWithdrawUPIConfirm false
             (set_lastWithdrawAt (Some now)
                (set_balanceLocked (Some spendable)
                   (set_awaitingWithdrawUPI true d)))) in
      if truthy (primaryUPI user)
      then set_awaitingWithdrawUPIConfirm true
             (set_draftWithdrawUPI (primaryUPI user) d1)
      else d1 in
    usersCol_updateOne telegramId
      (fun d => inc_balance (- spendable) (setFields d)) >>
    reply (if truthy (primaryUPI user)
           then SavedUpiInstructions (default EmptyString (primaryUPI user))
           else ReplyWithUpi).

Definition startUpiSetup (telegramId : Z) (user : user) : M unit :=
  usersCol_updateOne telegramId
    (fun d => set_draftUpiSetup None (set_awaitingUpiSetup true d)) >>
  reply (UpiSetupPrompt (or_null (primaryUPI user))).

Definition replyBalance (from : sender) (code : string) (now : Z) : M unit :=
  let* u := ensureUserProfile from code now in
  reply (BalanceReply (balance u) (confirmedReferrals u)).

Definition replyProfile (from : sender) (code : string) (now : Z) : M unit :=
  let* u := ensureUserProfile from code now in
  reply ProfileReply.

Definition replyStatus (from : sender) (code : string) (now : Z) : M unit :=
  let* u := ensureUserProfile from code now in
  withdrawalsCol_find >> reply StatusReply.

(** A function behind a command (its exception is caught and reported) or
    behind a button (the callback query is answered first). *)
Definition entered (via : entry) (m : M unit) : M unit :=
  match via with
  | Command => try_catch m (reply CommandFailed)
  | Button => answerCbQuery >> m
  end.

Definition on_lookup (k : lookup_kind) (via : entry) (from : sender)
    (code : string) (now : Z) : M unit :=
  entered via
    match k with
    | Balance => replyBalance from code now
    | Profile => replyProfile from code now
    | Status => replyStatus from code now
    end.

Definition on_setupi (via : entry) (from : sender) (code : string) (now : Z) : M unit :=
  entered via
    (let* u := ensureUserProfile from code now in
     startUpiSetup (from_id from) u).

Definition on_withdraw (via : entry) (from : sender) (code : string) (now : Z) : M unit :=
  entered via
    (let* u := ensureUserProfile from code now in
     startWithdrawFlow (from_id from) u now).

(** The referral block of [bot.start], for the sender [telegramId] and the
    payload of the command. *)
Definition register_referral (telegramId : Z) (payload : string) (now : Z) : M unit :=
  if String.prefix "ref_" payload then
    let* referrer := usersCol_findOne_referralCode payload in
    match referrer with
    | Some (referrer_telegramId, _) =>
        if negb (Z.eqb referrer_telegramId telegramId) then
          let* in_pending := pendingCol_findOne_referredId telegramId in
          let* exists_ :=
            if bool_decide (is_Some in_pending) then ret true
            else (let* in_refs := refsCol_findOne_referredId telegramId in
                  ret (bool_decide (is_Some in_refs))) in
          if negb exists_ then
            pendingCol_insertOne
              {| referredId := telegramId;
                 referrerId := referrer_telegramId;
                 p_referralCode := payload; p_createdAt := now;
                 p_status := RPending; reason := None;
                 confirmedAt := None |} >>
            sendMessage referrer_telegramId YouReferred
          else ret tt
        else ret tt
    | None => ret tt
    end
  else ret tt.

(** [bot.start] *)
Definition on_start (from : sender) (text : string) (code : string) (now : Z) : M unit :=
  try_catch
    (let raw := trim text in
     let parts := split_space raw in
     let payload := nth 1 parts EmptyString in
     let* user := ensureUserProfile from code now in
     register_referral (from_id from) payload now >>
     sendMainMenu)
    (ret tt).

(** The part of [bot.on("text")] that interprets the text against the flags of
    the document [u] it has read.  It returns [true] where the handler
    returns, and [false] where it goes on to [next()]. *)
Definition dialogue (telegramId : Z) (u : user) (text : string) (now : Z) : M bool :=
  let lower := toLowerCase text in
  if awaitingUpiSetup u then
    if String.eqb lower "cancel" then
      usersCol_updateOne telegramId
        (fun d => set_draftUpiSetup None (set_awaitingUpiSetup false d)) >>
      reply UpiSetupCancelled >> ret true
    else if String.eqb lower "confirm" then
      if negb (truthy (draftUpiSetup u)) then reply SendUpiFirst >> ret true
      else
        usersCol_updateOne telegramId
          (fun d =>
             set_draftUpiSetup None
               (set_awaitingUpiSetup false
                  (set_needsUpiSetup false
                     (set_primaryUPI (draftUpiSetup u) d)))) >>
        reply (SavedUpi (default EmptyString (draftUpiSetup u))) >> ret true
    else if UPI_REGEX_test text then
      usersCol_updateOne telegramId (set_draftUpiSetup (Some text)) >>
      reply (UpiCaptured text) >> ret true
    else reply InvalidUpiSetup >> ret true
  else if awaitingWithdrawUPI u then
    if String.eqb lower "cancel" then
      usersCol_updateOne telegramId
        (fun d =>
           set_balanceLocked None
             (set_draftWithdrawUPI None
                (set_awaitingWithdrawUPIConfirm false
                   (set_awaitingWithdrawUPI false
                      (inc_balance (default 0%Q (balanceLocked u)) d))))) >>
      reply WithdrawalCancelledBalanceRestored >> ret true
    else if String.eqb lower "confirm" then
      if negb (awaitingWithdrawUPIConfirm u) || negb (truthy (draftWithdrawUPI u))
      then reply SendUpiBeforeConfirming >> ret true
      else
        let amount := default 0%Q (balanceLocked u) in
        let upi := default EmptyString (draftWithdrawUPI u) in
        withdrawalsCol_insertOne
          {| userId := telegramId; upi := upi; amount := amount;
             requestedAt := now; w_status := WPending; paidAt := None;
             paidBy := None; cancelledAt := None |} >>
        usersCol_updateOne telegramId
          (fun d =>
             set_needsUpiSetup false
               (set_primaryUPI (Some upi)
                  (set_draftWithdrawUPI None
                     (set_awaitingWithdrawUPIConfirm false
                        (set_awaitingWithdrawUPI false d))))) >>
        reply (WithdrawalStored amount upi) >>
        for_each (ADMIN_IDS cfg)
          (fun a => sendMessage a (WithdrawalRequest telegramId amount upi)) >>
        ret true
    else if UPI_REGEX_test text then
      usersCol_updateOne telegramId
        (fun d => set_awaitingWithdrawUPIConfirm true
                    (set_draftWithdrawUPI (Some text) d)) >>
      reply (UpiNoted text) >> ret true
    else reply InvalidUpiWithdraw >> ret true
  else if awaitingSupportMessage u then
    usersCol_updateOne telegramId (set_awaitingSupportMessage false) >>
    for_each (ADMIN_IDS cfg)
      (fun adminId => sendMessage adminId (SupportRequest telegramId text)) >>
    reply SupportThanks >> ret true
  else ret false.

(** [bot.on("text")]: the handler returns when a dialogue has taken the text;
    otherwise, and after an exception it has caught, it goes on to [next],
    the rest of the chain. *)
Definition on_text (from : sender) (message_text : string) (code : string)
    (now : Z) (next : M unit) : M unit :=
  let* taken :=
    try_catch
      (let text := trim message_text in
       let* found := usersCol_findOne (from_id from) in
       let* u :=
         match found with
         | Some u => ret u
         | None => ensureUserProfile from code now
         end in
       dialogue (from_id from) u text now)
      (ret false) in
  if taken then ret tt else next.

(** [bot.action("SUPPORT")] *)
Definition on_support (from : sender) : M unit :=
  usersCol_updateOne (from_id from) (set_awaitingSupportMessage true) >>
  answerCbQuery >>
  reply SupportPrompt.

(** [bot.command("pay")] *)
Definition on_pay (from : sender) (arg : id_arg) (now : Z) : M unit :=
  if negb (isAdmin (from_id from)) then reply Unauthorized
  else
    match arg with
    | NoArg => reply UsagePay
    | BadId => reply ErrorReply
    | ObjectId _id =>
        let* w := withdrawalsCol_findOne_pending _id in
        match w with
        | None => reply NotFound
        | Some w =>
            withdrawalsCol_updateOne _id
              (fun d => set_paidBy (Some (from_id from))
                          (set_paidAt (Some now) (set_w_status WPaid d))) >>
            usersCol_updateOne (userId w) (set_balanceLocked None) >>
            reply MarkedPaid >>
            sendMessage (userId w) (WithdrawalPaid (amount w))
        end
    end.

(** [bot.command("cancelwithdraw")] *)
Definition on_cancelwithdraw (from : sender) (arg : id_arg) (now : Z) : M unit :=
  if negb (isAdmin (from_id from)) then reply Unauthorized
  else
    match arg with
    | NoArg => reply UsageCancelWithdraw
    | BadId => throw
    | ObjectId _id =>
        let* w := withdrawalsCol_findOne_pending _id in
        match w with
        | None => reply NotFound
        | Some w =>
            withdrawalsCol_updateOne _id
              (fun d => set_cancelledAt (Some now) (set_w_status WCancelled d)) >>
            usersCol_updateOne (userId w)
              (fun d => set_balanceLocked None (inc_balance (amount w) d)) >>
            reply CancelledAndRefunded >>
            sendMessage (userId w) WithdrawalCancelled
        end
    end.

(** [bot.command("admin_credit")] *)
Definition on_admin_credit (from : sender) (args : option credit_args) : M unit :=
  if negb (isAdmin (from_id from)) then reply Unauthorized
  else
    match args with
    | None => reply UsageAdminCredit
    | Some a =>
        match targetId a with
        | None => reply TelegramIdMustBeNumber
        | Some targetId =>
            match credit_amount a with
            | None => reply AmountMustBeNumber
            | Some amount =>
                if Qeq_bool amount 0 then reply AmountCannotBeZero
                else
                  let* user := usersCol_findOne targetId in
                  match user with
                  | None => reply UserNotFound
                  | Some user =>
                      usersCol_updateOne targetId (inc_balance amount) >>
                      sendMessage targetId (AdminCredited amount (note a)) >>
                      reply (Credited amount (note a))
                  end
            end
        end
    end.

(** *** The referral confirmation job *)

Record summary := mkSummary { confirmed : list N; invalidated : list N }.

Definition push_confirmed (_id : N) (s : summary) : summary :=
  mkSummary (confirmed s ++ [_id]) (invalidated s).
Definition push_invalidated (_id : N) (s : summary) : summary :=
  mkSummary (confirmed s) (invalidated s ++ [_id]).

Definition cutoff (now : Z) : Z :=
  timeClip (inject_Z now - CONFIRM_DELAY_HOURS cfg * 3600 * 1000)%Q.

(** The filter given to [pendingCol.find]. *)
Definition query (force : bool) (now : Z) (p : pendingDoc) : bool :=
  referral_status_eqb (p_status p) RPending
  && (force || Z.leb (p_createdAt p) (cutoff now)).

(** [{ $set: { status: "invalid", reason } }] *)
Definition mark_invalid (why : invalid_reason) (d : pendingDoc) : pendingDoc :=
  set_reason (Some why) (set_p_status RInvalid d).

(** [{ $set: { status: "confirmed", confirmedAt: new Date() } }] *)
Definition mark_confirmed (now : Z) (d : pendingDoc) : pendingDoc :=
  set_confirmedAt (Some now) (set_p_status RConfirmed d).

(** [{ $inc: { balance: REFERRAL_REWARD, confirmedReferrals: 1 } }] *)
Definition credit_referrer (d : user) : user :=
  inc_confirmedReferrals 1 (inc_balance (REFERRAL_REWARD cfg) d).

Definition invalidate (_id : N) (why : invalid_reason) : M unit :=
  pendingCol_updateOne _id (mark_invalid why).

(** The body of the loop, for the document [p] as [find] returned it. *)
Definition confirm_one (now : Z) (doc : N * pendingDoc) (sum : summary) : M summary :=
  let '(_id, p) := doc in
  if Z.eqb (referredId p) (referrerId p) then
    invalidate _id self_referral >> ret (push_invalidated _id sum)
  else
    let* referred := usersCol_findOne (referredId p) in
    match referred with
    | None =>
        invalidate _id no_user_record >> ret (push_invalidated _id sum)
    | Some _ =>
        let* updateResult :=
          usersCol_findOneAndUpdate (referrerId p) credit_referrer in
        match updateResult with
        | None =>
            invalidate _id no_referrer_record >>
            ret (push_invalidated _id sum)
        | Some after =>
            pendingCol_updateOne _id (mark_confirmed now) >>
            refsCol_insertOne
              {| r_referrerId := referrerId p; r_referredId := referredId p;
                 r_referralCode := p_referralCode p; r_confirmedAt := now |} >>
            sendMessage (referrerId p)
              (ReferralConfirmed (REFERRAL_REWARD cfg) (balance after)) >>
            ret (push_confirmed _id sum)
        end
    end.

(** The loop of [confirmPendingReferrals] over the documents found. *)
Definition confirm_loop (now : Z) (pendings : list (N * pendingDoc)) : M summary :=
  for_of pendings (confirm_one now) (mkSummary [] []).

Definition confirmPendingReferrals (force : bool) (now : Z) : M summary :=
  let* pendings := pendingCol_find (query force now) in
  confirm_loop now pendings.

(** [text.includes("force")] *)
Definition includes_force (text : string) : bool :=
  match String.index 0 "force" text with Some _ => true | None => false end.

(** [bot.command("admin_confirm")] *)
Definition on_admin_confirm (from : sender) (text : string) (now : Z) : M unit :=
  if negb (isAdmin (from_id from)) then reply Unauthorized
  else
    let force := includes_force (toLowerCase text) in
    let* result := confirmPendingReferrals force now in
    reply (ManualConfirmation force (length (confirmed result))
             (length (invalidated result))).

(** [bot.action("ADMIN_CONFIRM")] *)
Definition on_admin_confirm_button (from : sender) (now : Z) : M unit :=
  answerCbQuery >>
  if negb (isAdmin (from_id from)) then reply Unauthorized
  else
    let* result := confirmPendingReferrals true now in
    reply (AuditComplete (length (confirmed result))
             (length (invalidated result))).

(** The timer and the start-up pass: [confirmPendingReferrals()]. *)
Definition on_sweep (now : Z) : M unit :=
  let* _ := confirmPendingReferrals false now in ret tt.

(** ** One update, handled from start to end *)

Definition handle (u : update) : M unit :=
  match u with
  | Start from text code now => on_start from text code now
  | Lookup k via from code now => on_lookup k via from code now
  | Setupi via from code now => on_setupi via from code now
  | Withdraw via from code now => on_withdraw via from code now
  | Text from text code now => on_text from text code now (ret tt)
  | Support from => on_support from
  | Pay from text arg code now =>
      on_text from text code now (on_pay from arg now)
  | CancelWithdraw from text arg code now =>
      on_text from text code now (on_cancelwithdraw from arg now)
  | AdminConfirm from text code now =>
      on_text from text code now (on_admin_confirm from text now)
  | AdminConfirmButton from now => on_admin_confirm_button from now
  | AdminCredit from text args code now =>
      on_text from text code now (on_admin_credit from args)
  | Sweep now => on_sweep now
  end.

Definition step (u : update) (s : db) : db := final (handle u) s.

Definition run (us : list update) (s : db) : db := fold_left (fun s u => step u s) us s.

End Handlers.

(** ** Notions used to state the properties *)

(** [u'] is [u] with, at most, other display names. *)
Definition renamed (u u' : user) : Prop :=
  exists a b, u' = set_first_name a (set_username b u).

(** No outstanding locked balance: [startWithdrawFlow] does not refuse. *)
Definition no_lock (u : user) : Prop :=
  forall l, balanceLocked u = Some l -> ~ (0 < l)%Q.

(** What an account holds: spendable plus locked. *)
Definition total (s : db) (t : Z) : Q :=
  match users s !! t with
  | Some u => (balance u + default 0 (balanceLocked u))%Q
  | None => 0%Q
  end.

(** How a pass of the confirmation job may change a stored referral: it
    stays, keeps who referred whom, and does not go back to pending. *)
Definition doc_evolves (o o' : option pendingDoc) : Prop :=
  match o, o' with
  | None, None => True
  | Some d, Some d' =>
      referredId d' = referredId d /\ referrerId d' = referrerId d /\
      (p_status d <> RPending -> p_status d' <> RPending)
  | _, _ => False
  end.

(** How a pass may change an account: some number of referral credits. *)
Definition acct_evolves (cfg : config) (o o' : option user) : Prop :=
  match o, o' with
  | None, None => True
  | Some u, Some u' => exists k : nat, u' = Nat.iter k (credit_referrer cfg) u
  | _, _ => False
  end.

(** The documents a pass works on: [pendingCol.find(query)] on [s]. *)
Definition selected (cfg : config) (force : bool) (now : Z) (s : db) :
    list (N * pendingDoc) :=
  List.filter (fun kv => query cfg force now (snd kv)) (map_to_list (pending s)).

(** *** The ledger seen from outside

    The fields of an account that money depends on, and the changes the
    handlers make to them.  [step_changes] below shows that every update is
    a profile change followed by one change of the list. *)

Definition same_ledger (u u' : user) : Prop :=
  balance u' = balance u /\ balanceLocked u' = balanceLocked u /\
  awaitingWithdrawUPI u' = awaitingWithdrawUPI u.

(** Does [bot.on("text")] pass a message of the sender on to the handlers
    registered after it: it does unless a dialogue of the sender takes the
    text, which the flags of the stored account decide. *)
Definition in_dialogue (u : user) : bool :=
  awaitingUpiSetup u || awaitingWithdrawUPI u || awaitingSupportMessage u.

Definition passed_on (from : sender) (s : db) : bool :=
  match users s !! from_id from with
  | Some u => negb (in_dialogue u)
  | None => true
  end.

(** Does the update settle a withdrawal: [/pay] by an administrator, passed
    on by [bot.on("text")], on the [_id] of a pending withdrawal. *)
Definition settles (cfg : config) (u : update) (s : db) : bool :=
  match u with
  | Pay from _ (ObjectId i) _ _ =>
      isAdmin cfg (from_id from) && passed_on from s &&
      match withdrawals s !! i with
      | Some w => withdrawal_status_eqb (w_status w) WPending
      | None => false
      end
  | _ => false
  end.

(** Is the update an [/admin_credit] with a negative amount. *)
Definition negative_credit (u : update) : bool :=
  match u with
  | AdminCredit _ _ (Some a) _ _ =>
      match credit_amount a with
      | Some q => Qltb q 0
      | None => false
      end
  | _ => false
  end.

Inductive kind := Quiet | Settle | Credit (q : Q).

Definition kind_of (cfg : config) (u : update) (s : db) : kind :=
  if settles cfg u s then Settle
  else
    match u with
    | AdminCredit _ _ (Some a) _ _ =>
        match credit_amount a with
        | Some q => Credit q
        | None => Quiet
        end
    | _ => Quiet
    end.

Inductive ledger_change (cfg : config) : kind -> db -> db -> Prop :=
| lc_same k s s' :
    users s' = users s -> withdrawals s' = withdrawals s ->
    ledger_change cfg k s s'
| lc_profile s s' t u u' :
    users s !! t = Some u -> same_ledger u u' ->
    users s' = <[t := u']> (users s) -> withdrawals s' = withdrawals s ->
    ledger_change cfg Quiet s s'
| lc_new s s' t u' :
    users s !! t = None ->
    balance u' = 0%Q -> balanceLocked u' = None ->
    awaitingWithdrawUPI u' = false ->
    users s' = <[t := u']> (users s) -> withdrawals s' = withdrawals s ->
    ledger_change cfg Quiet s s'
| lc_lock s s' t u u' :
    users s !! t = Some u -> no_lock u ->
    (MIN_WITHDRAWAL cfg <= balance u)%Q ->
    balance u' = (balance u + - balance u)%Q ->
    balanceLocked u' = Some (balance u) ->
    awaitingWithdrawUPI u' = true ->
    users s' = <[t := u']> (users s) -> withdrawals s' = withdrawals s ->
    ledger_change cfg Quiet s s'
| lc_unlock s s' t u u' :
    users s !! t = Some u -> awaitingWithdrawUPI u = true ->
    balance u' = (balance u + default 0 (balanceLocked u))%Q ->
    balanceLocked u' = None ->
    awaitingWithdrawUPI u' = false ->
    users s' = <[t := u']> (users s) -> withdrawals s' = withdrawals s ->
    ledger_change cfg Quiet s s'
| lc_request s s' t u u' w :
    users s !! t = Some u -> awaitingWithdrawUPI u = true ->
    balance u' = balance u -> balanceLocked u' = balanceLocked u ->
    awaitingWithdrawUPI u' = false ->
    userId w = t -> amount w = default 0%Q (balanceLocked u) ->
    w_status w = WPending ->
    users s' = <[t := u']> (users s) ->
    withdrawals s' = <[fresh (dom (withdrawals s)) := w]> (withdrawals s) ->
    ledger_change cfg Quiet s s'
| lc_pay s s' i w w' :
    withdrawals s !! i = Some w -> w_status w = WPending ->
    w_status w' = WPaid ->
    withdrawals s' = <[i := w']> (withdrawals s) ->
    users s' = alter (set_balanceLocked None) (userId w) (users s) ->
    ledger_change cfg Settle s s'
| lc_refund s s' i w w' :
    withdrawals s !! i = Some w -> w_status w = WPending ->
    w_status w' = WCancelled ->
    withdrawals s' = <[i := w']> (withdrawals s) ->
    users s' = alter (fun d => set_balanceLocked None (inc_balance (amount w) d))
                 (userId w) (users s) ->
    ledger_change cfg Quiet s s'
| lc_credit s s' t q :
    ~ (q == 0)%Q ->
    users s' = alter (inc_balance q) t (users s) ->
    withdrawals s' = withdrawals s ->
    ledger_change cfg (Credit q) s s'
| lc_referrals s s' :
    (forall t, acct_evolves cfg (users s !! t) (users s' !! t)) ->
    withdrawals s' = withdrawals s ->
    ledger_change cfg Quiet s s'.

(** An account holds no negative amount, spendable or locked. *)
Definition acct_nonneg (u : user) : Prop :=
  (0 <= balance u)%Q /\ forall l, balanceLocked u = Some l -> (0 <= l)%Q.

(** No account and no pending withdrawal holds a negative amount. *)
Definition ledger_nonneg (s : db) : Prop :=
  (forall t u, users s !! t = Some u -> acct_nonneg u) /\
  (forall i w, withdrawals s !! i = Some w -> w_status w = WPending ->
     (0 <= amount w)%Q).

(** An account in the withdrawal dialogue has a positive amount locked. *)
Definition draft_has_lock (u : user) : Prop :=
  awaitingWithdrawUPI u = true ->
  exists a, balanceLocked u = Some a /\ (0 < a)%Q.

(** The locked amount of an account is the amount of its one pending
    withdrawal or of its one draft: a pending withdrawal belongs to an account
    that has its positive amount locked and is not drafting, an account has
    at most one pending withdrawal, and a drafting account has a positive
    amount locked. *)
Definition locks_consistent (s : db) : Prop :=
  (forall i w, withdrawals s !! i = Some w -> w_status w = WPending ->
     exists u, users s !! userId w = Some u /\
       balanceLocked u = Some (amount w) /\ (0 < amount w)%Q /\
       awaitingWithdrawUPI u = false) /\
  (forall i j w w', withdrawals s !! i = Some w ->
     withdrawals s !! j = Some w' ->
     w_status w = WPending -> w_status w' = WPending ->
     userId w = userId w' -> i = j) /\
  (forall t u, users s !! t = Some u -> draft_has_lock u).

(** The states the bot can be in: those a sequence of updates leads to from
    the empty database. *)
Definition reachable (cfg : config) (s : db) : Prop :=
  exists us, s = run cfg us empty_db.

(** *** Referrals *)

(** The state in which the command of an update runs: for a command
    registered after [bot.on("text")], the state that handler leaves. *)
Definition before_command (cfg : config) (u : update) (s : db) : db :=
  match u with
  | Pay from text _ code now | CancelWithdraw from text _ code now
  | AdminConfirm from text code now | AdminCredit from text _ code now =>
      step cfg (Text from text code now) s
  | _ => s
  end.

(** The pass an update runs from [s], if it runs one: its [force] and its
    clock. *)
Definition pass_of (cfg : config) (u : update) (s : db) : option (bool * Z) :=
  match u with
  | AdminConfirm from text code now =>
      if isAdmin cfg (from_id from) && passed_on from s
      then Some (includes_force (toLowerCase text), now) else None
  | AdminConfirmButton from now =>
      if isAdmin cfg (from_id from) then Some (true, now) else None
  | Sweep now => Some (false, now)
  | _ => None
  end.

(** The [summary.confirmed] of the pass an update runs on [s]: the [_id]s for
    which that pass credited the reward. *)
Definition confirmed_by (cfg : config) (u : update) (s : db) : list N :=
  match pass_of cfg u s with
  | Some (force, now) =>
      match value (confirmPendingReferrals cfg force now)
              (before_command cfg u s) with
      | Returned sum => confirmed sum
      | Thrown => []
      end
  | None => []
  end.

(** How many times the updates [us], handled one after the other from [s],
    credit the reward for the referral stored under [i]. *)
Fixpoint credits (cfg : config) (i : N) (us : list update) (s : db) : nat :=
  match us with
  | [] => 0
  | u :: us' =>
      count_occ N.eq_dec (confirmed_by cfg u s) i
      + credits cfg i us' (step cfg u s)
  end.

(** The referral stored under [i] has left the pending status. *)
Definition settled (s : db) (i : N) : Prop :=
  exists p, pending s !! i = Some p /\ p_status p <> RPending.

(** No two stored referrals name the same referred identity. *)
Definition one_referral_per_referred (s : db) : Prop :=
  forall i j p q,
    pending s !! i = Some p -> pending s !! j = Some q ->
    referredId p = referredId q -> i = j.

(** Some stored referral, pending or confirmed, names [t] as referred. *)
Definition already_referred (s : db) (t : Z) : Prop :=
  (exists i p, pending s !! i = Some p /\ referredId p = t) \/
  (exists r, r ∈ refs s /\ r_referredId r = t).

(** ** Example data *)

Definition admin : sender := mkSender 1 None None.

Definition carol_drafted : user :=
  {| username := None; first_name := None; referralCode := "ref_c";
     balance := 0; confirmedReferrals := 0; createdAt := 0; badges := [];
     primaryUPI := Some "carol@bank"%string; needsUpiSetup := false;
     balanceLocked := Some 100%Q; lastWithdrawAt := Some 5;
     awaitingWithdrawUPI := false; awaitingWithdrawUPIConfirm := false;
     draftWithdrawUPI := None; awaitingUpiSetup := false;
     draftUpiSetup := None; awaitingSupportMessage := false |}.

Definition carol_request : withdrawal :=
  {| userId := 9; upi := "carol@bank"; amount := 100; requestedAt := 6;
     w_status := WPending; paidAt := None; paidBy := None;
     cancelledAt := None |}.

Definition db_one_request : db :=
  mkDb {[ 9 := carol_drafted ]} ∅ {[ 0%N := carol_request ]} [].


Definition erin : sender := mkSender 7 (Some "erin"%string) (Some "Erin"%string).

Definition erin_idle : user :=
  {| username := Some "erin"%string; first_name := Some "Erin"%string;
     referralCode := "ref_e"; balance := 100; confirmedReferrals := 0;
     createdAt := 0; badges := []; primaryUPI := None; needsUpiSetup := true;
     balanceLocked := None; lastWithdrawAt := None;
     awaitingWithdrawUPI := false; awaitingWithdrawUPIConfirm := false;
     draftWithdrawUPI := None; awaitingUpiSetup := false;
     draftUpiSetup := None; awaitingSupportMessage := false |}.

Definition db_erin_idle : db := mkDb {[ 7 := erin_idle ]} ∅ ∅ [].

(** The same account in the middle of [/setupi]. *)
Definition db_erin_in_setup : db :=
  mkDb {[ 7 := set_awaitingUpiSetup true erin_idle ]} ∅ ∅ [].

(** A referral of account 7 by itself, stored under [_id] 0, with the account
    of 7 and a later referral of 8 by 7. *)
Definition self_referred : pendingDoc :=
  {| referredId := 7; referrerId := 7; p_referralCode := "ref_e";
     p_createdAt := 10; p_status := RPending; reason := None;
     confirmedAt := None |}.

Definition referred_by_erin : pendingDoc :=
  {| referredId := 8; referrerId := 7; p_referralCode := "ref_e";
     p_createdAt := 20; p_status := RPending; reason := None;
     confirmedAt := None |}.

Definition frank_idle : user :=
  {| username := None; first_name := Some "Frank"%string;
     referralCode := "ref_f"; balance := 0; confirmedReferrals := 0;
     createdAt := 20; badges := []; primaryUPI := None; needsUpiSetup := true;
     balanceLocked := None; lastWithdrawAt := None;
     awaitingWithdrawUPI := false; awaitingWithdrawUPIConfirm := false;
     draftWithdrawUPI := None; awaitingUpiSetup := false;
     draftUpiSetup := None; awaitingSupportMessage := false |}.

Definition db_referrals : db :=
  mkDb {[ 7 := erin_idle; 8 := frank_idle ]}
       {[ 0%N := self_referred; 1%N := referred_by_erin ]} ∅ [].

(** Account 7 appears, is credited 100, drafts a withdrawal, gives a payout
    target and confirms: withdrawal 0 is pending. *)
Definition erin_requests : list update :=
  [ Start erin "/start" "ref_e" 0;
    AdminCredit admin "/admin_credit 7 100 gift"
      (Some (mkCreditArgs (Some 7) (Some 100%Q) "gift")) "ref_a" 1;
    Withdraw Command erin "ref_x" 5;
    Text erin "erin@bank" "ref_x" 6;
    Text erin "confirm" "ref_x" 7 ].

(** A second referral of account 8, by account 9. *)
Definition referred_again : pendingDoc :=
  {| referredId := 8; referrerId := 9; p_referralCode := "ref_g";
     p_createdAt := 30; p_status := RPending; reason := None;
     confirmedAt := None |}.

Definition frank : sender := mkSender 8 None (Some "Frank"%string).

(** Accounts 7 and 8 and the pending referral of 8 by 7, under [_id] 1. *)
Definition db_one_referral : db :=
  mkDb {[ 7 := erin_idle; 8 := frank_idle ]}
       {[ 1%N := referred_by_erin ]} ∅ [].

(** The administrator 1 with an account, waiting for a support message of
    its own, beside the pending request of account 9. *)
Definition admin_in_support : user :=
  {| username := None; first_name := None; referralCode := "ref_a";
     balance := 0; confirmedReferrals := 0; createdAt := 0; badges := [];
     primaryUPI := None; needsUpiSetup := true; balanceLocked := None;
     lastWithdrawAt := None; awaitingWithdrawUPI := false;
     awaitingWithdrawUPIConfirm := false; draftWithdrawUPI := None;
     awaitingUpiSetup := false; draftUpiSetup := None;
     awaitingSupportMessage := true |}.

Definition db_admin_in_support : db :=
  mkDb {[ 1 := admin_in_support; 9 := carol_drafted ]} ∅
       {[ 0%N := carol_request ]} [].

(** The same with no dialogue open for the administrator. *)
Definition db_admin_idle : db :=
  mkDb {[ 1 := set_awaitingSupportMessage false admin_in_support;
          9 := carol_drafted ]} ∅
       {[ 0%N := carol_request ]} [].

(** Two settings the code accepts: no minimum for a withdrawal, and a
    reward that is negative. *)
Definition zero_minimum_config : config :=
  {| ADMIN_IDS := [1]; CONFIRM_DELAY_HOURS := 48; MIN_WITHDRAWAL := 0;
     REFERRAL_REWARD := 1 # 2 |}.

Definition negative_reward_config : config :=
  {| ADMIN_IDS := [1]; CONFIRM_DELAY_HOURS := 48; MIN_WITHDRAWAL := 50;
     REFERRAL_REWARD := -1 |}.

(** ** Notions used by the further properties *)

(** The white-space characters that [String.prototype.trim] removes, each as
    the bytes of its UTF-8 encoding: the WhiteSpace and LineTerminator of
    ECMAScript, which are U+0009 to U+000D, U+0020, U+00A0, U+1680, U+2000 to
    U+200A, U+2028, U+2029, U+202F, U+205F, U+3000 and U+FEFF. *)
Definition white_space : list (list ascii) :=
  map (map ascii_of_nat)
    ([[9]; [10]; [11]; [12]; [13]; [32]; [194; 160]; [225; 154; 128]]
     ++ map (fun n => [226; 128; n]) (seq 128 11)
     ++ [[226; 128; 168]; [226; 128; 169]; [226; 128; 175]; [226; 129; 159];
         [227; 128; 128]; [239; 187; 191]])%nat.

(** The bytes that start the encoding of a white-space character. *)
Definition first_byte (c : ascii) : bool :=
  is_space c || byte_is 194 c || byte_is 225 c || byte_is 226 c
  || byte_is 227 c || byte_is 239 c.

(** The no-break space, U+00A0. *)
Definition nbsp : string :=
  String (ascii_of_nat 194) (String (ascii_of_nat 160) EmptyString).

(** A text made of white-space characters only. *)
Definition blank (l : list ascii) : Prop :=
  exists ts, Forall (fun t => t ∈ white_space) ts /\ l = concat ts.

(** A text that neither starts nor ends with a white-space character. *)
Definition trimmed (l : list ascii) : Prop :=
  forall t rest, t ∈ white_space -> l <> t ++ rest /\ l <> rest ++ t.

(** The text is the cancel, or the confirm, keyword of the dialogues. *)
Definition is_cancel (text : string) : Prop :=
  toLowerCase (trim text) = "cancel"%string.
Definition is_confirm (text : string) : Prop :=
  toLowerCase (trim text) = "confirm"%string.

(** No dialogue is open for the account. *)
Definition idle (u : user) : Prop :=
  awaitingUpiSetup u = false /\ awaitingWithdrawUPI u = false /\
  awaitingSupportMessage u = false.

(** The withdrawal the text handler stores on "confirm". *)
Definition request (t : Z) (upi : string) (amount : Q) (now : Z) : withdrawal :=
  {| userId := t; upi := upi; amount := amount; requestedAt := now;
     w_status := WPending; paidAt := None; paidBy := None;
     cancelledAt := None |}.

(** The account [startWithdrawFlow] leaves when it accepts, for the document
    [u] it was given and finds stored. *)
Definition drafted (now : Z) (u : user) : user :=
  let d1 :=
    set_draftWithdrawUPI None
      (set_awaitingWithdrawUPIConfirm false
         (set_lastWithdrawAt (Some now)
            (set_balanceLocked (Some (balance u))
               (set_awaitingWithdrawUPI true u)))) in
  inc_balance (- balance u)
    (if truthy (primaryUPI u)
     then set_awaitingWithdrawUPIConfirm true
            (set_draftWithdrawUPI (primaryUPI u) d1)
     else d1).

(** The account the text handler leaves when it stores a request. *)
Definition requested (upi : string) (d : user) : user :=
  set_needsUpiSetup false
    (set_primaryUPI (Some upi)
       (set_draftWithdrawUPI None
          (set_awaitingWithdrawUPIConfirm false
             (set_awaitingWithdrawUPI false d)))).

(** Account 7 with a saved payout target. *)
Definition erin_with_target : user := set_primaryUPI (Some "erin@bank"%string) erin_idle.
Definition db_erin_with_target : db := mkDb {[ 7 := erin_with_target ]} ∅ ∅ [].

(** Account 7 waiting for a support message. *)
Definition db_erin_support : db :=
  mkDb {[ 7 := set_awaitingSupportMessage true erin_idle ]} ∅ ∅ [].

Definition mallory : sender := mkSender 66 (Some "mallory"%string) None.

(** Account 7 with a drafted withdrawal to its saved target. *)
Definition erin_drafted : user := drafted 5 erin_with_target.
Definition db_erin_drafted : db := mkDb {[ 7 := erin_drafted ]} ∅ ∅ [].

Definition carol : sender := mkSender 9 None None.

(** *** What the handlers keep

    [keeps R m]: the computation [m] takes every database to one that is
    [R]-related to it, whatever it returns and also when it throws. *)
Definition keeps (R : relation db) {A} (m : M A) : Prop :=
  forall s, R s (final m s).

(** The fields no update of [bot.js] lists in a [$set], [$unset] or [$inc]. *)
Definition same_identity (u u' : user) : Prop :=
  referralCode u' = referralCode u /\ createdAt u' = createdAt u /\
  badges u' = badges u.

Definition same_request (w w' : withdrawal) : Prop :=
  userId w' = userId w /\ upi w' = upi w /\ amount w' = amount w /\
  requestedAt w' = requestedAt w.

Definition same_referral (d d' : pendingDoc) : Prop :=
  referredId d' = referredId d /\ referrerId d' = referrerId d /\
  p_referralCode d' = p_referralCode d /\ p_createdAt d' = p_createdAt d.

(** The kinds of write the handlers make outside [refs], and the one the
    confirmation job makes to [refs]: a relation that holds across each of
    them holds across every update. *)
Record writes_kept (R : relation db) : Prop := mkWritesKept {
  users_update t f s :
    (forall u, same_identity u (f u)) -> R s (with_users (alter f t) s);
  users_insert t u s :
    users s !! t = None -> find_by_code (referralCode u) (users s) = None ->
    R s (with_users (insert t u) s);
  pending_update i f s :
    (forall d, same_referral d (f d)) -> R s (with_pending (alter f i) s);
  pending_insert p s :
    R s (with_pending (insert (fresh (dom (pending s))) p) s);
  withdrawals_update i f s :
    (forall w, same_request w (f w)) -> R s (with_withdrawals (alter f i) s);
  withdrawals_insert w s :
    R s (with_withdrawals (insert (fresh (dom (withdrawals s))) w) s);
}.

Definition refs_kept (R : relation db) : Prop :=
  forall r s, R s (with_refs (fun l => l ++ [r]) s).

Definition respects (R : relation db) : Prop := writes_kept R /\ refs_kept R.

(** Nothing stored is deleted, the identifying fields of what is stored stay,
    and [refs] only grows at its end. *)
Definition history (s s' : db) : Prop :=
  (forall t u, users s !! t = Some u ->
     exists u', users s' !! t = Some u' /\ same_identity u u') /\
  (forall i w, withdrawals s !! i = Some w ->
     exists w', withdrawals s' !! i = Some w' /\ same_request w w') /\
  (forall i d, pending s !! i = Some d ->
     exists d', pending s' !! i = Some d' /\ same_referral d d') /\
  (exists l, refs s' = refs s ++ l).

(** No two accounts have the same referral code. *)
Definition codes_unique (s : db) : Prop :=
  forall t t' u u', users s !! t = Some u -> users s !! t' = Some u' ->
    referralCode u = referralCode u' -> t = t'.

(** Unique codes are not lost from [s] to [s']. *)
Definition codes_kept (s s' : db) : Prop := codes_unique s -> codes_unique s'.

(** The document [bot.start] stores for a referral. *)
Definition referral (referred referrer : Z) (code : string) (now : Z) : pendingDoc :=
  {| referredId := referred; referrerId := referrer; p_referralCode := code;
     p_createdAt := now; p_status := RPending; reason := None;
     confirmedAt := None |}.

(** The second word of a [/start] message: the payload of a deep link. *)
Definition payload_of (text : string) : string :=
  nth 1 (split_space (trim text)) EmptyString.

(** *** What a confirmation pass decides

    Whether the pass confirms the referral [p], from the accounts stored when
    it starts, and the reason it gives when it does not. *)
Definition confirms (s : db) (p : pendingDoc) : bool :=
  negb (Z.eqb (referredId p) (referrerId p))
  && bool_decide (is_Some (users s !! referredId p))
  && bool_decide (is_Some (users s !! referrerId p)).

Definition why_not (s : db) (p : pendingDoc) : invalid_reason :=
  if Z.eqb (referredId p) (referrerId p) then self_referral
  else if bool_decide (is_Some (users s !! referredId p))
       then no_referrer_record else no_user_record.

(** The update the pass makes to the stored referral it read as [p]. *)
Definition settle (s : db) (now : Z) (p : pendingDoc) : pendingDoc -> pendingDoc :=
  if confirms s p then mark_confirmed now else mark_invalid (why_not s p).

(** The record of [refs] written for the confirmed referral [p]. *)
Definition ref_of (now : Z) (p : pendingDoc) : refDoc :=
  {| r_referrerId := referrerId p; r_referredId := referredId p;
     r_referralCode := p_referralCode p; r_confirmedAt := now |}.

(** The referrals of [l] that the pass confirms, and how many of them name
    [t] as referrer. *)
Definition confirmable (s : db) (l : list (N * pendingDoc)) : list (N * pendingDoc) :=
  List.filter (fun kv => confirms s (snd kv)) l.

Definition rejected (s : db) (l : list (N * pendingDoc)) : list (N * pendingDoc) :=
  List.filter (fun kv => negb (confirms s (snd kv))) l.

Definition earned (s : db) (l : list (N * pendingDoc)) (t : Z) : nat :=
  length (List.filter (fun kv => Z.eqb (referrerId (snd kv)) t) (confirmable s l)).

(** The name [ensureUserProfile] leaves stored: the sender's, when it is not
    empty, and otherwise the stored one. *)
Definition synced_name (given stored : option string) : option string :=
  if truthy given then given else stored.

Definition synced (from : sender) (u : user) : user :=
  set_first_name (synced_name (from_first_name from) (first_name u))
    (set_username (synced_name (from_username from) (username u)) u).

(** ** The channel guard

    A document of [requiredChannels], as [/admin_addchannel] stores it: the
    [chatId] is a string.  What [getChatMember] answers is a parameter: the
    status and the [is_member] flag of the member, or [None] when the call
    throws; the identifier passed to it is determined by [chatId].  The
    texts of labels and messages are kept as their parts. *)

Record channel := mkChannel {
  chatId : string;
  title : option string;
  link : option string;
  chatType : option string;
  c_createdAt : Z;
  updatedAt : Z;
  addedBy : Z;
}.

Record member := mkMember { status : string; is_member : bool }.

Definition ALLOWED_MEMBER_STATUSES : list string :=
  [ "creator"; "administrator"; "member" ]%string.

(** [set.has(x)] *)
Definition has (l : list string) (x : string) : bool :=
  existsb (String.eqb x) l.

(** [s.includes(sub)] *)
Definition includes (sub s : string) : bool :=
  match String.index 0 sub s with Some _ => true | None => false end.

Definition buildChannelLink (c : channel) : option string :=
  if truthy (link c) then link c
  else
    match chatId c with
    | String "@" rest => Some ("https://t.me/" ++ rest)%string
    | _ => None
    end.

Definition describeChannel (c : channel) : string :=
  if truthy (title c) then default EmptyString (title c) else chatId c.

Definition channelTypePrefix (c : channel) : string :=
  let type := if truthy (chatType c) then default EmptyString (chatType c)
              else EmptyString in
  if includes "group" type then "Group"%string
  else if String.eqb type "channel" then "Channel"%string
  else "Channel"%string.

(** [`Join ${prefix} ${index + 1}`] *)
Record join_label := mkLabel { prefix_of : string; number_of : nat }.

Definition buildJoinButtonLabel (c : channel) (index : nat) : join_label :=
  mkLabel (channelTypePrefix c) (index + 1).

Inductive button := UrlButton (label : join_label) (url : string) | CheckButton.

Inductive guard_event :=
| AnswerAlert
| AccessLocked (withoutLinks : list (join_label * string)) (rows : list button).

(** What the guard knows of an update. *)
Record ctx := mkCtx {
  ctx_from : option Z;
  callbackQuery : option string;
  ctx_chat : bool;
}.

Section Guard.

Variable cfg : config.
Variable getChatMember : string -> Z -> option member.

(** The body of the loop of [collectMissingChannels]: is the channel pushed
    to [missing]? *)
Definition is_missing (userId : Z) (c : channel) : bool :=
  match getChatMember (chatId c) userId with
  | Some m =>
      if negb (has ALLOWED_MEMBER_STATUSES (status m)) then
        if String.eqb (status m) "restricted" && is_member m then false
        else true
      else false
  | None => true
  end.

Fixpoint collect_from (index : nat) (channels : list channel) (userId : Z) :
    list (channel * nat) :=
  match channels with
  | [] => []
  | c :: rest =>
      (if is_missing userId c then [(c, index)] else [])
      ++ collect_from (S index) rest userId
  end.

(** The [missing] of [collectMissingChannels], for the channels the query
    returned. *)
Definition collectMissingChannels (channels : list channel) (userId : Z) :
    list (channel * nat) :=
  collect_from 0 channels userId.

(** The loop of [enforceChannelRequirements] over [missing]. *)
Fixpoint lock_rows (missing : list (channel * nat)) :
    list (join_label * string) * list button :=
  match missing with
  | [] => ([], [])
  | (c, index) :: rest =>
      let '(withoutLinks, rows) := lock_rows rest in
      match buildChannelLink c with
      | Some l =>
          (withoutLinks, UrlButton (buildJoinButtonLabel c index) l :: rows)
      | None =>
          ((buildJoinButtonLabel c index, describeChannel c) :: withoutLinks,
           rows)
      end
  end.

Definition lock_message (missing : list (channel * nat)) : guard_event :=
  let '(withoutLinks, rows) := lock_rows missing in
  AccessLocked withoutLinks (rows ++ [CheckButton]).

(** [enforceChannelRequirements(ctx, { silent })]: what it returns and what
    it sends. *)
Definition enforceChannelRequirements (channels : list channel) (silent : bool)
    (c : ctx) : bool * list guard_event :=
  match ctx_from c with
  | None => (true, [])
  | Some id =>
      if isAdmin cfg id then (true, [])
      else if match callbackQuery c with
              | Some data => String.eqb data "CHECK_REQUIREMENTS"
              | None => false
              end then (true, [])
      else
        let missing := collectMissingChannels channels id in
        if Nat.eqb (length missing) 0 then (true, [])
        else if silent then (false, [])
        else
          (false,
           (if bool_decide (is_Some (callbackQuery c)) then [AnswerAlert] else [])
           ++ (if ctx_chat c then [lock_message missing] else []))
  end.

(** The user [userId] counts as a member of the channel. *)
Definition joined (userId : Z) (c : channel) : Prop :=
  exists m, getChatMember (chatId c) userId = Some m /\
    (status m ∈ ALLOWED_MEMBER_STATUSES \/
     (status m = "restricted"%string /\ is_member m = true)).

End Guard.

(** A required channel without a stored link, and a [getChatMember] that
    always throws. *)
Definition news_channel : channel :=
  {| chatId := "@news"; title := None; link := None;
     chatType := Some "channel"%string; c_createdAt := 1; updatedAt := 1;
     addedBy := 1 |}.

Definition no_answer (chat : string) (userId : Z) : option member := None.



(** * Properties *)

(** ** Comparisons on rationals *)

Lemma Qltb_lt x y : Qltb x y = true <-> (x < y)%Q.
Proof.
  unfold Qltb. rewrite negb_true_iff. split.
  - intros H. apply Qnot_le_lt. intros Hle.
    apply Qle_bool_iff in Hle. congruence.
  - intros H. destruct (Qle_bool y x) eqn:E; [|reflexivity].
    apply Qle_bool_iff in E. exfalso. apply (Qlt_not_le _ _ H E).
Qed.

Lemma Qltb_ge x y : Qltb x y = false <-> (y <= x)%Q.
Proof.
  unfold Qltb. rewrite negb_false_iff. apply Qle_bool_iff.
Qed.


(** ** Running the handlers *)

Lemma renamed_refl u : renamed u u.
Proof. exists (first_name u), (username u). by destruct u. Qed.

Lemma renamed_apply_update u un fn :
  renamed u (apply_update set_first_name fn (apply_update set_username un u)).
Proof.
  unfold renamed.
  destruct u as [un0 fn0 ? ? ? ? ? ? ? ? ? ? ? ? ? ? ?], un as [x|], fn as [y|]; cbn;
    [ exists (Some y), (Some x) | exists fn0, (Some x)
    | exists (Some y), un0 | exists fn0, un0 ]; reflexivity.
Qed.

(** What [ensureUserProfile] returns and leaves behind: the stored document,
    at most renamed, or a new document, or an exception and no change. *)
Lemma ensureUserProfile_run from code now s :
  exists r s' l,
    ensureUserProfile from code now s = (r, s', l) /\
    pending s' = pending s /\ withdrawals s' = withdrawals s /\
    refs s' = refs s /\
    match users s !! from_id from with
    | Some u =>
        exists u', r = Returned u' /\ renamed u u' /\
                   users s' = <[from_id from := u']> (users s)
    | None =>
        (r = Thrown /\ s' = s) \/
        (r = Returned (new_user from code now) /\
         users s' = <[from_id from := new_user from code now]> (users s))
    end.
Proof.
  unfold ensureUserProfile, bind, usersCol_findOne, get.
  destruct (users s !! from_id from) as [u|] eqn:Hu.
  - cbn. destruct (orb _ _).
    + cbn. eexists _, _, _. split; [reflexivity|]. cbn.
      repeat split; try done.
      eexists. split; [reflexivity|]. split; [apply renamed_apply_update|].
      apply map_eq. intros t. rewrite lookup_alter, lookup_insert.
      case_decide; subst; [by rewrite Hu|done].
    + eexists _, _, _. split; [reflexivity|]. repeat split; try done.
      eexists. split; [reflexivity|]. split; [apply renamed_refl|].
      by rewrite insert_id.
  - cbn. unfold usersCol_insertOne. destruct (orb _ _).
    + eexists _, _, _. split; [reflexivity|]. repeat split; try done. by left.
    + cbn. eexists _, _, _. split; [reflexivity|]. repeat split; try done.
      right. done.
Qed.

Lemma for_each_send (l : list Z) (f : Z -> message) (s : db) :
  for_each l (fun a => sendMessage a (f a)) s =
  (Returned tt, s, map (fun a => Send a (f a)) l).
Proof.
  induction l as [|a l IH]; [reflexivity|].
  cbn. unfold bind. cbn. rewrite IH. reflexivity.
Qed.

Lemma ensureUserProfile_events (from : sender) (code : string) (now : Z)
    (s : db) (e : event) :
  e ∈ events (ensureUserProfile from code now) s ->
  e = DbRead Users \/ e = DbWrite Users.
Proof.
  unfold events, ensureUserProfile, bind, usersCol_findOne, get.
  destruct (users s !! from_id from) as [u|]; cbn.
  - destruct (orb _ _); cbn; intros He;
      repeat (apply elem_of_cons in He as [->|He]; [by eauto|]);
      by apply elem_of_nil in He.
  - unfold usersCol_insertOne. destruct (orb _ _); cbn; intros He;
      repeat (apply elem_of_cons in He as [->|He]; [by eauto|]);
      by apply elem_of_nil in He.
Qed.

(** ** The text handler and what follows it *)

Section TextHandler.

Context (cfg : config).

(** The dialogues always return; they take the text exactly when a flag of
    the document is set, and otherwise do nothing. *)
Lemma dialogue_run (t : Z) (u : user) (text : string) (now : Z) (s : db) :
  exists s' ev,
    dialogue cfg t u text now s = (Returned (in_dialogue u), s', ev) /\
    (in_dialogue u = false -> s' = s /\ ev = []).
Proof.
  unfold dialogue, in_dialogue.
  repeat match goal with
         | |- context [if ?c then _ else _] => destruct c eqn:?
         end;
    cbn; unfold bind; cbn; rewrite ?for_each_send; cbn;
    eexists _, _; (split; [reflexivity|]); done.
Qed.

(** For a sender who has an account, the handler is the read of the account
    followed by the dialogue on the trimmed text and, when no dialogue takes
    the text, by the rest of the chain. *)
Lemma on_text_found (from : sender) (text code : string) (now : Z)
    (next : M unit) (s : db) (u : user) :
  users s !! from_id from = Some u ->
  on_text cfg from text code now next s =
  if in_dialogue u
  then (Returned tt, final (dialogue cfg (from_id from) u (trim text) now) s,
        DbRead Users :: events (dialogue cfg (from_id from) u (trim text) now) s)
  else let '(r, s2, ev2) := next s in (r, s2, DbRead Users :: ev2).
Proof.
  intros Hu.
  unfold on_text, try_catch, bind, usersCol_findOne, get, final, events.
  rewrite Hu. cbn.
  destruct (dialogue_run (from_id from) u (trim text) now s)
    as (s' & ev & -> & Hidle).
  destruct (in_dialogue u); cbn.
  - by rewrite !app_nil_r.
  - destruct (Hidle eq_refl) as [-> ->]. by destruct (next s) as [[r s2] ev2].
Qed.

(** For a sender without an account, the handler creates the account, or
    catches the exception of the insert, and goes on. *)
Lemma on_text_new (from : sender) (text code : string) (now : Z)
    (next : M unit) (s : db) :
  users s !! from_id from = None ->
  on_text cfg from text code now next s =
  let '(_, s1, l) := ensureUserProfile from code now s in
  let '(r, s2, ev2) := next s1 in (r, s2, DbRead Users :: l ++ ev2).
Proof.
  intros Hu.
  unfold on_text, try_catch, bind, usersCol_findOne, get.
  rewrite Hu. cbn -[ensureUserProfile dialogue].
  destruct (ensureUserProfile_run from code now s)
    as (r & s1 & l & -> & _ & _ & _ & Hcase).
  rewrite Hu in Hcase.
  destruct Hcase as [[-> ->]|[-> _]]; cbn -[ensureUserProfile dialogue].
  - destruct (next s) as [[r s2] ev2]. by rewrite !app_nil_r.
  - destruct (dialogue_run (from_id from) (new_user from code now)
                (trim text) now s1) as (s' & ev & -> & Hidle).
    destruct (Hidle eq_refl) as [-> ->]. cbn.
    destruct (next s1) as [[r s2] ev2]. by rewrite !app_nil_r.
Qed.

(** A text that is no command: the same handler with nothing after it. *)
Lemma text_returns (from : sender) (text code : string) (now : Z) (s : db) :
  exists s1 ev1, handle cfg (Text from text code now) s = (Returned tt, s1, ev1) /\
    (passed_on from s = true ->
     pending s1 = pending s /\ withdrawals s1 = withdrawals s /\
     refs s1 = refs s /\ passed_on from s1 = true).
Proof.
  cbn [handle]. unfold passed_on.
  destruct (users s !! from_id from) as [u|] eqn:Hu.
  - rewrite (on_text_found from text code now _ s u Hu).
    destruct (in_dialogue u) eqn:Hd; cbn.
    + eexists _, _. split; [reflexivity|]. done.
    + eexists _, _. split; [reflexivity|]. intros _. by rewrite Hu, Hd.
  - rewrite (on_text_new from text code now _ s Hu).
    destruct (ensureUserProfile_run from code now s)
      as (r & s1 & l & -> & Hp & Hw & Hr & Hcase).
    rewrite Hu in Hcase. cbn. eexists _, _. split; [reflexivity|].
    intros _. repeat split; try done.
    destruct Hcase as [[_ ->]|[_ Hus]]; [by rewrite Hu|].
    by rewrite Hus, lookup_insert_eq.
Qed.

(** A command registered after the text handler: the text handler on the
    message and then, when it passes the message on, the command. *)
Lemma on_text_next (from : sender) (text code : string) (now : Z)
    (next : M unit) (s : db) :
  on_text cfg from text code now next s =
  let '(_, s1, ev1) := handle cfg (Text from text code now) s in
  if passed_on from s
  then let '(r, s2, ev2) := next s1 in (r, s2, ev1 ++ ev2)
  else (Returned tt, s1, ev1).
Proof.
  cbn [handle]. unfold passed_on.
  destruct (users s !! from_id from) as [u|] eqn:Hu.
  - rewrite !(on_text_found from text code now _ s u Hu).
    destruct (in_dialogue u); cbn; [done|].
    by destruct (next s) as [[r s2] ev2].
  - rewrite !(on_text_new from text code now _ s Hu).
    destruct (ensureUserProfile from code now s) as [[r s1] l]. cbn.
    destruct (next s1) as [[r' s2] ev2]. by rewrite app_nil_r.
Qed.

Lemma final_on_text_next (from : sender) (text code : string) (now : Z)
    (next : M unit) (s : db) :
  final (on_text cfg from text code now next) s =
  if passed_on from s
  then final next (step cfg (Text from text code now) s)
  else step cfg (Text from text code now) s.
Proof.
  unfold step, final. rewrite on_text_next.
  destruct (handle cfg (Text from text code now) s) as [[r1 s1] ev1].
  cbn [fst snd]. destruct (passed_on from s); [|done].
  by destruct (next s1) as [[r s2] ev2].
Qed.

Lemma command_reached (from : sender) (text code : string) (now : Z)
    (next : M unit) (s : db) :
  passed_on from s = true ->
  on_text cfg from text code now next s =
  let '(r, s2, ev2) := next (step cfg (Text from text code now) s) in
  (r, s2, events (handle cfg (Text from text code now)) s ++ ev2).
Proof.
  intros Hpass. rewrite on_text_next, Hpass. unfold step, final, events.
  by destruct (handle cfg (Text from text code now) s) as [[r1 s1] ev1].
Qed.

Lemma command_final (from : sender) (text code : string) (now : Z)
    (next : M unit) (s : db) :
  passed_on from s = true ->
  final (on_text cfg from text code now next) s
  = final next (step cfg (Text from text code now) s).
Proof. intros Hpass. by rewrite final_on_text_next, Hpass. Qed.

Lemma command_events (from : sender) (text code : string) (now : Z)
    (next : M unit) (s : db) :
  passed_on from s = true ->
  events (on_text cfg from text code now next) s
  = events (handle cfg (Text from text code now)) s
    ++ events next (step cfg (Text from text code now) s).
Proof.
  intros Hpass. unfold events. rewrite command_reached by done.
  unfold events.
  by destruct (next (step cfg (Text from text code now) s)) as [[r s2] ev2].
Qed.

Lemma command_taken (from : sender) (text code : string) (now : Z)
    (next : M unit) (s : db) :
  passed_on from s = false ->
  on_text cfg from text code now next s
  = handle cfg (Text from text code now) s.
Proof.
  intros Hpass. rewrite on_text_next, Hpass.
  by destruct (text_returns from text code now s) as (s1 & ev1 & -> & _).
Qed.

(** The text handler on a message of a stored account with no dialogue open:
    it reads the account and does no more. *)
Lemma text_idle (from : sender) (text code : string) (now : Z) (s : db)
    (a : user) :
  users s !! from_id from = Some a -> in_dialogue a = false ->
  handle cfg (Text from text code now) s = (Returned tt, s, [DbRead Users]).
Proof.
  intros Ha Hidle. cbn [handle].
  by rewrite (on_text_found from text code now _ s a Ha), Hidle.
Qed.

End TextHandler.

(** ** The confirmation job, record by record *)

Section Engine.

Context (cfg : config).

(** The four ways the loop body ends for a document [p] read under [_id]. *)
Lemma confirm_one_run (now : Z) (i : N) (p : pendingDoc) (acc : summary)
    (s : db) :
  confirm_one cfg now (i, p) acc s =
  if Z.eqb (referredId p) (referrerId p) then
    (Returned (push_invalidated i acc),
     with_pending (alter (mark_invalid self_referral) i) s,
     [DbWrite Pending])
  else
    match users s !! referredId p with
    | None =>
        (Returned (push_invalidated i acc),
         with_pending (alter (mark_invalid no_user_record) i) s,
         [DbRead Users; DbWrite Pending])
    | Some _ =>
        match users s !! referrerId p with
        | None =>
            (Returned (push_invalidated i acc),
             with_pending (alter (mark_invalid no_referrer_record) i)
               (with_users (alter (credit_referrer cfg) (referrerId p)) s),
             [DbRead Users; DbWrite Users; DbWrite Pending])
        | Some r =>
            (Returned (push_confirmed i acc),
             with_refs (fun l => l ++
                 [{| r_referrerId := referrerId p;
                     r_referredId := referredId p;
                     r_referralCode := p_referralCode p;
                     r_confirmedAt := now |}])
               (with_pending (alter (mark_confirmed now) i)
                  (with_users (alter (credit_referrer cfg) (referrerId p)) s)),
             [DbRead Users; DbWrite Users; DbWrite Pending; DbWrite Refs;
              Send (referrerId p)
                (ReferralConfirmed (REFERRAL_REWARD cfg)
                   (balance (credit_referrer cfg r)))])
        end
    end.
Proof.
  unfold confirm_one. destruct (Z.eqb _ _); [reflexivity|].
  unfold bind, usersCol_findOne, get.
  destruct (users s !! referredId p); [|reflexivity].
  unfold usersCol_findOneAndUpdate.
  destruct (users s !! referrerId p); reflexivity.
Qed.

Lemma for_of_cons {A B} (x : A) (l : list A) (body : A -> B -> M B) (acc : B)
    (s : db) :
  for_of (x :: l) body acc s =
  match body x acc s with
  | (Returned acc1, s1, l1) =>
      let '(r, s2, l2) := for_of l body acc1 s1 in (r, s2, l1 ++ l2)
  | (Thrown, s1, l1) => (Thrown, s1, l1)
  end.
Proof. reflexivity. Qed.

(** The loop body always returns; it rewrites the document [i] of [pending]
    and either credits the referrer and reports [i] confirmed, or touches no
    account and reports [i] invalidated. *)
Lemma confirm_one_step (now : Z) (i : N) (p : pendingDoc) (acc : summary)
    (s : db) :
  exists sum' s' ev g,
    confirm_one cfg now (i, p) acc s = (Returned sum', s', ev) /\
    withdrawals s' = withdrawals s /\
    pending s' = alter g i (pending s) /\
    ((sum' = push_confirmed i acc /\
      g = mark_confirmed now /\
      referredId p <> referrerId p /\
      is_Some (users s !! referrerId p) /\
      users s' = alter (credit_referrer cfg) (referrerId p) (users s))
     \/
     (sum' = push_invalidated i acc /\
      users s' = users s /\ refs s' = refs s /\
      exists why, g = mark_invalid why /\
        (referredId p = referrerId p -> why = self_referral /\ ev = [DbWrite Pending]))).
Proof.
  rewrite confirm_one_run. destruct (Z.eqb_spec (referredId p) (referrerId p)).
  { eexists _, _, _, _. split; [reflexivity|]. cbn. repeat split.
    right. repeat split. eauto. }
  destruct (users s !! referredId p).
  2:{ eexists _, _, _, _. split; [reflexivity|]. cbn. repeat split.
      right. repeat split. eexists. split; [reflexivity|]. done. }
  destruct (users s !! referrerId p) eqn:Hr.
  - eexists _, _, _, _. split; [reflexivity|]. cbn. repeat split.
    left. repeat split; eauto.
  - eexists _, _, _, _. split; [reflexivity|]. cbn. repeat split.
    right. repeat split.
    + apply map_eq. intros t. rewrite lookup_alter. case_decide; [|done].
      subst. by rewrite Hr.
    + eexists. split; [reflexivity|]. done.
Qed.

Lemma doc_evolves_refl o : doc_evolves o o.
Proof. destruct o; cbn; done. Qed.

Lemma doc_evolves_trans o1 o2 o3 :
  doc_evolves o1 o2 -> doc_evolves o2 o3 -> doc_evolves o1 o3.
Proof.
  destruct o1, o2, o3; cbn; try done.
  intros (-> & -> & H1) (-> & -> & H2). auto.
Qed.

Lemma acct_evolves_refl o : acct_evolves cfg o o.
Proof. destruct o; cbn; [by exists 0%nat|done]. Qed.

Lemma acct_evolves_trans o1 o2 o3 :
  acct_evolves cfg o1 o2 -> acct_evolves cfg o2 o3 -> acct_evolves cfg o1 o3.
Proof.
  destruct o1, o2, o3; cbn; try done.
  intros [k1 ->] [k2 ->]. exists (k2 + k1)%nat. by rewrite Nat.iter_add.
Qed.

Lemma acct_evolves_credit (m : gmap Z user) (r t : Z) :
  acct_evolves cfg (m !! t) (alter (credit_referrer cfg) r m !! t).
Proof.
  rewrite lookup_alter. case_decide; [|apply acct_evolves_refl].
  subst. destruct (m !! t); cbn; [by exists 1%nat|done].
Qed.

Lemma doc_evolves_mark (m : gmap N pendingDoc) (i j : N) g :
  ((exists now, g = mark_confirmed now) \/ exists why, g = mark_invalid why) ->
  doc_evolves (m !! j) (alter g i m !! j).
Proof.
  intros Hg. rewrite lookup_alter. case_decide; [|apply doc_evolves_refl].
  subst. destruct (m !! j); cbn; [|done].
  destruct Hg as [[now ->]|[why ->]]; cbn; done.
Qed.

(** The loop over any list of documents: it returns, reports every [_id]
    of the list once, as confirmed or as invalidated, and changes the database
    only by marking those documents and crediting referrers. *)
Lemma confirm_loop_frame (now : Z) (l : list (N * pendingDoc)) :
  forall (acc : summary) (s : db),
  exists sum s' ev cs ns,
    for_of l (confirm_one cfg now) acc s = (Returned sum, s', ev) /\
    confirmed sum = confirmed acc ++ cs /\
    invalidated sum = invalidated acc ++ ns /\
    cs ++ ns ≡ₚ l.*1 /\
    (forall j, j ∈ cs ->
       exists q, (j, q) ∈ l /\ referredId q <> referrerId q) /\
    (forall j q, (j, q) ∈ l -> referredId q = referrerId q -> j ∈ ns) /\
    withdrawals s' = withdrawals s /\
    (forall j, j ∉ l.*1 -> pending s' !! j = pending s !! j) /\
    (forall j, doc_evolves (pending s !! j) (pending s' !! j)) /\
    (forall t, acct_evolves cfg (users s !! t) (users s' !! t)).
Proof.
  induction l as [|[i p] l IH]; intros acc s.
  - exists acc, s, [], [], []. cbn. rewrite !app_nil_r.
    repeat split; try done.
    + intros j Hj. by apply elem_of_nil in Hj.
    + intros j q Hj. by apply elem_of_nil in Hj.
    + intros j. apply doc_evolves_refl.
    + intros t. apply acct_evolves_refl.
  - destruct (confirm_one_step now i p acc s)
      as (sum1 & s1 & ev1 & g & Hrun & Hw1 & Hp1 & Hcase).
    destruct (IH sum1 s1)
      as (sum & s' & ev & cs & ns & Hloop & Hc & Hi & Hperm & Hcs & Hns
          & Hw & Hframe & Hdoc & Hacct).
    rewrite for_of_cons, Hrun, Hloop.
    assert (Hg : (exists now, g = mark_confirmed now)
                 \/ exists why, g = mark_invalid why).
    { destruct Hcase as [(_ & -> & _)|(_ & _ & _ & why & -> & _)]; eauto. }
    assert (Hdoc1 : forall j, doc_evolves (pending s !! j) (pending s1 !! j)).
    { intros j. rewrite Hp1. by apply doc_evolves_mark. }
    destruct Hcase as [(-> & _ & Hne & _ & Hu1)
                      |(-> & Hu1 & _ & why & _ & Hself)].
    + exists sum, s', (ev1 ++ ev), (i :: cs), ns.
      split; [reflexivity|]. cbn in Hc, Hi.
      split; [by rewrite Hc, <- app_assoc|]. split; [done|].
      split; [cbn; by rewrite Hperm|].
      split.
      { intros j [->|Hj]%elem_of_cons.
        - exists p. split; [left|done].
        - destruct (Hcs j Hj) as (q & Hq & Hqne). exists q.
          split; [by right|done]. }
      split.
      { intros j q [Heq|Hj]%elem_of_cons Hq.
        - injection Heq as -> ->. done.
        - eauto. }
      split; [congruence|]. split.
      { intros j Hj. cbn in Hj. apply not_elem_of_cons in Hj as [Hji Hj].
        rewrite (Hframe j Hj), Hp1. by rewrite lookup_alter_ne. }
      split.
      { intros j. eapply doc_evolves_trans; [apply Hdoc1|apply Hdoc]. }
      intros t. eapply acct_evolves_trans; [|apply Hacct].
      rewrite Hu1. apply acct_evolves_credit.
    + exists sum, s', (ev1 ++ ev), cs, (i :: ns).
      split; [reflexivity|]. cbn in Hc, Hi.
      split; [done|]. split; [by rewrite Hi, <- app_assoc|].
      split; [cbn; by rewrite <- Permutation_middle, Hperm|].
      split.
      { intros j Hj. destruct (Hcs j Hj) as (q & Hq & Hqne). exists q.
        split; [by right|done]. }
      split.
      { intros j q [Heq|Hj]%elem_of_cons Hq.
        - injection Heq as -> ->. left.
        - right. eauto. }
      split; [congruence|]. split.
      { intros j Hj. cbn in Hj. apply not_elem_of_cons in Hj as [Hji Hj].
        rewrite (Hframe j Hj), Hp1. by rewrite lookup_alter_ne. }
      split.
      { intros j. eapply doc_evolves_trans; [apply Hdoc1|apply Hdoc]. }
      intros t. eapply acct_evolves_trans; [|apply Hacct].
      rewrite Hu1. apply acct_evolves_refl.
Qed.

(** With each [_id] once in the list, every listed document that is stored
    ends up not pending, and a self-referral ends up invalid for that reason. *)
Lemma confirm_loop_marks (now : Z) (l : list (N * pendingDoc)) :
  NoDup l.*1 ->
  forall acc s sum s' ev,
    for_of l (confirm_one cfg now) acc s = (Returned sum, s', ev) ->
    forall j q d, (j, q) ∈ l -> pending s !! j = Some d ->
      exists d', pending s' !! j = Some d' /\ p_status d' <> RPending /\
        (referredId q = referrerId q -> d' = mark_invalid self_referral d).
Proof.
  induction l as [|[i p] l IH]; intros Hnd acc s sum s' ev Hloop j q d Hin Hd.
  { by apply elem_of_nil in Hin. }
  cbn in Hnd. apply NoDup_cons in Hnd as [Hi Hnd].
  destruct (confirm_one_step now i p acc s)
    as (sum1 & s1 & ev1 & g & Hrun & _ & Hp1 & Hcase).
  rewrite for_of_cons, Hrun in Hloop.
  destruct (confirm_loop_frame now l sum1 s1)
    as (sum2 & s2 & ev2 & cs & ns & Hloop2 & _ & _ & _ & _ & _ & _ & Hframe & _).
  rewrite Hloop2 in Hloop. injection Hloop as <- <- <-.
  apply elem_of_cons in Hin as [Heq|Hin].
  - injection Heq as -> ->. exists (g d).
    rewrite (Hframe i Hi), Hp1, lookup_alter_eq, Hd. split; [done|].
    destruct Hcase as [(_ & -> & Hne & _)|(_ & _ & _ & why & -> & Hself)].
    + split; [done|]. intros Heq. contradiction.
    + split; [done|]. intros Heq. by destruct (Hself Heq) as [-> _].
  - assert (Hji : j <> i).
    { intros ->. apply Hi. apply list_elem_of_fmap. by exists (i, q). }
    eapply (IH Hnd sum1 s1 _ _ _ Hloop2 j q d Hin).
    by rewrite Hp1, lookup_alter_ne.
Qed.

Lemma selected_spec (force : bool) (now : Z) (s : db) (i : N) (p : pendingDoc) :
  (i, p) ∈ selected cfg force now s <->
  pending s !! i = Some p /\ query cfg force now p = true.
Proof.
  unfold selected. rewrite list_elem_of_In, filter_In, <- list_elem_of_In.
  by rewrite elem_of_map_to_list.
Qed.

Lemma NoDup_fst_filter {A B} (f : A * B -> bool) (l : list (A * B)) :
  NoDup l.*1 -> NoDup (List.filter f l).*1.
Proof.
  induction l as [|x l IH]; cbn; [done|].
  intros [Hx Hnd]%NoDup_cons. destruct (f x); cbn; [|by apply IH].
  apply NoDup_cons. split; [|by apply IH].
  intros (y & Hy & Hin)%list_elem_of_fmap. apply Hx.
  apply list_elem_of_fmap. exists y. split; [done|].
  apply list_elem_of_In in Hin. apply filter_In in Hin as [Hin _].
  by apply list_elem_of_In.
Qed.

Lemma selected_NoDup (force : bool) (now : Z) (s : db) :
  NoDup (selected cfg force now s).*1.
Proof. apply NoDup_fst_filter, NoDup_fst_map_to_list. Qed.

Lemma confirmPendingReferrals_run (force : bool) (now : Z) (s : db) :
  confirmPendingReferrals cfg force now s =
  let '(r, s', ev) := confirm_loop cfg now (selected cfg force now s) s in
  (r, s', DbRead Pending :: ev).
Proof.
  unfold confirmPendingReferrals, bind, pendingCol_find, get, selected.
  by destruct (confirm_loop _ _ _ _) as [[[] ?] ?].
Qed.

End Engine.

(** ** Every update as a change of the ledger *)

Lemma final_bind {A B} (m : M A) (k : A -> M B) (s : db) :
  final (bind m k) s =
  match m s with
  | (Returned a, s1, _) => final (k a) s1
  | (Thrown, s1, _) => s1
  end.
Proof.
  unfold final, bind. destruct (m s) as [[[a|] s1] l1]; [|reflexivity].
  by destruct (k a s1) as [[? ?] ?].
Qed.

Lemma final_try_catch_quiet (m : M unit) (e : event) (s : db) :
  final (try_catch m (emit e)) s = final m s.
Proof.
  unfold final, try_catch. by destruct (m s) as [[[a|] s1] l1].
Qed.

Lemma final_try_catch_ret (m : M unit) (s : db) :
  final (try_catch m (ret tt)) s = final m s.
Proof.
  unfold final, try_catch. by destruct (m s) as [[[a|] s1] l1].
Qed.

Lemma final_reply (m : message) (s : db) : final (reply m) s = s.
Proof. reflexivity. Qed.

Lemma final_entered (via : entry) (m : M unit) (s : db) :
  final (entered via m) s = final m s.
Proof.
  destruct via; cbn; [apply final_try_catch_quiet|].
  by rewrite final_bind.
Qed.

Section Changes.

Context (cfg : config).

Lemma renamed_same_ledger u u' : renamed u u' -> same_ledger u u'.
Proof. intros (a & b & ->). by destruct u. Qed.

(** [ensureUserProfile] is a profile change, and what it returns is stored. *)
Lemma ensure_change (from : sender) (code : string) (now : Z) (s : db) :
  exists r s1 l,
    ensureUserProfile from code now s = (r, s1, l) /\
    ledger_change cfg Quiet s s1 /\
    pending s1 = pending s /\ refs s1 = refs s /\
    match r with
    | Returned u1 => users s1 !! from_id from = Some u1
    | Thrown => True
    end.
Proof.
  destruct (ensureUserProfile_run from code now s)
    as (r & s1 & l & Hrun & Hp & Hw & Hr & Hus).
  exists r, s1, l. split; [done|].
  destruct (users s !! from_id from) as [u|] eqn:Hu.
  - destruct Hus as (u' & -> & Hren & Hus). repeat split; try done.
    + eapply lc_profile; eauto using renamed_same_ledger.
    + by rewrite Hus, lookup_insert_eq.
  - destruct Hus as [[-> ->]|[-> Hus]].
    + repeat split; try done. by apply lc_same.
    + repeat split; try done.
      * eapply lc_new; eauto; reflexivity.
      * by rewrite Hus, lookup_insert_eq.
Qed.

(** An update of one document that keeps its ledger fields. *)
Lemma alter_profile (f : user -> user) (t : Z) (s : db) :
  (forall d, same_ledger d (f d)) ->
  ledger_change cfg Quiet s (with_users (alter f t) s).
Proof.
  intros Hf. destruct (users s !! t) as [u|] eqn:Hu.
  - eapply (lc_profile _ _ _ t u (f u)); eauto. cbn.
    apply map_eq. intros t'. rewrite lookup_alter, lookup_insert.
    case_decide; subst; [by rewrite Hu|done].
  - apply lc_same; [|done]. cbn. apply map_eq. intros t'.
    rewrite lookup_alter. case_decide; subst; [by rewrite Hu|done].
Qed.

Lemma alter_stored (f : user -> user) (t : Z) (u : user) (m : gmap Z user) :
  m !! t = Some u -> alter f t m = <[t := f u]> m.
Proof.
  intros Hu. apply map_eq. intros t'. rewrite lookup_alter, lookup_insert.
  case_decide; subst; [by rewrite Hu|done].
Qed.

Lemma startWithdrawFlow_change (t : Z) (u : user) (now : Z) (s : db) :
  users s !! t = Some u ->
  ledger_change cfg Quiet s (final (startWithdrawFlow cfg t u now) s).
Proof.
  intros Hu. unfold startWithdrawFlow, final.
  destruct (match balanceLocked u with
            | Some l => Qltb 0 l | None => false end) eqn:Hg.
  { by apply lc_same. }
  destruct (Qltb (balance u) (MIN_WITHDRAWAL cfg)) eqn:Hmin.
  { by apply lc_same. }
  cbn. eapply (lc_lock _ _ _ t u);
    [done| | | | |
    |cbn; rewrite (alter_stored _ _ _ _ Hu); reflexivity|done].
  - intros l Hl. rewrite Hl in Hg. apply Qltb_ge in Hg.
    by apply Qle_not_lt.
  - by apply Qltb_ge.
  - by destruct (truthy (primaryUPI u)).
  - by destruct (truthy (primaryUPI u)).
  - by destruct (truthy (primaryUPI u)).
Qed.

Lemma dialogue_change (t : Z) (u : user) (text : string) (now : Z) (s : db) :
  users s !! t = Some u ->
  ledger_change cfg Quiet s (final (dialogue cfg t u text now) s).
Proof.
  intros Hu. unfold dialogue.
  repeat match goal with
         | |- context [if ?c then _ else _] => destruct c eqn:?
         end;
    unfold final; cbn; unfold bind; rewrite ?for_each_send; cbn;
    try (by apply lc_same);
    try (apply alter_profile; intros d; by destruct d).
  - eapply (lc_unlock _ _ _ t u);
      [done|done| | |
      |cbn; rewrite (alter_stored _ _ _ _ Hu); reflexivity|done]; done.
  - eapply (lc_request _ _ _ t u);
      [done|done| | | | | |
      |cbn; rewrite (alter_stored _ _ _ _ Hu); reflexivity
      |cbn; reflexivity]; done.
Qed.

Lemma pay_change (from : sender) (text : string) (arg : id_arg)
    (code : string) (now : Z) (s0 s : db) :
  passed_on from s0 = true -> withdrawals s = withdrawals s0 ->
  ledger_change cfg (kind_of cfg (Pay from text arg code now) s0) s
    (final (on_pay cfg from arg now) s).
Proof.
  intros Hpass Hws. unfold kind_of, settles, on_pay, final.
  rewrite Hpass, <- Hws.
  destruct (isAdmin cfg (from_id from)); cbn; [|by apply lc_same].
  destruct arg as [| |i]; cbn; try (by apply lc_same).
  unfold bind, withdrawalsCol_findOne_pending, get.
  destruct (withdrawals s !! i) as [w|] eqn:Hw; cbn; [|by apply lc_same].
  destruct (w_status w) eqn:Hs; cbn; try (by apply lc_same).
  eapply (lc_pay _ _ _ i w); [done|done| |cbn|cbn; reflexivity].
  2:{ apply map_eq. intros j. rewrite lookup_alter, lookup_insert.
      case_decide; subst; [by rewrite Hw|done]. }
  done.
Qed.

Lemma cancelwithdraw_change (from : sender) (arg : id_arg) (now : Z) (s : db) :
  ledger_change cfg Quiet s (final (on_cancelwithdraw cfg from arg now) s).
Proof.
  unfold on_cancelwithdraw, final.
  destruct (isAdmin cfg (from_id from)); cbn; [|by apply lc_same].
  destruct arg as [| |i]; cbn; try (by apply lc_same).
  unfold bind, withdrawalsCol_findOne_pending, get.
  destruct (withdrawals s !! i) as [w|] eqn:Hw; cbn; [|by apply lc_same].
  destruct (w_status w) eqn:Hs; cbn; try (by apply lc_same).
  eapply (lc_refund _ _ _ i w); [done|done| |cbn|cbn; reflexivity].
  2:{ apply map_eq. intros j. rewrite lookup_alter, lookup_insert.
      case_decide; subst; [by rewrite Hw|done]. }
  done.
Qed.

Lemma admin_credit_change (from : sender) (text : string)
    (args : option credit_args) (code : string) (now : Z) (s0 s : db) :
  ledger_change cfg (kind_of cfg (AdminCredit from text args code now) s0) s
    (final (on_admin_credit cfg from args) s).
Proof.
  unfold kind_of, settles, on_admin_credit, final.
  destruct (isAdmin cfg (from_id from)); cbn; [|by apply lc_same].
  destruct args as [a|]; cbn; [|by apply lc_same].
  destruct (targetId a) as [t|]; cbn; [|by apply lc_same].
  destruct (credit_amount a) as [q|]; cbn; [|by apply lc_same].
  destruct (Qeq_bool q 0) eqn:Hz; cbn; [by apply lc_same|].
  unfold bind, usersCol_findOne, get.
  destruct (users s !! t) as [u|] eqn:Hu; cbn; [|by apply lc_same].
  eapply (lc_credit _ _ _ t q); [|reflexivity|reflexivity].
  intros Hq. apply Qeq_bool_iff in Hq. congruence.
Qed.

Lemma pass_change (force : bool) (now : Z) (s : db) :
  ledger_change cfg Quiet s (final (confirmPendingReferrals cfg force now) s) /\
  exists sum, value (confirmPendingReferrals cfg force now) s = Returned sum.
Proof.
  unfold final, value. rewrite confirmPendingReferrals_run. unfold confirm_loop.
  destruct (confirm_loop_frame cfg now (selected cfg force now s)
              (mkSummary [] []) s)
    as (sum & s' & ev & cs & ns & -> & _ & _ & _ & _ & _ & Hw & _ & _ & Hacct).
  cbn. split; [by apply lc_referrals|eauto].
Qed.

(** What the referral block of [bot.start] does to the database: nothing, or
    one new pending document under a fresh [_id], for a sender that no stored
    referral, pending or confirmed, names as referred. *)
Lemma register_referral_run (t : Z) (payload : string) (now : Z) (s : db) :
  exists r ev, register_referral t payload now s = (Returned r, final (register_referral t payload now) s, ev) /\
  users (final (register_referral t payload now) s) = users s /\
  withdrawals (final (register_referral t payload now) s) = withdrawals s /\
  refs (final (register_referral t payload now) s) = refs s /\
  (pending (final (register_referral t payload now) s) = pending s /\
   (forall e, e ∈ ev -> exists c, e = DbRead c)
   \/
   exists p, find_by_referred t (pending s) = None /\
     find_ref t (refs s) = None /\
     referredId p = t /\ p_status p = RPending /\
     pending (final (register_referral t payload now) s)
       = <[fresh (dom (pending s)) := p]> (pending s)).
Proof.
  unfold final, register_referral.
  destruct (String.prefix "ref_" payload).
  2:{ eexists _, _. split; [reflexivity|]. cbn. repeat split.
      left. split; [done|]. intros e He. by apply elem_of_nil in He. }
  unfold bind, usersCol_findOne_referralCode, get.
  destruct (find_by_code payload (users s)) as [[rt ru]|].
  2:{ eexists _, _. split; [reflexivity|]. cbn. repeat split.
      left. split; [done|]. intros e [->|He]%elem_of_cons; [eauto|].
      by apply elem_of_nil in He. }
  destruct (negb (rt =? t)).
  2:{ eexists _, _. split; [reflexivity|]. cbn. repeat split.
      left. split; [done|]. intros e [->|He]%elem_of_cons; [eauto|].
      by apply elem_of_nil in He. }
  unfold pendingCol_findOne_referredId, refsCol_findOne_referredId, get.
  destruct (find_by_referred t (pending s)) eqn:Hp; cbn.
  { try (rewrite bool_decide_true by eauto); cbn.
    eexists _, _. split; [reflexivity|]. cbn. repeat split.
    left. split; [done|]. intros e He.
    repeat (apply elem_of_cons in He as [->|He]; [eauto|]).
    by apply elem_of_nil in He. }
  try (rewrite bool_decide_false by (by intros [? ?])); cbn.
  destruct (find_ref t (refs s)) eqn:Hr; cbn.
  { try (rewrite bool_decide_true by eauto); cbn.
    eexists _, _. split; [reflexivity|]. cbn. repeat split.
    left. split; [done|]. intros e He.
    repeat (apply elem_of_cons in He as [->|He]; [eauto|]).
    by apply elem_of_nil in He. }
  try (rewrite bool_decide_false by (by intros [? ?])); cbn.
  unfold pendingCol_insertOne. cbn.
  eexists _, _. split; [reflexivity|]. repeat split.
  right. eexists. repeat split; try done.
Qed.

(** A text that is no command: the account is created, or a dialogue takes
    the text, or nothing happens. *)
Lemma text_change (from : sender) (text code : string) (now : Z) (s : db) :
  ledger_change cfg Quiet s (step cfg (Text from text code now) s).
Proof.
  unfold step, final. cbn [handle].
  destruct (users s !! from_id from) as [u|] eqn:Hu.
  - rewrite (on_text_found cfg from text code now _ s u Hu).
    destruct (in_dialogue u); cbn; [|by apply lc_same].
    by apply dialogue_change.
  - rewrite (on_text_new cfg from text code now _ s Hu).
    destruct (ensure_change from code now s)
      as (r & s1 & l & -> & Hch & _). cbn. exact Hch.
Qed.

Lemma text_keeps (from : sender) (text code : string) (now : Z) (s : db) :
  passed_on from s = true ->
  pending (step cfg (Text from text code now) s) = pending s /\
  withdrawals (step cfg (Text from text code now) s) = withdrawals s /\
  refs (step cfg (Text from text code now) s) = refs s /\
  passed_on from (step cfg (Text from text code now) s) = true.
Proof.
  intros Hpass. unfold step, final.
  destruct (text_returns cfg from text code now s) as (s1 & ev1 & -> & H).
  by apply H.
Qed.

(** The text handler on a message it passes on: for a stored account it
    reads the account and does no more; for an identity without an account it
    creates the account at most. *)
Lemma text_passed (from : sender) (text code : string) (now : Z) (s : db) :
  passed_on from s = true ->
  (forall d, users s !! from_id from = Some d ->
     step cfg (Text from text code now) s = s /\
     events (handle cfg (Text from text code now)) s = [DbRead Users]) /\
  (forall e, e ∈ events (handle cfg (Text from text code now)) s ->
     e = DbRead Users \/ e = DbWrite Users) /\
  (forall t u, users s !! t = Some u ->
     users (step cfg (Text from text code now) s) !! t = Some u).
Proof.
  intros Hpass. unfold passed_on in Hpass. unfold step, final, events.
  destruct (users s !! from_id from) as [a|] eqn:Ha.
  - apply negb_true_iff in Hpass.
    rewrite (text_idle cfg from text code now s a Ha Hpass). cbn.
    split; [done|]. split; [|done].
    intros e ->%list_elem_of_singleton. by left.
  - cbn [handle]. rewrite (on_text_new cfg from text code now _ s Ha).
    pose proof (ensureUserProfile_events from code now s) as Hev.
    unfold events in Hev.
    destruct (ensureUserProfile_run from code now s)
      as (r & s1 & l & Hrun & _ & _ & _ & Hcase).
    rewrite Hrun in Hev |- *. rewrite Ha in Hcase. cbn in *.
    split; [done|]. split.
    + intros e [->|He]%elem_of_cons; [by left|].
      rewrite app_nil_r in He. by apply Hev.
    + intros t u Ht. destruct Hcase as [[_ ->]|[_ ->]]; [done|].
      rewrite lookup_insert_ne; [done|]. congruence.
Qed.

(** A command registered after the text handler: the change the text
    handler makes, then the change of the command when it is reached. *)
Lemma command_changes (from : sender) (text code : string) (now : Z)
    (next : M unit) (k : kind) (s : db) :
  (forall s1, passed_on from s = true -> withdrawals s1 = withdrawals s ->
     ledger_change cfg k s1 (final next s1)) ->
  exists s1, ledger_change cfg Quiet s s1 /\
    ledger_change cfg k s1 (final (on_text cfg from text code now next) s).
Proof.
  intros Hnext. exists (step cfg (Text from text code now) s).
  split; [apply text_change|]. rewrite final_on_text_next.
  destruct (passed_on from s) eqn:Hpass; [|by apply lc_same].
  apply Hnext; [done|]. by apply text_keeps.
Qed.

Lemma admin_confirm_change (from : sender) (text : string) (now : Z) (s : db) :
  ledger_change cfg Quiet s (final (on_admin_confirm cfg from text now) s).
Proof.
  unfold on_admin_confirm.
  destruct (isAdmin cfg (from_id from)); cbn; [|by apply lc_same].
  rewrite final_bind.
  destruct (pass_change (includes_force (toLowerCase text)) now s)
    as [Hch [sum Hv]].
  unfold value, final in *.
  destruct (confirmPendingReferrals cfg _ now s) as [[r s'] ev].
  cbn in *. subst r. done.
Qed.

Lemma step_changes (u : update) (s : db) :
  exists s1, ledger_change cfg Quiet s s1 /\
             ledger_change cfg (kind_of cfg u s) s1 (step cfg u s).
Proof.
  unfold step. destruct u as [from text code now|k via from code now
    |via from code now|via from code now|from text code now|from
    |from text arg code now|from text arg code now|from text code now
    |from now|from text args code now|now].
  - (* Start *)
    cbn. unfold on_start. rewrite final_try_catch_ret, final_bind.
    destruct (ensure_change from code now s)
      as (r & s1 & l & -> & Hch & _ & _ & Hu1).
    exists s1. split; [done|]. destruct r as [u1|]; [|by apply lc_same].
    rewrite final_bind.
    destruct (register_referral_run (from_id from)
                (nth 1 (split_space (trim text)) EmptyString) now s1)
      as (r & ev & -> & Hus & Hws & _).
    by apply lc_same.
  - (* Lookup *)
    cbn. unfold on_lookup. rewrite final_entered.
    destruct (ensure_change from code now s)
      as (r & s1 & l & Hrun & Hch & _ & _ & Hu1).
    exists s1. split; [done|].
    destruct k; unfold replyBalance, replyProfile, replyStatus;
      rewrite final_bind, Hrun; destruct r; by apply lc_same.
  - (* Setupi *)
    cbn. unfold on_setupi. rewrite final_entered, final_bind.
    destruct (ensure_change from code now s)
      as (r & s1 & l & -> & Hch & _ & _ & Hu1).
    exists s1. split; [done|]. destruct r as [u1|]; [|by apply lc_same].
    unfold startUpiSetup, final. cbn.
    apply alter_profile. intros d. by destruct d.
  - (* Withdraw *)
    cbn. unfold on_withdraw. rewrite final_entered, final_bind.
    destruct (ensure_change from code now s)
      as (r & s1 & l & -> & Hch & _ & _ & Hu1).
    exists s1. split; [done|]. destruct r as [u1|]; [|by apply lc_same].
    by apply startWithdrawFlow_change.
  - (* Text *)
    exists s. split; [by apply lc_same|]. apply text_change.
  - (* Support *)
    exists s. split; [by apply lc_same|]. unfold final. cbn.
    apply alter_profile. intros d. by destruct d.
  - (* Pay *)
    apply command_changes. intros s1 Hpass Hws. by apply pay_change.
  - (* CancelWithdraw *)
    apply command_changes. intros s1 _ _. apply cancelwithdraw_change.
  - (* AdminConfirm *)
    apply command_changes. intros s1 _ _. apply admin_confirm_change.
  - (* AdminConfirmButton *)
    exists s. split; [by apply lc_same|]. cbn. unfold on_admin_confirm_button.
    rewrite final_bind. cbn.
    destruct (isAdmin cfg (from_id from)); cbn; [|by apply lc_same].
    rewrite final_bind.
    destruct (pass_change true now s) as [Hch [sum Hv]].
    unfold value, final in *.
    destruct (confirmPendingReferrals cfg _ now s) as [[r s'] ev].
    cbn in *. subst r. done.
  - (* AdminCredit *)
    apply command_changes. intros s1 _ _. apply admin_credit_change.
  - (* Sweep *)
    exists s. split; [by apply lc_same|]. cbn. unfold on_sweep.
    rewrite final_bind.
    destruct (pass_change false now s) as [Hch [sum Hv]].
    unfold value, final in *.
    destruct (confirmPendingReferrals cfg _ now s) as [[r s'] ev].
    cbn in *. subst r. done.
Qed.

End Changes.

(** ** Amounts stay non-negative, negative credits apart *)

Section NonNegative.

Context (cfg : config).
Hypothesis reward_nonneg : (0 <= REFERRAL_REWARD cfg)%Q.

Lemma same_ledger_nonneg u u' :
  same_ledger u u' -> acct_nonneg u -> acct_nonneg u'.
Proof. intros (Hb & Hl & _) [H1 H2]. split; [by rewrite Hb|by rewrite Hl]. Qed.

Lemma credits_nonneg (k : nat) (u : user) :
  acct_nonneg u -> acct_nonneg (Nat.iter k (credit_referrer cfg) u).
Proof.
  intros Hu. induction k as [|k IH]; [done|].
  rewrite Nat.iter_succ. destruct IH as [H1 H2].
  split; [cbn; lra|exact H2].
Qed.

Lemma insert_forall {V} (P : V -> Prop) (m : gmap Z V) (t : Z) (v : V) :
  (forall t0 u0, m !! t0 = Some u0 -> P u0) -> P v ->
  forall t0 u0, <[t := v]> m !! t0 = Some u0 -> P u0.
Proof.
  intros Hm Hv t0 u0. rewrite lookup_insert. case_decide.
  - by intros [= <-].
  - apply Hm.
Qed.

Lemma alter_forall {V} (P : V -> Prop) (m : gmap Z V) (t : Z) (f : V -> V) :
  (forall t0 u0, m !! t0 = Some u0 -> P u0) ->
  (forall u, m !! t = Some u -> P (f u)) ->
  forall t0 u0, alter f t m !! t0 = Some u0 -> P u0.
Proof.
  intros Hm Hf t0 u0. rewrite lookup_alter. case_decide.
  - subst. destruct (m !! t0) eqn:E; cbn; [|done]. intros [= <-]. eauto.
  - apply Hm.
Qed.

Lemma nonneg_change (k : kind) (s s' : db) :
  ledger_nonneg s -> ledger_change cfg k s s' ->
  (forall q, k = Credit q -> (0 <= q)%Q) ->
  ledger_nonneg s'.
Proof.
  intros [Hu Hw] Hch Hk.
  destruct Hch as [k s s' Hus Hws
    |s s' t u u' Ht Hl Hus Hws
    |s s' t u' Ht Hb Hl Ha Hus Hws
    |s s' t u u' Ht Hnl Hmin Hb Hl Ha Hus Hws
    |s s' t u u' Ht Ha Hb Hl Ha' Hus Hws
    |s s' t u u' w Ht Ha Hb Hl Ha' Hwu Hwa Hwp Hus Hws
    |s s' i w w' Hi Hp Hp' Hws Hus
    |s s' i w w' Hi Hp Hp' Hws Hus
    |s s' t q Hq Hus Hws
    |s s' Hacct Hws]; split; rewrite ?Hus, ?Hws; try done.
  - apply insert_forall; [done|]. eapply same_ledger_nonneg; eauto.
  - apply insert_forall; [done|]. split; [by rewrite Hb|by rewrite Hl].
  - apply insert_forall; [done|]. destruct (Hu t u Ht) as [H0 _].
    split; [rewrite Hb; lra|]. rewrite Hl. by intros l [= <-].
  - apply insert_forall; [done|]. destruct (Hu t u Ht) as [H0 H1].
    split; [|by rewrite Hl]. rewrite Hb.
    destruct (balanceLocked u) as [l|]; cbn; [|lra].
    specialize (H1 l eq_refl). lra.
  - apply insert_forall; [done|]. destruct (Hu t u Ht) as [H0 H1].
    split; [by rewrite Hb|by rewrite Hl].
  - intros i w0. rewrite lookup_insert. case_decide; [|apply Hw].
    intros [= <-] _. rewrite Hwa. destruct (Hu t u Ht) as [_ H1].
    destruct (balanceLocked u) as [l|]; cbn; [by apply H1|lra].
  - apply alter_forall; [done|]. intros u Hu0.
    destruct (Hu _ u Hu0) as [H0 _]. by split.
  - intros j w0. rewrite lookup_insert. case_decide; [|apply Hw].
    intros [= <-]. congruence.
  - apply alter_forall; [done|]. intros u Hu0.
    destruct (Hu _ u Hu0) as [H0 _]. specialize (Hw i w Hi Hp).
    split; [cbn; lra|done].
  - intros j w0. rewrite lookup_insert. case_decide; [|apply Hw].
    intros [= <-]. congruence.
  - apply alter_forall; [done|]. intros u Hu0.
    destruct (Hu _ u Hu0) as [H0 H1]. specialize (Hk q eq_refl).
    split; [cbn; lra|done].
  - intros t u' Hu'. specialize (Hacct t). rewrite Hu' in Hacct.
    destruct (users s !! t) as [u|] eqn:E; cbn in Hacct; [|done].
    destruct Hacct as [n ->]. apply credits_nonneg. eauto.
Qed.

Lemma kind_credit_nonneg (u : update) (s : db) (q : Q) :
  negative_credit u = false -> kind_of cfg u s = Credit q -> (0 <= q)%Q.
Proof.
  unfold kind_of, negative_credit. destruct (settles cfg u s); [done|].
  destruct u; try done. destruct args as [a|]; [|done].
  destruct (credit_amount a) as [q'|]; [|done].
  intros Hn [= <-]. by apply Qltb_ge.
Qed.

Lemma nonneg_step (u : update) (s : db) :
  negative_credit u = false -> ledger_nonneg s -> ledger_nonneg (step cfg u s).
Proof.
  intros Hn Hs. destruct (step_changes cfg u s) as (s1 & H1 & H2).
  eapply nonneg_change; [|exact H2|].
  - eapply nonneg_change; [exact Hs|exact H1|done].
  - intros q Hq. by eapply kind_credit_nonneg.
Qed.

End NonNegative.

(** ** Locked amounts and pending withdrawals *)

Section Locks.

Context (cfg : config).
Hypothesis min_positive : (0 < MIN_WITHDRAWAL cfg)%Q.

Lemma credits_same_ledger_fields (k : nat) (u : user) :
  balanceLocked (Nat.iter k (credit_referrer cfg) u) = balanceLocked u /\
  awaitingWithdrawUPI (Nat.iter k (credit_referrer cfg) u)
    = awaitingWithdrawUPI u.
Proof.
  induction k as [|k IH]; [done|]. rewrite Nat.iter_succ. exact IH.
Qed.

Lemma locks_empty : locks_consistent empty_db.
Proof.
  split; [|split].
  - intros i w Hw. change (withdrawals empty_db) with (∅ : gmap N withdrawal) in Hw.
    by rewrite lookup_empty in Hw.
  - intros i j w w' Hw. change (withdrawals empty_db) with (∅ : gmap N withdrawal) in Hw.
    by rewrite lookup_empty in Hw.
  - intros t u Hu. change (users empty_db) with (∅ : gmap Z user) in Hu.
    by rewrite lookup_empty in Hu.
Qed.

(** A change of the documents of [users] that keeps, for every account, the
    locked amount and the drafting flag, and leaves [withdrawals] alone. *)
Lemma locks_same_fields (s s' : db) :
  locks_consistent s ->
  withdrawals s' = withdrawals s ->
  (forall t u', users s' !! t = Some u' ->
     exists u, users s !! t = Some u /\
       balanceLocked u' = balanceLocked u /\
       awaitingWithdrawUPI u' = awaitingWithdrawUPI u) ->
  (forall t u, users s !! t = Some u -> is_Some (users s' !! t)) ->
  locks_consistent s'.
Proof.
  intros (J1 & J2 & J3) Hw Hback Hfwd. split; [|split].
  - intros i w Hi Hp. rewrite Hw in Hi.
    destruct (J1 i w Hi Hp) as (u & Hu & Hl & Ha & Hd).
    destruct (Hfwd _ u Hu) as [u' Hu'].
    destruct (Hback _ u' Hu') as (u0 & Hu0 & Hl' & Hd').
    assert (u0 = u) as -> by congruence.
    exists u'. repeat split; congruence.
  - rewrite Hw. exact J2.
  - intros t u' Hu' Hd'.
    destruct (Hback _ u' Hu') as (u & Hu & Hl & Hd).
    rewrite Hl. apply (J3 t u Hu). congruence.
Qed.

Lemma locks_change (k : kind) (s s' : db) :
  locks_consistent s -> ledger_change cfg k s s' -> locks_consistent s'.
Proof.
  intros HJ Hch. pose proof HJ as (J1 & J2 & J3).
  destruct Hch as [k s s' Hus Hws
    |s s' t u u' Ht Hl Hus Hws
    |s s' t u' Ht Hb Hl Ha Hus Hws
    |s s' t u u' Ht Hnl Hmin Hb Hl Ha Hus Hws
    |s s' t u u' Ht Ha Hb Hl Ha' Hus Hws
    |s s' t u u' w Ht Ha Hb Hl Ha' Hwu Hwa Hwp Hus Hws
    |s s' i w w' Hi Hp Hp' Hws Hus
    |s s' i w w' Hi Hp Hp' Hws Hus
    |s s' t q Hq Hus Hws
    |s s' Hacct Hws].
  - (* same *)
    apply (locks_same_fields s); [done|done| |]; rewrite Hus; eauto.
  - (* profile *)
    destruct Hl as (_ & Hl & Hd).
    apply (locks_same_fields s); [done|done| |]; rewrite Hus.
    + intros t0 u0. rewrite lookup_insert. case_decide; [|eauto].
      subst. intros [= <-]. eauto.
    + intros t0 u0 Hu0. rewrite lookup_insert. case_decide; eauto.
  - (* new *)
    split; [|split].
    + intros i w Hi Hp. rewrite Hws in Hi.
      destruct (J1 i w Hi Hp) as (u & Hu & Hrest).
      exists u. split; [|done]. rewrite Hus, lookup_insert_ne; [done|].
      intros Heq. congruence.
    + rewrite Hws. exact J2.
    + rewrite Hus. apply insert_forall; [exact J3|].
      intros Hd. congruence.
  - (* lock *)
    split; [|split].
    + intros i w Hi Hp. rewrite Hws in Hi.
      destruct (J1 i w Hi Hp) as (u0 & Hu0 & Hl0 & Ha0 & Hd0).
      exists u0. split; [|done]. rewrite Hus, lookup_insert_ne; [done|].
      intros Heq. rewrite <- Heq in Hu0.
      assert (u0 = u) as -> by congruence.
      exact (Hnl _ Hl0 Ha0).
    + rewrite Hws. exact J2.
    + rewrite Hus. apply insert_forall; [exact J3|]. intros _.
      exists (balance u). split; [done|].
      eapply Qlt_le_trans; [exact min_positive|exact Hmin].
  - (* unlock *)
    split; [|split].
    + intros i w Hi Hp. rewrite Hws in Hi.
      destruct (J1 i w Hi Hp) as (u0 & Hu0 & Hl0 & Ha0 & Hd0).
      exists u0. split; [|done]. rewrite Hus, lookup_insert_ne; [done|].
      intros Heq. congruence.
    + rewrite Hws. exact J2.
    + rewrite Hus. apply insert_forall; [exact J3|].
      intros Hd. congruence.
  - (* request *)
    destruct (J3 t u Ht Ha) as (a & Hla & Hapos).
    assert (Hfresh : withdrawals s !! fresh (dom (withdrawals s)) = None).
    { apply not_elem_of_dom. apply is_fresh. }
    assert (Hnone : forall j w0, withdrawals s !! j = Some w0 ->
              w_status w0 = WPending -> userId w0 <> t).
    { intros j w0 Hj Hp0 Heq.
      destruct (J1 j w0 Hj Hp0) as (u0 & Hu0 & _ & _ & Hd0). congruence. }
    split; [|split].
    + intros i w0. rewrite Hws, lookup_insert. case_decide.
      * intros [= <-] _. exists u'. rewrite Hwu, Hus, lookup_insert_eq.
        split; [done|]. rewrite Hwa, Hl, Hla. cbn. done.
      * intros Hi Hp0.
        destruct (J1 i w0 Hi Hp0) as (u0 & Hu0 & Hrest).
        exists u0. split; [|done]. rewrite Hus, lookup_insert_ne; [done|].
        intros Heq. by apply (Hnone i w0 Hi Hp0).
    + intros i j w1 w2. rewrite Hws, !lookup_insert.
      repeat case_decide; subst; try done.
      * intros [= <-] Hj _ Hp2 Heq. exfalso.
        apply (Hnone j w2 Hj Hp2). congruence.
      * intros Hi [= <-] Hp1 _ Heq. exfalso.
        apply (Hnone i w1 Hi Hp1). congruence.
      * apply J2.
    + rewrite Hus. apply insert_forall; [exact J3|].
      intros Hd. congruence.
  - (* pay *)
    destruct (J1 i w Hi Hp) as (u & Hu & Hlu & Hau & Hdu).
    split; [|split].
    + intros j w0. rewrite Hws, lookup_insert. case_decide.
      * intros [= <-]. congruence.
      * intros Hj Hp0.
        destruct (J1 j w0 Hj Hp0) as (u0 & Hu0 & Hrest).
        exists u0. split; [|done]. rewrite Hus, lookup_alter_ne; [done|].
        intros Heq. apply H. by apply (J2 i j w w0).
    + intros j1 j2 w1 w2. rewrite Hws, !lookup_insert.
      repeat case_decide; subst; try done; try (intros [= <-]; congruence).
      * intros _ [= <-]. congruence.
      * apply J2.
    + rewrite Hus. apply alter_forall; [exact J3|].
      intros u0 Hu0. assert (u0 = u) as -> by congruence.
      intros Hd. cbn in Hd. congruence.
  - (* refund *)
    destruct (J1 i w Hi Hp) as (u & Hu & Hlu & Hau & Hdu).
    split; [|split].
    + intros j w0. rewrite Hws, lookup_insert. case_decide.
      * intros [= <-]. congruence.
      * intros Hj Hp0.
        destruct (J1 j w0 Hj Hp0) as (u0 & Hu0 & Hrest).
        exists u0. split; [|done]. rewrite Hus, lookup_alter_ne; [done|].
        intros Heq. apply H. by apply (J2 i j w w0).
    + intros j1 j2 w1 w2. rewrite Hws, !lookup_insert.
      repeat case_decide; subst; try done; try (intros [= <-]; congruence).
      * intros _ [= <-]. congruence.
      * apply J2.
    + rewrite Hus. apply alter_forall; [exact J3|].
      intros u0 Hu0. assert (u0 = u) as -> by congruence.
      intros Hd. cbn in Hd. congruence.
  - (* credit *)
    apply (locks_same_fields s); [done|done| |]; rewrite Hus.
    + intros t0 u0. rewrite lookup_alter. case_decide; [|eauto].
      subst. destruct (users s !! t0) as [u|]; cbn; [|done].
      intros [= <-]. eauto.
    + intros t0 u0 Hu0. rewrite lookup_alter. case_decide; subst;
        rewrite ?Hu0; cbn; eauto.
  - (* referrals *)
    apply (locks_same_fields s); [done|done| |].
    + intros t u' Hu'. specialize (Hacct t). rewrite Hu' in Hacct.
      destruct (users s !! t) as [u|]; cbn in Hacct; [|done].
      destruct Hacct as [n ->]. exists u. split; [done|].
      apply credits_same_ledger_fields.
    + intros t u Hu. specialize (Hacct t). rewrite Hu in Hacct.
      destruct (users s' !! t); cbn in Hacct; [eauto|done].
Qed.

Lemma locks_step (u : update) (s : db) :
  locks_consistent s -> locks_consistent (step cfg u s).
Proof.
  intros Hs. destruct (step_changes cfg u s) as (s1 & H1 & H2).
  eapply locks_change; [|exact H2]. eapply locks_change; [exact Hs|exact H1].
Qed.

Lemma locks_run (us : list update) (s : db) :
  locks_consistent s -> locks_consistent (run cfg us s).
Proof.
  revert s. induction us as [|u us IH]; intros s Hs; [done|].
  cbn. apply IH. by apply locks_step.
Qed.

Lemma locks_reachable (s : db) : reachable cfg s -> locks_consistent s.
Proof. intros [us ->]. apply locks_run, locks_empty. Qed.

End Locks.

(** ** What updates do to the stored referrals *)

Section PendingStore.

Context (cfg : config).

Lemma find_by_referred_None (t : Z) (m : gmap N pendingDoc) :
  find_by_referred t m = None <->
  forall i p, m !! i = Some p -> referredId p <> t.
Proof.
  unfold find_by_referred. split.
  - intros Hnone i p Hi Heq.
    apply elem_of_map_to_list, list_elem_of_In in Hi.
    pose proof (find_none _ _ Hnone _ Hi) as Hf. cbn in Hf.
    apply Z.eqb_neq in Hf. done.
  - intros Hall. destruct (List.find _ _) as [[i p]|] eqn:Hf; [|done].
    apply find_some in Hf as [Hin Heq]. cbn in Heq.
    apply list_elem_of_In, elem_of_map_to_list in Hin.
    apply Z.eqb_eq in Heq. by destruct (Hall i p Hin).
Qed.

Lemma find_ref_None (t : Z) (l : list refDoc) :
  find_ref t l = None <-> forall r, r ∈ l -> r_referredId r <> t.
Proof.
  unfold find_ref. split.
  - intros Hnone r Hr Heq. apply list_elem_of_In in Hr.
    pose proof (find_none _ _ Hnone _ Hr) as Hf. cbn in Hf.
    apply Z.eqb_neq in Hf. done.
  - intros Hall. destruct (List.find _ _) as [r|] eqn:Hf; [|done].
    apply find_some in Hf as [Hin Heq].
    apply list_elem_of_In in Hin. apply Z.eqb_eq in Heq.
    by destruct (Hall r Hin).
Qed.

(** A pass, from what it finds in [s]: it returns; it reports as confirmed,
    once each, only referrals that were pending in [s]; the referrals it
    selected are settled when it ends; no referral appears, disappears,
    changes its identities or goes back to pending. *)
Lemma pass_run (force : bool) (now : Z) (s : db) :
  exists sum,
    value (confirmPendingReferrals cfg force now) s = Returned sum /\
    NoDup (confirmed sum) /\
    (forall i, i ∈ confirmed sum ->
       (exists p, pending s !! i = Some p /\ p_status p = RPending) /\
       settled (final (confirmPendingReferrals cfg force now) s) i) /\
    (forall j, doc_evolves (pending s !! j)
                 (pending (final (confirmPendingReferrals cfg force now) s) !! j)).
Proof.
  pose proof (selected_NoDup cfg force now s) as Hnd.
  destruct (confirm_loop_frame cfg now (selected cfg force now s)
              (mkSummary [] []) s)
    as (sum & s' & ev & cs & ns & Hloop & Hc & _ & Hperm & Hcs & _ & _ & _
        & Hdoc & _).
  exists sum. unfold value, final. rewrite confirmPendingReferrals_run.
  unfold confirm_loop. rewrite Hloop. cbn. cbn in Hc. subst cs.
  split; [done|]. split.
  { rewrite <- Hperm in Hnd. by apply NoDup_app in Hnd as [? _]. }
  split; [|exact Hdoc].
  intros i Hi. destruct (Hcs i Hi) as (q & Hq & _).
  pose proof Hq as [Hpi Hquery]%selected_spec.
  split.
  - exists q. split; [done|]. unfold query in Hquery.
    apply andb_true_iff in Hquery as [Hst _]. by destruct (p_status q).
  - destruct (confirm_loop_marks cfg now _ Hnd _ _ _ _ _ Hloop i q q Hq Hpi)
      as (d' & Hd' & Hnp & _).
    by exists d'.
Qed.

Lemma pass_returns (force : bool) (now : Z) (s : db) :
  exists sum s' ev,
    confirmPendingReferrals cfg force now s = (Returned sum, s', ev).
Proof.
  destruct (pass_run force now s) as (sum & Hv & _). unfold value in Hv.
  destruct (confirmPendingReferrals cfg force now s) as [[r s'] ev].
  cbn in Hv. subst r. eauto.
Qed.

Lemma final_admin_confirm (from : sender) (text : string) (now : Z) (s : db) :
  final (on_admin_confirm cfg from text now) s
  = if isAdmin cfg (from_id from)
    then final (confirmPendingReferrals cfg
                  (includes_force (toLowerCase text)) now) s
    else s.
Proof.
  unfold on_admin_confirm. destruct (isAdmin cfg (from_id from)); cbn; [|done].
  rewrite final_bind. unfold final.
  by destruct (pass_returns (includes_force (toLowerCase text)) now s)
    as (sum & s' & ev & ->).
Qed.

(** What precedes the command of an update leaves [pending], [withdrawals]
    and [refs] as they are when the command is reached. *)
Lemma before_command_keeps (u : update) (force : bool) (now : Z) (s : db) :
  pass_of cfg u s = Some (force, now) ->
  pending (before_command cfg u s) = pending s /\
  withdrawals (before_command cfg u s) = withdrawals s /\
  refs (before_command cfg u s) = refs s.
Proof.
  destruct u as [| | | | | | | |from text code t| | |];
    try discriminate; cbn; try done.
  destruct (isAdmin cfg (from_id from)); [|discriminate]. cbn.
  destruct (passed_on from s) eqn:Hpass; [|discriminate]. intros _.
  destruct (text_keeps cfg from text code t s Hpass) as (? & ? & ? & _).
  done.
Qed.

Lemma pass_of_step (u : update) (force : bool) (now : Z) (s : db) :
  pass_of cfg u s = Some (force, now) ->
  step cfg u s
  = final (confirmPendingReferrals cfg force now) (before_command cfg u s).
Proof.
  intros Hp. unfold step.
  destruct u as [| | | | | | | |from text code t|from t| |t];
    try discriminate Hp; cbn in Hp; cbn.
  - destruct (isAdmin cfg (from_id from)) eqn:Hadm; [|discriminate Hp].
    destruct (passed_on from s) eqn:Hpass; [|discriminate Hp].
    injection Hp as <- <-.
    by rewrite final_on_text_next, Hpass, final_admin_confirm, Hadm.
  - unfold on_admin_confirm_button. rewrite final_bind. cbn.
    destruct (isAdmin cfg (from_id from)); [|discriminate Hp].
    injection Hp as <- <-. cbn. rewrite final_bind. unfold final.
    by destruct (pass_returns true t s) as (sum & s' & ev & ->).
  - injection Hp as <- <-. unfold on_sweep. rewrite final_bind.
    unfold final.
    by destruct (pass_returns false t s) as (sum & s' & ev & ->).
Qed.

Lemma text_step_pending (from : sender) (text code : string) (now : Z)
    (s : db) :
  pending (step cfg (Text from text code now) s) = pending s.
Proof.
  unfold step, final. cbn [handle].
  destruct (users s !! from_id from) as [u|] eqn:Hu.
  - rewrite (on_text_found cfg from text code now _ s u Hu).
    destruct (in_dialogue u); cbn; [|done].
    unfold dialogue.
    repeat match goal with
           | |- context [if ?c then _ else _] => destruct c eqn:?
           end;
      unfold final; cbn; unfold bind; rewrite ?for_each_send; cbn; done.
  - rewrite (on_text_new cfg from text code now _ s Hu).
    by destruct (ensure_change cfg from code now s)
      as (r & s1 & l & -> & _ & Hp1 & _).
Qed.

(** An update that runs no pass leaves [pending] as it is, or stores one
    new pending referral, under a fresh [_id], for an identity that no
    stored referral names as referred. *)
Lemma quiet_step_pending (u : update) (s : db) :
  pass_of cfg u s = None ->
  pending (step cfg u s) = pending s \/
  exists p, find_by_referred (referredId p) (pending s) = None /\
    p_status p = RPending /\
    pending (step cfg u s) = <[fresh (dom (pending s)) := p]> (pending s).
Proof.
  intros Hp. unfold step.
  destruct u as [from text code now|k via from code now
    |via from code now|via from code now|from text code now|from
    |from text arg code now|from text arg code now|from text code now
    |from now|from text args code now|now];
    try discriminate Hp; cbn.
  - (* Start *)
    unfold on_start. rewrite final_try_catch_ret, final_bind.
    destruct (ensure_change cfg from code now s)
      as (r & s1 & l & -> & _ & Hp1 & _ & _).
    destruct r as [u1|]; [|by left]. rewrite final_bind.
    destruct (register_referral_run (from_id from)
                (nth 1 (split_space (trim text)) EmptyString) now s1)
      as (r & ev & Hrun & _ & _ & _ & [[Hsame _]|(p & Hf & _ & Hrid & Hst & Hins)]);
      rewrite Hrun; unfold sendMainMenu; rewrite final_reply.
    + left. congruence.
    + right. exists p. rewrite Hrid, <- Hp1. done.
  - (* Lookup *)
    left. unfold on_lookup. rewrite final_entered.
    destruct (ensure_change cfg from code now s)
      as (r & s1 & l & Hrun & _ & Hp1 & _ & _).
    destruct k; unfold replyBalance, replyProfile, replyStatus;
      rewrite final_bind, Hrun; destruct r; done.
  - (* Setupi *)
    left. unfold on_setupi. rewrite final_entered, final_bind.
    destruct (ensure_change cfg from code now s)
      as (r & s1 & l & -> & _ & Hp1 & _ & _).
    destruct r; done.
  - (* Withdraw *)
    left. unfold on_withdraw. rewrite final_entered, final_bind.
    destruct (ensure_change cfg from code now s)
      as (r & s1 & l & -> & _ & Hp1 & _ & _).
    destruct r as [u1|]; [|done]. rewrite <- Hp1.
    unfold startWithdrawFlow, final.
    by repeat match goal with
              | |- context [if ?c then _ else _] => destruct c eqn:?
              | |- context [match ?c with Some _ => _ | None => _ end] =>
                  destruct c eqn:?
              end.
  - (* Text *)
    left. apply text_step_pending.
  - (* Support *) by left.
  - (* Pay *)
    left. rewrite final_on_text_next.
    destruct (passed_on from s); [|apply text_step_pending].
    rewrite <- (text_step_pending from text code now s).
    generalize (step cfg (Text from text code now) s). intros s1.
    unfold on_pay, final.
    destruct (isAdmin cfg (from_id from)); cbn; [|done].
    destruct arg as [| |i]; cbn; try done.
    unfold bind, withdrawalsCol_findOne_pending, get.
    destruct (withdrawals s1 !! i) as [w|]; cbn; [|done].
    by destruct (w_status w).
  - (* CancelWithdraw *)
    left. rewrite final_on_text_next.
    destruct (passed_on from s); [|apply text_step_pending].
    rewrite <- (text_step_pending from text code now s).
    generalize (step cfg (Text from text code now) s). intros s1.
    unfold on_cancelwithdraw, final.
    destruct (isAdmin cfg (from_id from)); cbn; [|done].
    destruct arg as [| |i]; cbn; try done.
    unfold bind, withdrawalsCol_findOne_pending, get.
    destruct (withdrawals s1 !! i) as [w|]; cbn; [|done].
    by destruct (w_status w).
  - (* AdminConfirm, refused or taken *)
    left. rewrite final_on_text_next. cbn in Hp.
    destruct (passed_on from s); [|apply text_step_pending].
    rewrite final_admin_confirm.
    destruct (isAdmin cfg (from_id from)); [discriminate Hp|].
    apply text_step_pending.
  - (* AdminConfirmButton, refused *)
    left. unfold on_admin_confirm_button. cbn in Hp.
    rewrite final_bind. cbn. by destruct (isAdmin cfg (from_id from)).
  - (* AdminCredit *)
    left. rewrite final_on_text_next.
    destruct (passed_on from s); [|apply text_step_pending].
    rewrite <- (text_step_pending from text code now s).
    generalize (step cfg (Text from text code now) s). intros s1.
    unfold on_admin_credit, final.
    destruct (isAdmin cfg (from_id from)); cbn; [|done].
    destruct args as [a|]; cbn; [|done].
    destruct (targetId a) as [t|]; cbn; [|done].
    destruct (credit_amount a) as [q|]; cbn; [|done].
    destruct (Qeq_bool q 0); cbn; [done|].
    unfold bind, usersCol_findOne, get.
    by destruct (users s1 !! t).
Qed.

End PendingStore.
(** ** Settling a withdrawal *)

(** C6, as stated, fails.  [bot.on("text")] is registered before [/pay] and
    reads every text message first.  An administrator who has tapped the
    support button and then sends [/pay] with the [_id] of a pending
    withdrawal has the message taken as the support message: it is forwarded
    to the administrators, the withdrawal stays pending, the amount stays
    locked and the user is told nothing. *)
Lemma pay_from_a_dialogue_settles_nothing :
  let pay := Pay admin "/pay 000000000000000000000000" (ObjectId 0) "ref_b" 7 in
  isAdmin default_config (from_id admin) = true /\
  (w_status <$> withdrawals db_admin_in_support !! 0%N) = Some WPending /\
  withdrawals (step default_config pay db_admin_in_support)
    = withdrawals db_admin_in_support /\
  (balanceLocked <$> users (step default_config pay db_admin_in_support) !! 9)
    = Some (Some 100%Q) /\
  events (handle default_config pay) db_admin_in_support
    = [DbRead Users; DbWrite Users;
       Send 1 (SupportRequest 1 "/pay 000000000000000000000000");
       Reply SupportThanks].
Proof. cbn zeta. repeat split; vm_compute; reflexivity. Qed.

Section Settle.

Context (cfg : config).

(** C6, amended.  [/pay <id>] by an administrator reaches the command when
    no dialogue of the administrator takes the message; [bot.on("text")]
    has then read the administrator's account, or created it, and done no
    more.  On a withdrawal that is pending the command marks it paid, stamps
    [paidAt] and [paidBy], keeps its amount, removes the account's
    [balanceLocked], leaves every balance as it was and notifies the user
    once; on an id that names no pending withdrawal (unknown, already paid,
    cancelled) it answers "Not found.", changes nothing and notifies nobody.
    When a dialogue of the administrator takes the message, the update is
    that of the text handler alone. *)
Theorem pay_settles_pending_else_not_found (from : sender) (text : string)
    (_id : N) (code : string) (now : Z) (s : db)
    (Hadmin : isAdmin cfg (from_id from) = true) :
  let m := handle cfg (Pay from text (ObjectId _id) code now) in
  let read := handle cfg (Text from text code now) in
  (passed_on from s = true ->
   (forall a, users s !! from_id from = Some a ->
      final read s = s /\ events read s = [DbRead Users]) /\
   withdrawals (final read s) = withdrawals s /\
   (forall t u, users s !! t = Some u -> users (final read s) !! t = Some u) /\
   (forall w, withdrawals s !! _id = Some w -> w_status w = WPending ->
      (exists w', withdrawals (final m s) !! _id = Some w' /\
         w_status w' = WPaid /\ paidAt w' = Some now /\
         paidBy w' = Some (from_id from) /\ amount w' = amount w /\
         userId w' = userId w) /\
      (forall u, users s !! userId w = Some u ->
         exists u', users (final m s) !! userId w = Some u' /\
           balanceLocked u' = None /\ balance u' = balance u) /\
      (forall t, balance <$> users (final m s) !! t
                 = balance <$> users (final read s) !! t) /\
      events m s = events read s
                   ++ [DbRead Withdrawals; DbWrite Withdrawals; DbWrite Users;
                       Reply MarkedPaid;
                       Send (userId w) (WithdrawalPaid (amount w))]) /\
   ((forall w, withdrawals s !! _id = Some w -> w_status w <> WPending) ->
      final m s = final read s /\
      events m s = events read s ++ [DbRead Withdrawals; Reply NotFound])) /\
  (passed_on from s = false -> m s = read s).
Proof.
  intros m read. subst m read.
  change (handle cfg (Pay from text (ObjectId _id) code now))
    with (on_text cfg from text code now (on_pay cfg from (ObjectId _id) now)).
  split; [|by apply command_taken].
  intros Hpass.
  rewrite (command_final cfg from text code now _ s Hpass).
  rewrite (command_events cfg from text code now _ s Hpass).
  change (final (handle cfg (Text from text code now)) s)
    with (step cfg (Text from text code now) s).
  destruct (text_keeps cfg from text code now s Hpass) as (_ & Hws & _ & _).
  assert (Hidle : forall a, users s !! from_id from = Some a ->
            handle cfg (Text from text code now) s
            = (Returned tt, s, [DbRead Users])).
  { intros a Ha. unfold passed_on in Hpass. rewrite Ha in Hpass.
    apply negb_true_iff in Hpass. by apply (text_idle cfg _ _ _ _ _ a). }
  assert (Hus : forall t u, users s !! t = Some u ->
            users (step cfg (Text from text code now) s) !! t = Some u).
  { intros t u Ht. unfold step, final.
    destruct (users s !! from_id from) as [a|] eqn:Ha.
    - by rewrite (Hidle a eq_refl).
    - cbn [handle]. rewrite (on_text_new cfg from text code now _ s Ha).
      destruct (ensureUserProfile_run from code now s)
        as (r & s1 & l & -> & _ & _ & _ & Hcase).
      rewrite Ha in Hcase. cbn. destruct Hcase as [[_ ->]|[_ ->]]; [done|].
      rewrite lookup_insert_ne; [done|]. congruence. }
  split.
  { intros a Ha. unfold step, final, events. by rewrite (Hidle a Ha). }
  split; [exact Hws|]. split; [exact Hus|].
  clear Hidle.
  generalize dependent (step cfg (Text from text code now) s).
  generalize (events (handle cfg (Text from text code now)) s).
  intros evT s1 Hws Hus.
  unfold final, events, on_pay. rewrite Hadmin. cbn.
  unfold bind, withdrawalsCol_findOne_pending, get. rewrite Hws. split.
  - intros w Hw Hp. rewrite Hw, Hp. cbn. repeat split.
    + rewrite lookup_alter_eq, Hws, Hw. cbn. eauto 10.
    + intros u Hu. rewrite lookup_alter_eq, (Hus _ _ Hu). cbn. eauto.
    + intros t. rewrite lookup_alter. case_decide; [|done].
      subst. by destruct (users s1 !! userId w).
  - intros Hnp. destruct (withdrawals s !! _id) as [w|] eqn:Hw; [|done].
    specialize (Hnp w eq_refl). by destruct (w_status w).
Qed.

End Settle.

Lemma pay_settles_pending_else_not_found_witness :
  isAdmin default_config (from_id admin) = true /\
  passed_on admin db_admin_idle = true /\
  events (handle default_config (Pay admin "/pay 000000000000000000000000" (ObjectId 0) "ref_b" 7))
    db_admin_idle =
    [DbRead Users; DbRead Withdrawals; DbWrite Withdrawals; DbWrite Users;
     Reply MarkedPaid; Send 9 (WithdrawalPaid 100)].
Proof.
  split; [reflexivity|]. split; [reflexivity|].
  destruct (pay_settles_pending_else_not_found default_config admin "/pay 000000000000000000000000"
              0%N "ref_b" 7 db_admin_idle eq_refl) as [H _].
  destruct (H eq_refl) as (_ & _ & _ & Hpending & _).
  destruct (Hpending carol_request eq_refl eq_refl) as (_ & _ & _ & Hev).
  exact Hev.
Defined.
(** ** Manual credit *)

(** C9, as stated, fails.  [bot.on("text")] is registered before
    [/admin_credit] and reads every text message first: before the command
    rejects a zero amount, the sender's account has been looked up in
    [users], and created when the administrator had none. *)
Lemma zero_credit_reads_and_writes_users :
  let credit := AdminCredit admin "/admin_credit 9 0 gift"
                  (Some (mkCreditArgs (Some 9) (Some 0%Q) "gift")) "ref_a" 3 in
  isAdmin default_config (from_id admin) = true /\
  users db_one_request !! 1 = None /\
  events (handle default_config credit) db_one_request
    = [DbRead Users; DbRead Users; DbWrite Users; Reply AmountCannotBeZero] /\
  users (step default_config credit db_one_request) !! 1
    = Some (new_user admin "ref_a" 3).
Proof. cbn zeta. repeat split; vm_compute; reflexivity. Qed.

Section Credit.

Context (cfg : config).

(** C9, amended.  [/admin_credit] by an administrator reaches the command
    when no dialogue of the administrator takes the message;
    [bot.on("text")] has then read the administrator's account, or created
    it, and done no more.  With a target or an amount that is not a number,
    or with an amount equal to zero, the command only replies with the
    validation message: it reads and writes no collection, and the target is
    not looked up.  With a numeric target and a nonzero amount, negative or
    not, the account is looked up and, when it exists, its balance is
    incremented by the amount in one update of that document, every other
    account and collection being left alone.  When a dialogue of the
    administrator takes the message, the update is that of the text handler
    alone. *)
Theorem admin_credit_validates_then_increments (from : sender)
    (text : string) (a : credit_args) (code : string) (now : Z) (s : db)
    (Hadmin : isAdmin cfg (from_id from) = true) :
  let m := handle cfg (AdminCredit from text (Some a) code now) in
  let read := handle cfg (Text from text code now) in
  let s1 := final read s in
  (passed_on from s = true ->
   (forall d, users s !! from_id from = Some d ->
      s1 = s /\ events read s = [DbRead Users]) /\
   (forall e, e ∈ events read s -> e = DbRead Users \/ e = DbWrite Users) /\
   (forall t u, users s !! t = Some u -> users s1 !! t = Some u) /\
   pending s1 = pending s /\ withdrawals s1 = withdrawals s /\
   refs s1 = refs s /\
   (targetId a = None -> final m s = s1 /\
      events m s = events read s ++ [Reply TelegramIdMustBeNumber]) /\
   (forall t, targetId a = Some t -> credit_amount a = None ->
      final m s = s1 /\
      events m s = events read s ++ [Reply AmountMustBeNumber]) /\
   (forall t q, targetId a = Some t -> credit_amount a = Some q ->
      (q == 0)%Q ->
      final m s = s1 /\
      events m s = events read s ++ [Reply AmountCannotBeZero]) /\
   (forall t q, targetId a = Some t -> credit_amount a = Some q ->
      ~ (q == 0)%Q ->
      match users s1 !! t with
      | None => final m s = s1 /\
                events m s = events read s ++ [DbRead Users; Reply UserNotFound]
      | Some u =>
          users (final m s) !! t = Some (inc_balance q u) /\
          balance (inc_balance q u) = (balance u + q)%Q /\
          (forall t', t' <> t -> users (final m s) !! t' = users s1 !! t') /\
          pending (final m s) = pending s /\
          withdrawals (final m s) = withdrawals s /\
          refs (final m s) = refs s /\
          events m s = events read s
                       ++ [DbRead Users; DbWrite Users;
                           Send t (AdminCredited q (note a));
                           Reply (Credited q (note a))]
      end)) /\
  (passed_on from s = false -> m s = read s).
Proof.
  intros m read s1. subst m read s1.
  change (handle cfg (AdminCredit from text (Some a) code now))
    with (on_text cfg from text code now (on_admin_credit cfg from (Some a))).
  split; [|by apply command_taken].
  intros Hpass.
  rewrite (command_final cfg from text code now _ s Hpass).
  rewrite (command_events cfg from text code now _ s Hpass).
  change (final (handle cfg (Text from text code now)) s)
    with (step cfg (Text from text code now) s).
  destruct (text_keeps cfg from text code now s Hpass) as (Hp & Hw & Hr & _).
  destruct (text_passed cfg from text code now s Hpass) as (Hidle & Hev & Hus).
  split; [exact Hidle|]. split; [exact Hev|]. split; [exact Hus|].
  split; [exact Hp|]. split; [exact Hw|]. split; [exact Hr|].
  clear Hidle Hev Hus.
  generalize dependent (step cfg (Text from text code now) s).
  generalize (events (handle cfg (Text from text code now)) s).
  intros evT s1 Hp Hw Hr.
  unfold final, events, on_admin_credit.
  rewrite Hadmin. cbn. split; [|split; [|split]].
  - intros Ht. by rewrite Ht.
  - intros t Ht Hq. by rewrite Ht, Hq.
  - intros t q Ht Hq Hz. rewrite Ht, Hq.
    apply Qeq_bool_iff in Hz. by rewrite Hz.
  - intros t q Ht Hq Hnz. rewrite Ht, Hq.
    destruct (Qeq_bool q 0) eqn:E.
    { apply Qeq_bool_iff in E. contradiction. }
    unfold bind, usersCol_findOne, get.
    destruct (users s1 !! t) as [u|] eqn:Hu; cbn; [|done].
    repeat split; try done.
    + by rewrite lookup_alter_eq, Hu.
    + intros t' Hne. by rewrite lookup_alter_ne.
Qed.

End Credit.

Lemma admin_credit_validates_then_increments_witness :
  isAdmin default_config (from_id admin) = true /\
  passed_on admin db_admin_idle = true /\
  (let m := handle default_config
              (AdminCredit admin "/admin_credit 9 0 gift"
                 (Some (mkCreditArgs (Some 9) (Some 0%Q) "gift")) "ref_b" 3) in
   final m db_admin_idle = db_admin_idle /\
   events m db_admin_idle = [DbRead Users; Reply AmountCannotBeZero]) /\
  users (step default_config
           (AdminCredit admin "/admin_credit 9 -3 fee"
              (Some (mkCreditArgs (Some 9) (Some (-3)%Q) "fee")) "ref_b" 4)
           db_admin_idle) !! 9 = Some (inc_balance (-3) carol_drafted).
Proof.
  split; [reflexivity|]. split; [reflexivity|]. split.
  - destruct (admin_credit_validates_then_increments default_config admin
                "/admin_credit 9 0 gift"
                (mkCreditArgs (Some 9) (Some 0%Q) "gift") "ref_b" 3
                db_admin_idle eq_refl) as [H _].
    destruct (H eq_refl) as (_ & _ & _ & _ & _ & _ & _ & _ & Hzero & _).
    exact (Hzero 9 0%Q eq_refl eq_refl (Qeq_refl 0)).
  - destruct (admin_credit_validates_then_increments default_config admin
                "/admin_credit 9 -3 fee"
                (mkCreditArgs (Some 9) (Some (-3)%Q) "fee") "ref_b" 4
                db_admin_idle eq_refl) as [H _].
    destruct (H eq_refl) as (_ & _ & _ & _ & _ & _ & _ & _ & _ & Hnz).
    assert (Hne : ~ (-3 == 0)%Q) by discriminate.
    exact (proj1 (Hnz 9 (-3)%Q eq_refl eq_refl Hne)).
Defined.

(** ** Starting a withdrawal *)

Section WithdrawStart.

Context (cfg : config).

(** What [startWithdrawFlow] stores when it does not refuse. *)
Lemma startWithdrawFlow_locks (t : Z) (u d : user) (now : Z) (s : db) :
  no_lock u -> (MIN_WITHDRAWAL cfg <= balance u)%Q ->
  users s !! t = Some d ->
  exists d', users (final (startWithdrawFlow cfg t u now) s) !! t = Some d' /\
    (forall t', t' <> t ->
       users (final (startWithdrawFlow cfg t u now) s) !! t' = users s !! t') /\
    balanceLocked d' = Some (balance u) /\
    balance d' = (balance d + - balance u)%Q /\
    awaitingWithdrawUPI d' = true /\
    awaitingUpiSetup d' = awaitingUpiSetup d /\
    awaitingSupportMessage d' = awaitingSupportMessage d.
Proof.
  intros Hl Hmin Hd. unfold startWithdrawFlow, final.
  assert (Hg : match balanceLocked u with
               | Some l => Qltb 0 l | None => false end = false).
  { destruct (balanceLocked u) as [l|] eqn:E; [|done].
    apply Qltb_ge. apply Qnot_lt_le. by apply Hl. }
  rewrite Hg. apply Qltb_ge in Hmin. rewrite Hmin. cbn.
  rewrite lookup_alter_eq, Hd. cbn. eexists. split; [reflexivity|].
  split; [intros t' Hne; by rewrite lookup_alter_ne|].
  destruct (truthy (primaryUPI u)); cbn; done.
Qed.

(** The same through the command or the button: the stored document is the
    one [ensureUserProfile] returns. *)
Lemma withdraw_step_locks (via : entry) (from : sender) (code : string)
    (now : Z) (s : db) (u : user) :
  users s !! from_id from = Some u ->
  no_lock u ->
  (MIN_WITHDRAWAL cfg <= balance u)%Q ->
  exists u', users (step cfg (Withdraw via from code now) s) !! from_id from
             = Some u' /\
    balanceLocked u' = Some (balance u) /\
    balance u' = (balance u + - balance u)%Q /\
    awaitingWithdrawUPI u' = true /\
    awaitingUpiSetup u' = awaitingUpiSetup u /\
    awaitingSupportMessage u' = awaitingSupportMessage u.
Proof.
  intros Hu Hl Hmin. unfold step.
  destruct (ensureUserProfile_run from code now s)
    as (r & s1 & l & Hrun & _ & _ & _ & Hus).
  rewrite Hu in Hus. destruct Hus as (u1 & -> & (a & b & ->) & Hus).
  assert (Hd : users s1 !! from_id from
               = Some (set_first_name a (set_username b u))).
  { by rewrite Hus, lookup_insert_eq. }
  destruct (startWithdrawFlow_locks (from_id from)
              (set_first_name a (set_username b u)) _ now s1 Hl Hmin Hd)
    as (d' & Hd' & _ & Hlock & Hbal & Hflag & Hsetup & Hsupport).
  exists d'. split; [|done].
  unfold final in *.
  destruct via; cbn; unfold try_catch, bind, answerCbQuery, emit;
    rewrite Hrun; cbn;
    destruct (startWithdrawFlow cfg (from_id from) _ now s1) as [[[]] ?];
    exact Hd'.
Qed.

(** C10.  For an account without outstanding locked balance whose balance
    reaches the minimum, starting the withdrawal flow (command or button, which
    carry no amount) stores the whole balance as [balanceLocked], brings the
    balance to zero and opens the withdrawal dialogue. *)
Theorem withdraw_locks_entire_balance (via : entry) (from : sender)
    (code : string) (now : Z) (s : db) (u : user) :
  users s !! from_id from = Some u ->
  no_lock u ->
  (MIN_WITHDRAWAL cfg <= balance u)%Q ->
  exists u', users (step cfg (Withdraw via from code now) s) !! from_id from
             = Some u' /\
    balanceLocked u' = Some (balance u) /\
    (balance u' == 0)%Q /\
    awaitingWithdrawUPI u' = true.
Proof.
  intros Hu Hl Hmin.
  destruct (withdraw_step_locks via from code now s u Hu Hl Hmin)
    as (u' & Hu' & Hlock & Hbal & Hflag & _).
  exists u'. repeat split; try done. rewrite Hbal. lra.
Qed.

End WithdrawStart.

Lemma withdraw_locks_entire_balance_witness :
  users db_erin_idle !! from_id erin = Some erin_idle /\
  no_lock erin_idle /\
  (MIN_WITHDRAWAL default_config <= balance erin_idle)%Q /\
  exists u', users (step default_config (Withdraw Command erin "ref_x" 5)
                      db_erin_idle) !! from_id erin = Some u' /\
    balanceLocked u' = Some (balance erin_idle) /\
    (balance u' == 0)%Q /\
    awaitingWithdrawUPI u' = true.
Proof.
  assert (H1 : users db_erin_idle !! from_id erin = Some erin_idle)
    by reflexivity.
  assert (H2 : no_lock erin_idle) by (intros l Hl; discriminate Hl).
  assert (H3 : (MIN_WITHDRAWAL default_config <= balance erin_idle)%Q)
    by (cbn; lra).
  split; [exact H1|]. split; [exact H2|]. split; [exact H3|].
  exact (withdraw_locks_entire_balance default_config Command erin "ref_x" 5
           db_erin_idle erin_idle H1 H2 H3).
Defined.

(** ** Drafting a withdrawal and cancelling it *)

(** C4, as stated, fails.  An account in the middle of [/setupi], with balance
    100 and nothing locked, starts a withdrawal and sends "cancel": the text
    handler looks at [awaitingUpiSetup] first, ends the setup and returns, so
    the balance stays at 0 and 100 stays locked. *)
Lemma cancel_during_setup_leaves_amount_locked :
  let s1 := step default_config (Withdraw Command erin "ref_x" 5)
              db_erin_in_setup in
  let s2 := step default_config (Text erin "cancel" "ref_x" 6) s1 in
  users db_erin_in_setup !! 7 = Some (set_awaitingUpiSetup true erin_idle) /\
  no_lock (set_awaitingUpiSetup true erin_idle) /\
  (MIN_WITHDRAWAL default_config <= balance erin_idle)%Q /\
  ~ (exists u2, users s2 !! 7 = Some u2 /\
       (balance u2 == balance erin_idle)%Q /\ balanceLocked u2 = None) /\
  (exists u2, users s2 !! 7 = Some u2 /\ (balance u2 == 0)%Q /\
       balanceLocked u2 = Some 100%Q /\ awaitingWithdrawUPI u2 = true).
Proof.
  cbn zeta. split; [reflexivity|]. split; [intros l Hl; discriminate Hl|].
  split; [cbn; lra|]. split.
  - intros (u2 & Hu2 & _ & Hlock). vm_compute in Hu2.
    injection Hu2 as <-. discriminate Hlock.
  - eexists. split; [vm_compute; reflexivity|]. cbn. done.
Qed.

Section RoundTrip.

Context (cfg : config).

(** C4, amended.  For an account that is not in payout-target setup, has no
    outstanding locked balance and has at least the minimum, starting a
    withdrawal and then sending the cancel keyword (any case, white space
    around it) restores the balance to its value before the draft, removes
    [balanceLocked] and clears the withdrawal dialogue; the support flag is
    what it was, so an account that awaited nothing before awaits nothing
    after. *)
Theorem draft_then_cancel_restores_balance (via : entry) (from : sender)
    (code code' : string) (now now' : Z) (text : string) (s : db) (u : user) :
  users s !! from_id from = Some u ->
  awaitingUpiSetup u = false ->
  no_lock u ->
  (MIN_WITHDRAWAL cfg <= balance u)%Q ->
  toLowerCase (trim text) = "cancel"%string ->
  exists u2,
    users (step cfg (Text from text code' now')
             (step cfg (Withdraw via from code now) s)) !! from_id from
    = Some u2 /\
    (balance u2 == balance u)%Q /\
    balanceLocked u2 = None /\
    awaitingWithdrawUPI u2 = false /\
    awaitingWithdrawUPIConfirm u2 = false /\
    draftWithdrawUPI u2 = None /\
    awaitingUpiSetup u2 = false /\
    awaitingSupportMessage u2 = awaitingSupportMessage u.
Proof.
  intros Hu Hsetup Hl Hmin Hcancel.
  destruct (withdraw_step_locks cfg via from code now s u Hu Hl Hmin)
    as (u1 & Hu1 & Hlock & Hbal & Hflag & Hsetup1 & Hsupport).
  set (s1 := step cfg (Withdraw via from code now) s) in *.
  unfold step at 1. unfold final, handle, on_text, try_catch, bind.
  unfold usersCol_findOne, get. rewrite Hu1. cbn. unfold dialogue.
  rewrite Hsetup1, Hsetup, Hflag, Hcancel. cbn.
  rewrite lookup_alter_eq, Hu1. cbn. eexists. split; [reflexivity|].
  cbn. rewrite Hlock, Hbal. cbn. repeat split; try done.
  - lra.
  - congruence.
Qed.

End RoundTrip.

Lemma draft_then_cancel_restores_balance_witness :
  users db_erin_idle !! from_id erin = Some erin_idle /\
  awaitingUpiSetup erin_idle = false /\
  no_lock erin_idle /\
  (MIN_WITHDRAWAL default_config <= balance erin_idle)%Q /\
  toLowerCase (trim " Cancel ") = "cancel"%string /\
  exists u2,
    users (step default_config (Text erin " Cancel " "ref_y" 6)
             (step default_config (Withdraw Button erin "ref_x" 5)
                db_erin_idle)) !! from_id erin = Some u2 /\
    (balance u2 == balance erin_idle)%Q /\
    balanceLocked u2 = None /\
    awaitingWithdrawUPI u2 = false /\
    awaitingWithdrawUPIConfirm u2 = false /\
    draftWithdrawUPI u2 = None /\
    awaitingUpiSetup u2 = false /\
    awaitingSupportMessage u2 = awaitingSupportMessage erin_idle.
Proof.
  assert (H1 : users db_erin_idle !! from_id erin = Some erin_idle)
    by reflexivity.
  assert (H2 : no_lock erin_idle) by (intros l Hl; discriminate Hl).
  assert (H3 : (MIN_WITHDRAWAL default_config <= balance erin_idle)%Q)
    by (cbn; lra).
  split; [exact H1|]. split; [reflexivity|]. split; [exact H2|].
  split; [exact H3|]. split; [reflexivity|].
  exact (draft_then_cancel_restores_balance default_config Button erin
           "ref_x" "ref_y" 5 6 " Cancel " db_erin_idle erin_idle
           H1 eq_refl H2 H3 eq_refl).
Defined.

(** ** Intent flags *)

(** C2, as stated, fails.  An account that has started a withdrawal (100
    locked) and then starts payout-target setup, or asks for support, has both
    flags set and the 100 still locked. *)
Lemma setup_during_draft_keeps_both_intents :
  let s1 := step default_config (Withdraw Command erin "ref_x" 5)
              db_erin_idle in
  let s2 := step default_config (Setupi Command erin "ref_x" 6) s1 in
  let s3 := step default_config (Support erin) s1 in
  (exists u2, users s2 !! 7 = Some u2 /\
     awaitingUpiSetup u2 = true /\ awaitingWithdrawUPI u2 = true /\
     balanceLocked u2 = Some 100%Q) /\
  (exists u3, users s3 !! 7 = Some u3 /\
     awaitingSupportMessage u3 = true /\ awaitingWithdrawUPI u3 = true /\
     balanceLocked u3 = Some 100%Q).
Proof.
  cbn zeta. split; eexists; (split; [vm_compute; reflexivity|]); cbn; done.
Qed.

Section Intents.

Context (cfg : config).

(** C2, amended.  The three intents are three flags of the account that are
    set independently.  Starting payout-target setup, or support intake,
    sets its own flag and changes neither of the other two flags, nor the
    balance, nor the locked amount; starting the withdrawal flow, whether it
    is refused or not, changes neither the setup flag nor the support flag. *)
Theorem starting_an_intent_keeps_the_other_flags (from : sender) (s : db)
    (u : user) (Hu : users s !! from_id from = Some u) :
  (forall via code now,
     exists u', users (step cfg (Setupi via from code now) s) !! from_id from
                = Some u' /\
       awaitingUpiSetup u' = true /\
       awaitingWithdrawUPI u' = awaitingWithdrawUPI u /\
       awaitingSupportMessage u' = awaitingSupportMessage u /\
       balance u' = balance u /\ balanceLocked u' = balanceLocked u) /\
  (exists u', users (step cfg (Support from) s) !! from_id from = Some u' /\
       awaitingSupportMessage u' = true /\
       awaitingUpiSetup u' = awaitingUpiSetup u /\
       awaitingWithdrawUPI u' = awaitingWithdrawUPI u /\
       balance u' = balance u /\ balanceLocked u' = balanceLocked u) /\
  (forall via code now,
     exists u', users (step cfg (Withdraw via from code now) s) !! from_id from
                = Some u' /\
       awaitingUpiSetup u' = awaitingUpiSetup u /\
       awaitingSupportMessage u' = awaitingSupportMessage u).
Proof.
  split; [|split].
  - intros via code now.
    destruct (ensureUserProfile_run from code now s)
      as (r & s1 & l & Hrun & _ & _ & _ & Hus).
    rewrite Hu in Hus. destruct Hus as (u1 & -> & (a & b & ->) & Hus).
    unfold step, final, handle, on_setupi, entered, startUpiSetup.
    destruct via; cbn; unfold try_catch, bind, answerCbQuery, emit;
      rewrite Hrun; cbn; rewrite Hus, lookup_alter_eq, lookup_insert_eq;
      cbn; eexists; (split; [reflexivity|]); cbn; done.
  - unfold step, final. cbn. rewrite lookup_alter_eq, Hu. cbn.
    eexists; (split; [reflexivity|]); cbn; done.
  - intros via code now.
    destruct (ensureUserProfile_run from code now s)
      as (r & s1 & l & Hrun & _ & _ & _ & Hus).
    rewrite Hu in Hus. destruct Hus as (u1 & -> & (a & b & ->) & Hus).
    unfold step, final, handle, on_withdraw, entered, startWithdrawFlow.
    destruct via; cbn; unfold try_catch, bind, answerCbQuery, emit;
      rewrite Hrun; cbn;
      (destruct (balanceLocked u) as [k|]; [destruct (Qltb 0 k)|]);
      destruct (Qltb (balance u) (MIN_WITHDRAWAL cfg)); cbn;
      rewrite Hus, ?lookup_alter_eq, lookup_insert_eq; cbn;
      try destruct (truthy (primaryUPI u));
      eexists; (split; [reflexivity|]); cbn; done.
Qed.

End Intents.

Lemma starting_an_intent_keeps_the_other_flags_witness :
  let s1 := step default_config (Withdraw Command erin "ref_x" 5)
              db_erin_idle in
  exists u1, users s1 !! from_id erin = Some u1 /\
  exists u', users (step default_config (Setupi Button erin "ref_x" 6) s1)
               !! from_id erin = Some u' /\
       awaitingUpiSetup u' = true /\
       awaitingWithdrawUPI u' = awaitingWithdrawUPI u1 /\
       awaitingSupportMessage u' = awaitingSupportMessage u1 /\
       balance u' = balance u1 /\ balanceLocked u' = balanceLocked u1.
Proof.
  cbn zeta. eexists. split; [vm_compute; reflexivity|].
  refine (proj1 (starting_an_intent_keeps_the_other_flags default_config erin
                   _ _ _) Button "ref_x"%string 6).
  vm_compute. reflexivity.
Defined.

(** ** Self-referrals *)

Section SelfReferral.

Context (cfg : config).

(** C8.  A referral whose referred and referrer are the same identity and
    that a pass selects, forced or not, is stored as invalid with the reason
    [self_referral] when the pass ends and is reported invalidated, not
    confirmed; the loop body, on such a document, writes [pending] only: it
    changes no account and sends nothing. *)
Theorem self_referral_is_invalidated (force : bool) (now : Z) (s : db)
    (i : N) (p : pendingDoc) :
  pending s !! i = Some p ->
  query cfg force now p = true ->
  referredId p = referrerId p ->
  (forall acc s1,
     value (confirm_one cfg now (i, p) acc) s1
       = Returned (push_invalidated i acc) /\
     users (final (confirm_one cfg now (i, p) acc) s1) = users s1 /\
     events (confirm_one cfg now (i, p) acc) s1 = [DbWrite Pending]) /\
  exists sum p',
    value (confirmPendingReferrals cfg force now) s = Returned sum /\
    i ∈ invalidated sum /\ (i ∉ confirmed sum) /\
    pending (final (confirmPendingReferrals cfg force now) s) !! i = Some p' /\
    p_status p' = RInvalid /\ reason p' = Some self_referral.
Proof.
  intros Hp Hq Hself. split.
  - intros acc s1. unfold value, final, events. rewrite confirm_one_run.
    apply Z.eqb_eq in Hself. by rewrite Hself.
  - assert (Hsel : (i, p) ∈ selected cfg force now s) by by apply selected_spec.
    pose proof (selected_NoDup cfg force now s) as Hnd.
    destruct (confirm_loop_frame cfg now (selected cfg force now s)
                (mkSummary [] []) s)
      as (sum & s' & ev & cs & ns & Hloop & Hc & Hi & Hperm & Hcs & Hns & _).
    destruct (confirm_loop_marks cfg now _ Hnd _ _ _ _ _ Hloop i p p Hsel Hp)
      as (p' & Hp' & _ & Hmark).
    exists sum, p'. unfold value, final.
    rewrite confirmPendingReferrals_run. unfold confirm_loop. rewrite Hloop.
    cbn. cbn in Hc, Hi. subst cs ns. rewrite (Hmark Hself) in *.
    repeat split; try done.
    + by eapply Hns.
    + intros Hin. destruct (Hcs i Hin) as (q & Hq' & Hne).
      apply selected_spec in Hq' as [Hq' _]. congruence.
Qed.

End SelfReferral.

Lemma self_referral_is_invalidated_witness :
  pending db_referrals !! 0%N = Some self_referred /\
  query default_config true 30 self_referred = true /\
  referredId self_referred = referrerId self_referred /\
  exists sum p',
    value (confirmPendingReferrals default_config true 30) db_referrals
      = Returned sum /\
    0%N ∈ invalidated sum /\ (0%N ∉ confirmed sum) /\
    pending (final (confirmPendingReferrals default_config true 30)
               db_referrals) !! 0%N = Some p' /\
    p_status p' = RInvalid /\ reason p' = Some self_referral.
Proof.
  split; [reflexivity|]. split; [reflexivity|]. split; [reflexivity|].
  exact (proj2 (self_referral_is_invalidated default_config true 30
                  db_referrals 0%N self_referred eq_refl eq_refl eq_refl)).
Defined.

(** ** The balance and negative credits *)

(** C3, as stated, fails.  [/admin_credit 7 -150] on an account whose balance
    is 100 is applied as it is: the balance becomes -50. *)
Lemma negative_credit_overdraws :
  let debit := AdminCredit admin "/admin_credit 7 -150 fee"
                 (Some (mkCreditArgs (Some 7) (Some (-150)%Q) "fee"))
                 "ref_a" 3 in
  ledger_nonneg db_erin_idle /\
  exists u, users (step default_config debit db_erin_idle) !! 7 = Some u /\
            (balance u < 0)%Q.
Proof.
  cbn zeta. split.
  - split.
    + intros t u Hu. change (users db_erin_idle) with ({[ 7 := erin_idle ]} : gmap Z user) in Hu.
      apply lookup_singleton_Some in Hu as [_ <-].
      split; [cbn; lra|]. intros l Hl. discriminate Hl.
    + intros i w Hw. change (withdrawals db_erin_idle) with (∅ : gmap N withdrawal) in Hw.
      by rewrite lookup_empty in Hw.
  - eexists. split; [vm_compute; reflexivity|]. cbn. reflexivity.
Qed.

Section Balance.

Context (cfg : config).

(** C3, amended.  With a reward that is not negative, every update other
    than an [/admin_credit] with a negative amount keeps every balance, every
    locked amount and the amount of every pending withdrawal non-negative:
    from a database where they are, any sequence of such updates (withdrawal
    drafting, user cancel, admin settle and cancel, referral confirmation,
    positive credit) leads to one where every balance is at least zero. *)
Theorem balance_nonnegative_without_negative_credit (us : list update)
    (s : db) :
  (0 <= REFERRAL_REWARD cfg)%Q ->
  ledger_nonneg s ->
  Forall (fun u => negative_credit u = false) us ->
  ledger_nonneg (run cfg us s) /\
  forall t u, users (run cfg us s) !! t = Some u -> (0 <= balance u)%Q.
Proof.
  intros Hr Hs Hus.
  assert (H : ledger_nonneg (run cfg us s)).
  { revert s Hs. induction Hus as [|u us Hu _ IH]; intros s Hs; [done|].
    cbn. apply IH. by apply nonneg_step. }
  split; [exact H|]. intros t u Hu. by destruct (proj1 H t u Hu).
Qed.

End Balance.

Lemma balance_nonnegative_without_negative_credit_witness :
  let us := erin_requests ++ [CancelWithdraw admin "/cancelwithdraw 000000000000000000000000" (ObjectId 0) "ref_b" 8] in
  (0 <= REFERRAL_REWARD default_config)%Q /\
  ledger_nonneg empty_db /\
  Forall (fun u => negative_credit u = false) us /\
  forall t u, users (run default_config us empty_db) !! t = Some u ->
              (0 <= balance u)%Q.
Proof.
  cbn zeta.
  assert (H1 : (0 <= REFERRAL_REWARD default_config)%Q) by (cbn; lra).
  assert (H2 : ledger_nonneg empty_db).
  { split.
    - intros t u Hu. change (users empty_db) with (∅ : gmap Z user) in Hu.
      by rewrite lookup_empty in Hu.
    - intros i w Hw. change (withdrawals empty_db) with (∅ : gmap N withdrawal) in Hw.
      by rewrite lookup_empty in Hw. }
  assert (H3 : Forall (fun u => negative_credit u = false)
                 (erin_requests ++ [CancelWithdraw admin "/cancelwithdraw 000000000000000000000000" (ObjectId 0) "ref_b" 8]))
    by (repeat constructor).
  split; [exact H1|]. split; [exact H2|]. split; [exact H3|].
  exact (proj2 (balance_nonnegative_without_negative_credit default_config
                  _ empty_db H1 H2 H3)).
Defined.

(** ** Conservation of what an account holds *)

(** C5, as stated, fails in three ways.  With [MIN_WITHDRAWAL=0], which the
    code accepts, an account with nothing can request a withdrawal of zero,
    which locks zero and so refuses no later draft; once it has been credited
    100 and has drafted again, the 100 are locked, and [/cancelwithdraw] of
    the first request refunds its zero and removes the lock: the account held
    100 and holds nothing.  With a negative [REFERRAL_REWARD], which the code
    accepts as well, confirming a referral takes the reward from the
    referrer.  And when two [/withdraw] of one account overlap, each having
    read the account before the other writes, the update of
    [startWithdrawFlow], which carries no condition on the document, is
    applied twice: the second takes the balance of 100 once more from an
    account that holds 100 locked. *)
Lemma holdings_can_decrease :
  let us := [ Start erin "/start" "ref_e" 0;
              Withdraw Command erin "ref_x" 1;
              Text erin "erin@bank" "ref_x" 2;
              Text erin "confirm" "ref_x" 3;
              AdminCredit admin "/admin_credit 7 100 gift"
                (Some (mkCreditArgs (Some 7) (Some 100%Q) "gift")) "ref_a" 4;
              Withdraw Command erin "ref_x" 5 ] in
  let u := CancelWithdraw admin "/cancelwithdraw 000000000000000000000000"
             (ObjectId 0) "ref_b" 6 in
  let s := run zero_minimum_config us empty_db in
  (settles zero_minimum_config u s = false /\ negative_credit u = false /\
   (total s 7 == 100)%Q /\
   (total (step zero_minimum_config u s) 7 == 0)%Q) /\
  (settles negative_reward_config (Sweep 1000000000) db_one_referral = false /\
   negative_credit (Sweep 1000000000) = false /\
   (total db_one_referral 7 == 100)%Q /\
   (total (step negative_reward_config (Sweep 1000000000) db_one_referral) 7
    == 99)%Q) /\
  (let s1 := final (startWithdrawFlow default_config 7 erin_idle 5)
               db_erin_idle in
   users db_erin_idle !! 7 = Some erin_idle /\
   (total db_erin_idle 7 == 100)%Q /\ (total s1 7 == 100)%Q /\
   (total (final (startWithdrawFlow default_config 7 erin_idle 6) s1) 7
    == 0)%Q).
Proof. cbn zeta. repeat split; vm_compute; reflexivity. Qed.

Section Conservation.

Context (cfg : config).
Hypothesis reward_nonneg : (0 <= REFERRAL_REWARD cfg)%Q.

Lemma total_insert (s s' : db) (t : Z) (u u' : user) :
  users s !! t = Some u ->
  users s' = <[t := u']> (users s) ->
  (balance u + default 0 (balanceLocked u)
   <= balance u' + default 0 (balanceLocked u'))%Q ->
  forall t0, (total s t0 <= total s' t0)%Q.
Proof.
  intros Ht Hus Hle t0. unfold total. rewrite Hus, lookup_insert.
  case_decide; [subst; by rewrite Ht|]. apply Qle_refl.
Qed.

Lemma total_alter (s s' : db) (t : Z) (f : user -> user) :
  users s' = alter f t (users s) ->
  (forall u, users s !! t = Some u ->
     (balance u + default 0 (balanceLocked u)
      <= balance (f u) + default 0 (balanceLocked (f u)))%Q) ->
  forall t0, (total s t0 <= total s' t0)%Q.
Proof.
  intros Hus Hle t0. unfold total. rewrite Hus, lookup_alter.
  case_decide; [subst|apply Qle_refl].
  destruct (users s !! t0) as [u|] eqn:E; cbn; [by apply Hle|apply Qle_refl].
Qed.

Lemma credits_grow (k : nat) (u : user) :
  (balance u <= balance (Nat.iter k (credit_referrer cfg) u))%Q.
Proof.
  induction k as [|k IH]; [apply Qle_refl|].
  rewrite Nat.iter_succ. cbn. lra.
Qed.

Lemma conserved_change (k : kind) (s s' : db) :
  locks_consistent s -> ledger_change cfg k s s' ->
  (k = Quiet \/ exists q, k = Credit q /\ (0 <= q)%Q) ->
  forall t0, (total s t0 <= total s' t0)%Q.
Proof.
  intros (J1 & J2 & J3) Hch Hk.
  destruct Hch as [k s s' Hus Hws
    |s s' t u u' Ht Hl Hus Hws
    |s s' t u' Ht Hb Hl Ha Hus Hws
    |s s' t u u' Ht Hnl Hmin Hb Hl Ha Hus Hws
    |s s' t u u' Ht Ha Hb Hl Ha' Hus Hws
    |s s' t u u' w Ht Ha Hb Hl Ha' Hwu Hwa Hwp Hus Hws
    |s s' i w w' Hi Hp Hp' Hws Hus
    |s s' i w w' Hi Hp Hp' Hws Hus
    |s s' t q Hq Hus Hws
    |s s' Hacct Hws].
  - intros t0. unfold total. rewrite Hus. apply Qle_refl.
  - destruct Hl as (Hb & Hl & _).
    eapply total_insert; eauto. rewrite Hb, Hl. apply Qle_refl.
  - intros t0. unfold total. rewrite Hus, lookup_insert.
    case_decide; [subst|apply Qle_refl]. rewrite Ht, Hb, Hl. cbn. lra.
  - eapply total_insert; eauto. rewrite Hb, Hl. cbn.
    destruct (balanceLocked u) as [l|] eqn:E; cbn; [|lra].
    specialize (Hnl l E). apply Qnot_lt_le in Hnl. lra.
  - eapply total_insert; eauto. rewrite Hb, Hl. cbn. lra.
  - eapply total_insert; eauto. rewrite Hb, Hl. apply Qle_refl.
  - destruct Hk as [Hk|(q & Hk & _)]; discriminate Hk.
  - destruct (J1 i w Hi Hp) as (u & Hu & Hlu & _).
    eapply total_alter; eauto. intros u0 Hu0.
    assert (u0 = u) as -> by congruence. cbn. rewrite Hlu. cbn. lra.
  - destruct Hk as [Hk|(q' & [= <-] & Hq')]; [discriminate Hk|].
    eapply total_alter; eauto. intros u Hu. cbn. lra.
  - intros t0. unfold total. specialize (Hacct t0).
    destruct (users s !! t0) as [u|], (users s' !! t0) as [u'|];
      cbn in Hacct; try done; try apply Qle_refl.
    destruct Hacct as [n ->].
    rewrite (proj1 (credits_same_ledger_fields cfg n u)).
    pose proof (credits_grow n u). lra.
Qed.

Lemma kind_quiet_or_credit (u : update) (s : db) :
  settles cfg u s = false -> negative_credit u = false ->
  kind_of cfg u s = Quiet \/
  exists q, kind_of cfg u s = Credit q /\ (0 <= q)%Q.
Proof.
  intros Hs Hn. destruct (kind_of cfg u s) as [| |q] eqn:Hk.
  - by left.
  - unfold kind_of in Hk. rewrite Hs in Hk.
    destruct u; try done. destruct args as [a|]; [|done].
    by destruct (credit_amount a).
  - right. exists q. split; [done|]. by eapply kind_credit_nonneg.
Qed.

(** C5, amended.  With a positive minimum withdrawal and a reward that is
    not negative, in every state the bot reaches by updates handled one
    after the other and for every account, no update makes balance plus
    locked balance smaller, unless it is a [/pay] that settles a pending
    withdrawal (one that no dialogue of the administrator takes) or an
    [/admin_credit] with a negative amount.  An account that does not exist
    holds nothing. *)
Theorem holdings_never_decrease (us : list update) (u : update) (t : Z) :
  (0 < MIN_WITHDRAWAL cfg)%Q ->
  settles cfg u (run cfg us empty_db) = false ->
  negative_credit u = false ->
  (total (run cfg us empty_db) t
   <= total (step cfg u (run cfg us empty_db)) t)%Q.
Proof.
  intros Hmin Hs Hn. set (s := run cfg us empty_db) in *.
  assert (HJ : locks_consistent s).
  { apply (locks_reachable cfg Hmin). by exists us. }
  destruct (step_changes cfg u s) as (s1 & H1 & H2).
  eapply Qle_trans.
  - eapply conserved_change; [exact HJ|exact H1|by left].
  - eapply conserved_change; [|exact H2|by apply kind_quiet_or_credit].
    eapply locks_change; eauto.
Qed.

End Conservation.

Lemma holdings_never_decrease_witness :
  let u := CancelWithdraw admin "/cancelwithdraw 000000000000000000000000"
             (ObjectId 0) "ref_b" 8 in
  (0 <= REFERRAL_REWARD default_config)%Q /\
  (0 < MIN_WITHDRAWAL default_config)%Q /\
  settles default_config u (run default_config erin_requests empty_db)
    = false /\
  negative_credit u = false /\
  (total (run default_config erin_requests empty_db) 7
   <= total (step default_config u
               (run default_config erin_requests empty_db)) 7)%Q.
Proof.
  cbn zeta.
  assert (H1 : (0 <= REFERRAL_REWARD default_config)%Q) by (cbn; lra).
  assert (H2 : (0 < MIN_WITHDRAWAL default_config)%Q) by (cbn; lra).
  split; [exact H1|]. split; [exact H2|]. split; [reflexivity|].
  split; [reflexivity|].
  exact (holdings_never_decrease default_config H1 erin_requests
           (CancelWithdraw admin "/cancelwithdraw 000000000000000000000000"
              (ObjectId 0) "ref_b" 8) 7 H2 eq_refl eq_refl).
Defined.

(** ** One referral per referred identity *)

(** C7, as stated, fails on its last part.  [connectDB] declares no unique
    index on [referredId]: [pending] has one index, on [createdAt], not
    unique.  The collection therefore takes a second document for a referred
    identity it already holds, here account 8. *)
Lemma pending_has_no_unique_index_on_referredId :
  has_unique_index Pending F_referredId = false /\
  filter (fun i => collection_eqb (on i) Pending) connectDB_indexes
    = [mkIndex Pending F_createdAt false] /\
  one_referral_per_referred db_referrals /\
  value (pendingCol_insertOne referred_again) db_referrals = Returned tt /\
  ~ one_referral_per_referred
      (final (pendingCol_insertOne referred_again) db_referrals).
Proof.
  split; [reflexivity|]. split; [reflexivity|]. split; [|split].
  - intros i j p q Hi Hj Heq.
    change (pending db_referrals)
      with ({[ 0%N := self_referred; 1%N := referred_by_erin ]}
              : gmap N pendingDoc) in Hi, Hj.
    apply lookup_insert_Some in Hi as [[<- <-]|[? Hi]];
      apply lookup_insert_Some in Hj as [[<- <-]|[? Hj]]; try done.
    + apply lookup_singleton_Some in Hj as [<- <-]. discriminate Heq.
    + apply lookup_singleton_Some in Hi as [<- <-]. discriminate Heq.
    + apply lookup_singleton_Some in Hi as [<- <-].
      apply lookup_singleton_Some in Hj as [<- <-]. done.
  - reflexivity.
  - intros H.
    assert (H12 : 1%N = 2%N); [|discriminate H12].
    apply (H 1%N 2%N referred_by_erin referred_again); by vm_compute.
Qed.

Section FirstReferrer.

Context (cfg : config).

Lemma one_referral_step (u : update) (s : db) :
  one_referral_per_referred s -> one_referral_per_referred (step cfg u s).
Proof.
  intros Hs. destruct (pass_of cfg u s) as [[force now]|] eqn:Hp.
  - rewrite (pass_of_step cfg u force now s Hp).
    destruct (before_command_keeps cfg u force now s Hp) as (Hp1 & _).
    destruct (pass_run cfg force now (before_command cfg u s))
      as (sum & _ & _ & _ & Hdoc).
    intros i j p q Hi Hj Heq.
    pose proof (Hdoc i) as Hdi. pose proof (Hdoc j) as Hdj.
    rewrite Hp1 in Hdi, Hdj.
    rewrite Hi in Hdi. rewrite Hj in Hdj.
    destruct (pending s !! i) as [p0|] eqn:Hi0; [|done].
    destruct (pending s !! j) as [q0|] eqn:Hj0; [|done].
    destruct Hdi as (Hpi & _). destruct Hdj as (Hqj & _).
    apply (Hs i j p0 q0 Hi0 Hj0). congruence.
  - unfold one_referral_per_referred.
    destruct (quiet_step_pending cfg u s Hp) as [Hst|(p0 & Hf & _ & Hst)];
      rewrite Hst; clear Hst; [exact Hs|].
    assert (Hfresh : pending s !! fresh (dom (pending s)) = None).
    { apply not_elem_of_dom. apply is_fresh. }
    pose proof (proj1 (find_by_referred_None _ _) Hf) as Hnone.
    intros i j p q. rewrite !lookup_insert.
    repeat case_decide; subst; try done.
    + intros [= <-] Hj Heq. exfalso. by apply (Hnone j q Hj).
    + intros Hi [= <-] Heq. exfalso. by apply (Hnone i p Hi).
    + apply Hs.
Qed.

(** C7, amended.  Handled one after the other, the updates never leave two
    stored referrals for the same referred identity: the check is the one
    [bot.start] makes before it inserts, not an index of the collection.
    A [/start] from an identity that a stored referral, pending or
    confirmed (in [refs]), already names as referred stores nothing in
    [pending] or [refs], writes to neither, and sends no message to
    anybody. *)
Theorem first_referrer_wins :
  (forall us s, one_referral_per_referred s ->
     one_referral_per_referred (run cfg us s)) /\
  (forall from text code now s,
     already_referred s (from_id from) ->
     pending (step cfg (Start from text code now) s) = pending s /\
     refs (step cfg (Start from text code now) s) = refs s /\
     forall e, e ∈ events (handle cfg (Start from text code now)) s ->
       e <> DbWrite Pending /\ e <> DbWrite Refs /\
       forall to m, e <> Send to m).
Proof.
  split.
  - intros us. induction us as [|u us IH]; intros s Hs; [done|].
    cbn. apply IH. by apply one_referral_step.
  - intros from text code now s Halready.
    pose proof (ensureUserProfile_events from code now s) as Hev.
    destruct (ensure_change cfg from code now s)
      as (r & s1 & l & Hrun & _ & Hp1 & Hr1 & _).
    unfold events in Hev. rewrite Hrun in Hev. cbn in Hev.
    unfold step, final, events. cbn. unfold on_start, try_catch, bind.
    rewrite Hrun. destruct r as [u1|]; cbn.
    2:{ split; [done|]. split; [done|]. intros e He.
        rewrite app_nil_r in He. destruct (Hev e He) as [-> | ->]; done. }
    destruct (register_referral_run (from_id from)
                (nth 1 (split_space (trim text)) EmptyString) now s1)
      as (r & ev & Hreg & _ & _ & Hrefs & [[Hsame Hreads]|(p & Hf & Hg & _)]).
    + rewrite Hreg. cbn. split; [congruence|]. split; [congruence|].
      intros e He. rewrite !elem_of_app in He.
      destruct He as [He|[He|He]].
      * destruct (Hev e He) as [-> | ->]; done.
      * destruct (Hreads e He) as [c ->]. done.
      * apply list_elem_of_singleton in He as ->. done.
    + exfalso. destruct Halready as [(i & p0 & Hi & Hrid)|(r0 & Hin & Hrid)].
      * rewrite Hp1 in Hf.
        by apply (proj1 (find_by_referred_None _ _) Hf i p0 Hi).
      * rewrite Hr1 in Hg.
        by apply (proj1 (find_ref_None _ _) Hg r0 Hin).
Qed.

End FirstReferrer.

Lemma first_referrer_wins_witness :
  one_referral_per_referred empty_db /\
  one_referral_per_referred
    (run default_config
       (erin_requests ++ [Start frank "/start ref_e" "ref_f" 20]) empty_db) /\
  already_referred db_referrals (from_id frank) /\
  pending (step default_config (Start frank "/start ref_e" "ref_z" 40)
             db_referrals) = pending db_referrals.
Proof.
  assert (H1 : one_referral_per_referred empty_db).
  { intros i j p q Hi.
    change (pending empty_db) with (∅ : gmap N pendingDoc) in Hi.
    by rewrite lookup_empty in Hi. }
  assert (H2 : already_referred db_referrals (from_id frank)).
  { left. exists 1%N, referred_by_erin. split; reflexivity. }
  split; [exact H1|]. split; [|split; [exact H2|]].
  - exact (proj1 (first_referrer_wins default_config) _ empty_db H1).
  - exact (proj1 (proj2 (first_referrer_wins default_config) frank
                    "/start ref_e"%string "ref_z"%string 40 db_referrals H2)).
Defined.

(** ** At most one credit per referral *)

(** C1, as stated, fails on its reason and on what it draws from it.  The
    update that moves a referral out of pending is keyed on [_id] alone, so
    it does not fail on a document that is no longer pending.  Two passes
    that have both read the pending referral 1 before either handles it work
    on the same list [found]: the first credits account 7 and confirms the
    referral, the second, on the referral already confirmed, credits account
    7 again and rewrites [confirmedAt]. *)
Lemma stale_pass_credits_again :
  let found := selected default_config true 30 db_one_referral in
  let first := confirm_loop default_config 30 found in
  let second := confirm_loop default_config 31 found in
  let s1 := final first db_one_referral in
  let s2 := final second s1 in
  found = [(1%N, referred_by_erin)] /\
  value first db_one_referral = Returned (mkSummary [1%N] []) /\
  (p_status <$> pending s1 !! 1%N) = Some RConfirmed /\
  value second s1 = Returned (mkSummary [1%N] []) /\
  (confirmedAt <$> pending s2 !! 1%N) = Some (Some 31) /\
  (balance <$> users db_one_referral !! 7) = Some 100%Q /\
  (exists u2, users s2 !! 7 = Some u2 /\
     (balance u2 == 100 + 2 * REFERRAL_REWARD default_config)%Q /\
     confirmedReferrals u2 = 2).
Proof.
  cbn zeta. repeat split; try (vm_compute; reflexivity).
  eexists. split; [vm_compute; reflexivity|]. split; reflexivity.
Qed.

Section OneCredit.

Context (cfg : config).

Lemma settled_step (u : update) (s : db) (i : N) :
  settled s i -> settled (step cfg u s) i.
Proof.
  intros (p & Hp & Hnp). destruct (pass_of cfg u s) as [[force now]|] eqn:Hpass.
  - rewrite (pass_of_step cfg u force now s Hpass).
    destruct (before_command_keeps cfg u force now s Hpass) as (Hp1 & _).
    destruct (pass_run cfg force now (before_command cfg u s))
      as (sum & _ & _ & _ & Hdoc).
    specialize (Hdoc i). rewrite Hp1, Hp in Hdoc.
    destruct (pending (final _ (before_command cfg u s)) !! i) as [p'|] eqn:Hp';
      [|done].
    destruct Hdoc as (_ & _ & Hkeep). exists p'. split; [done|]. by apply Hkeep.
  - unfold settled.
    destruct (quiet_step_pending cfg u s Hpass) as [Hst|(p0 & _ & _ & Hst)];
      rewrite Hst; [by exists p|].
    exists p. split; [|done]. rewrite lookup_insert_ne; [done|].
    intros Heq. assert (Hin : i ∈ dom (pending s)) by (apply elem_of_dom; eauto).
    rewrite <- Heq in Hin. by apply is_fresh in Hin.
Qed.

(** What a pass reports as confirmed: each [_id] once, pending before the
    pass and settled after it. *)
Lemma confirmed_by_spec (u : update) (s : db) :
  NoDup (confirmed_by cfg u s) /\
  forall i, i ∈ confirmed_by cfg u s ->
    (exists p, pending s !! i = Some p /\ p_status p = RPending) /\
    settled (step cfg u s) i.
Proof.
  unfold confirmed_by. destruct (pass_of cfg u s) as [[force now]|] eqn:Hpass.
  - rewrite (pass_of_step cfg u force now s Hpass).
    destruct (before_command_keeps cfg u force now s Hpass) as (Hp1 & _).
    destruct (pass_run cfg force now (before_command cfg u s))
      as (sum & -> & Hnd & Hin & _).
    rewrite Hp1 in Hin. split; done.
  - split; [apply NoDup_nil_2|]. intros i Hi. by apply elem_of_nil in Hi.
Qed.

Lemma settled_never_credited (i : N) (us : list update) (s : db) :
  settled s i -> credits cfg i us s = 0%nat.
Proof.
  revert s. induction us as [|u us IH]; intros s Hs; [done|].
  cbn. rewrite (IH _ (settled_step u s i Hs)).
  destruct (confirmed_by_spec u s) as [_ Hin].
  rewrite (proj1 (count_occ_not_In N.eq_dec _ _)); [done|].
  intros Hi%list_elem_of_In. destruct (Hin i Hi) as [(p & Hp & Hst) _].
  destruct Hs as (p' & Hp' & Hnp). congruence.
Qed.

(** C1, amended.  The loop body credits the referrer exactly when it reports
    the referral confirmed; a pass reports as confirmed only referrals it
    found pending, each once, and leaves them out of pending when it ends,
    by an update keyed on the [_id] alone.  So updates handled one after the
    other, whatever they are and however many passes they run, credit the
    reward of a given referral at most once. *)
Theorem sequential_passes_credit_once :
  (forall now i p acc s,
     exists sum' s' ev,
       confirm_one cfg now (i, p) acc s = (Returned sum', s', ev) /\
       ((sum' = push_confirmed i acc /\
         is_Some (users s !! referrerId p) /\
         users s' = alter (credit_referrer cfg) (referrerId p) (users s) /\
         pending s' = alter (mark_confirmed now) i (pending s))
        \/ (sum' = push_invalidated i acc /\ users s' = users s))) /\
  (forall u s i, i ∈ confirmed_by cfg u s ->
     (exists p, pending s !! i = Some p /\ p_status p = RPending) /\
     settled (step cfg u s) i) /\
  (forall i us s, (credits cfg i us s <= 1)%nat).
Proof.
  split; [|split].
  - intros now i p acc s.
    destruct (confirm_one_step cfg now i p acc s)
      as (sum' & s' & ev & g & Hrun & _ & Hp & Hcase).
    exists sum', s', ev. split; [done|].
    destruct Hcase as [(-> & -> & _ & Hr & Hu)|(-> & Hu & _)]; [left|right];
      done.
  - intros u s. apply confirmed_by_spec.
  - intros i us. induction us as [|u us IH]; intros s; cbn; [lia|].
    destruct (confirmed_by_spec u s) as [Hnd Hin].
    apply NoDup_ListNoDup in Hnd.
    pose proof (proj1 (NoDup_count_occ N.eq_dec _) Hnd i) as Hle.
    destruct (count_occ N.eq_dec (confirmed_by cfg u s) i) as [|n] eqn:Hc.
    + apply IH.
    + assert (Hi : i ∈ confirmed_by cfg u s).
      { apply list_elem_of_In. apply (count_occ_In N.eq_dec). lia. }
      destruct (Hin i Hi) as [_ Hset].
      rewrite (settled_never_credited i us _ Hset). lia.
Qed.

End OneCredit.

Lemma sequential_passes_credit_once_witness :
  let us := [ AdminConfirmButton admin 30; Sweep 31;
              AdminConfirm admin "/admin_confirm force" "ref_a" 32 ] in
  1%N ∈ confirmed_by default_config (AdminConfirmButton admin 30)
          db_one_referral /\
  settled (step default_config (AdminConfirmButton admin 30) db_one_referral)
    1%N /\
  credits default_config 1%N us db_one_referral = 1%nat /\
  (credits default_config 1%N us db_one_referral <= 1)%nat.
Proof.
  cbn zeta.
  assert (H : 1%N ∈ confirmed_by default_config (AdminConfirmButton admin 30)
                db_one_referral).
  { vm_compute. apply list_elem_of_In. left. reflexivity. }
  split; [exact H|]. split; [|split].
  - exact (proj2 (proj1 (proj2 (sequential_passes_credit_once default_config))
                    _ db_one_referral 1%N H)).
  - vm_compute. reflexivity.
  - exact (proj2 (proj2 (sequential_passes_credit_once default_config))
             1%N _ db_one_referral).
Defined.

(** ** Keywords and payout targets *)

Lemma span_local_app (l : list ascii) :
  forall a b, span_local l = (a, b) ->
    l = a ++ b /\ forallb is_local a = true /\
    match b with c :: _ => is_local c = false | [] => True end.
Proof.
  induction l as [|c l IH]; intros a b; cbn.
  - intros [= <- <-]. done.
  - destruct (is_local c) eqn:Hc.
    + destruct (span_local l) as [a' b'] eqn:Hs. intros [= <- <-].
      destruct (IH a' b' eq_refl) as (-> & Ha & Hb).
      cbn [forallb app]. by rewrite Hc, Ha.
    + intros [= <- <-]. done.
Qed.

Lemma span_local_stops (loc rest : list ascii) :
  forallb is_local loc = true ->
  match rest with c :: _ => is_local c = false | [] => True end ->
  span_local (loc ++ rest) = (loc, rest).
Proof.
  intros Hloc Hrest. induction loc as [|c loc IH]; cbn [app span_local].
  - destruct rest as [|c rest]; [done|]. cbn [span_local]. by rewrite Hrest.
  - cbn [forallb] in Hloc. apply andb_true_iff in Hloc as [Hc Hloc].
    by rewrite Hc, (IH Hloc).
Qed.

Lemma toLowerCase_list (s : string) :
  list_ascii_of_string (toLowerCase s) = map lower_ascii (list_ascii_of_string s).
Proof. induction s as [|c s IH]; cbn; [done|]. by rewrite IH. Qed.

Lemma lower_ascii_at (c : ascii) :
  lower_ascii c = "@"%char -> c = "@"%char.
Proof.
  destruct c as [[] [] [] [] [] [] [] []]; vm_compute; congruence.
Qed.

Lemma lower_ascii_idem (c : ascii) : lower_ascii (lower_ascii c) = lower_ascii c.
Proof. by destruct c as [[] [] [] [] [] [] [] []]. Qed.

Lemma accepted_upi_has_at (text : string) :
  UPI_REGEX_test text = true ->
  exists loc dom, list_ascii_of_string text = loc ++ "@"%char :: dom /\
                  (2 <= length loc)%nat.
Proof.
  unfold UPI_REGEX_test.
  destruct (span_local (list_ascii_of_string text)) as [loc rest] eqn:Hs.
  destruct (span_local_app _ _ _ Hs) as (Heq & _).
  intros [Hlen Hrest]%andb_true_iff. destruct rest as [|c dom]; [done|].
  apply andb_true_iff in Hrest as [[Hc _]%andb_true_iff _].
  apply Ascii.eqb_eq in Hc as ->. apply Nat.leb_le in Hlen.
  by exists loc, dom.
Qed.

Lemma accepted_upi_is_no_keyword (text : string) :
  UPI_REGEX_test text = true ->
  String.eqb (toLowerCase text) "cancel" = false /\
  String.eqb (toLowerCase text) "confirm" = false /\
  truthy (Some text) = true.
Proof.
  intros (loc & dom & Heq & Hlen)%accepted_upi_has_at.
  assert (Hat : In "@"%char (list_ascii_of_string (toLowerCase text))).
  { rewrite toLowerCase_list, Heq, map_app. apply in_or_app. right. by left. }
  repeat split.
  - apply String.eqb_neq. intros Hk. rewrite Hk in Hat. cbn in Hat.
    repeat (destruct Hat as [Hat|Hat]; [discriminate Hat|]). done.
  - apply String.eqb_neq. intros Hk. rewrite Hk in Hat. cbn in Hat.
    repeat (destruct Hat as [Hat|Hat]; [discriminate Hat|]). done.
  - cbn. destruct text; [|done]. destruct loc; cbn in Heq; discriminate Heq.
Qed.

Lemma list_ascii_of_string_app (a b : string) :
  list_ascii_of_string (a ++ b) = list_ascii_of_string a ++ list_ascii_of_string b.
Proof. induction a as [|c a IH]; simpl; [done|]. by rewrite IH. Qed.

Ltac in_list :=
  repeat first [apply list_elem_of_here | apply list_elem_of_further].

(** Each white-space character is measured by [white_bytes], in front of any
    text, and by [white_bytes_rev] when reversed. *)
Lemma white_space_measured :
  Forall (fun t => forall l,
            white_bytes (t ++ l) = length t /\
            white_bytes_rev (rev t ++ l) = length t /\ (0 < length t)%nat)
         white_space.
Proof.
  unfold white_space. cbn.
  repeat (apply Forall_cons; split;
          [intros l; split; [reflexivity|split; [reflexivity|cbn; lia]]|]).
  by apply Forall_nil.
Qed.

Lemma white_space_at (t l : list ascii) :
  t ∈ white_space ->
  white_bytes (t ++ l) = length t /\
  white_bytes_rev (rev t ++ l) = length t /\ (0 < length t)%nat.
Proof.
  intros Ht. exact (proj1 (Forall_forall _ _) white_space_measured t Ht l).
Qed.

Lemma byte_is_eq (n : nat) (c : ascii) : byte_is n c = true -> c = ascii_of_nat n.
Proof.
  unfold byte_is. intros <-%Nat.eqb_eq. by rewrite ascii_nat_embedding.
Qed.

Lemma is_space_inv (c : ascii) : is_space c = true -> [c] ∈ white_space.
Proof.
  unfold is_space. cbn zeta. intros H. rewrite <- (ascii_nat_embedding c).
  revert H. generalize (nat_of_ascii c). intros n.
  rewrite orb_true_iff, andb_true_iff, Nat.eqb_eq, !Nat.leb_le. intros H.
  assert (Hn : (n = 9 \/ n = 10 \/ n = 11 \/ n = 12 \/ n = 13 \/ n = 32)%nat)
    by lia.
  unfold white_space. cbn.
  repeat (destruct Hn as [->|Hn]; [in_list|]). subst n. in_list.
Qed.

Lemma white3_inv (a b c : ascii) : white3 a b c = true -> [a; b; c] ∈ white_space.
Proof.
  unfold white3. cbn zeta. intros H. rewrite <- (ascii_nat_embedding c).
  assert (Hc : forall n, byte_is n c = true -> nat_of_ascii c = n).
  { intros n. unfold byte_is. by intros ?%Nat.eqb_eq. }
  revert H Hc. generalize (nat_of_ascii c). intros z H Hc. revert H.
  repeat (rewrite orb_true_iff || rewrite andb_true_iff).
  rewrite !Nat.eqb_eq, !Nat.leb_le.
  unfold white_space. cbn.
  intros [[[[[[Ha Hb] Hz]|[[Ha Hb] Hz]]|[[Ha Hb] Hz]]|[[Ha Hb] Hz]]|[[Ha Hb] Hz]];
    apply byte_is_eq in Ha as ->; apply byte_is_eq in Hb as ->;
    try (apply Hc in Hz as <-; in_list).
  assert (Hn : (z = 128 \/ z = 129 \/ z = 130 \/ z = 131 \/ z = 132 \/ z = 133
                \/ z = 134 \/ z = 135 \/ z = 136 \/ z = 137 \/ z = 138
                \/ z = 168 \/ z = 169 \/ z = 175)%nat) by lia.
  repeat (destruct Hn as [->|Hn]; [in_list|]). subst z. in_list.
Qed.

Lemma white_bytes_inv (l : list ascii) (k : nat) :
  white_bytes l = S k ->
  exists t rest, t ∈ white_space /\ l = t ++ rest /\ length t = S k.
Proof.
  destruct l as [|a l1]; [done|]. cbn [white_bytes].
  destruct (is_space a) eqn:Ha.
  { intros [= <-]. exists [a], l1. by split; [apply is_space_inv|]. }
  destruct l1 as [|b l2]; [done|].
  destruct (byte_is 194 a && byte_is 160 b) eqn:Hab.
  { intros [= <-]. apply andb_true_iff in Hab as [->%byte_is_eq ->%byte_is_eq].
    exists [ascii_of_nat 194; ascii_of_nat 160], l2.
    split; [|done]. unfold white_space. cbn. in_list. }
  destruct l2 as [|c l3]; [done|]. destruct (white3 a b c) eqn:Hw; [|done].
  intros [= <-]. exists [a; b; c], l3. by split; [apply white3_inv|].
Qed.

Lemma white_bytes_rev_inv (l : list ascii) (k : nat) :
  white_bytes_rev l = S k ->
  exists t rest, t ∈ white_space /\ l = rev t ++ rest /\ length t = S k.
Proof.
  destruct l as [|c l1]; [done|]. cbn [white_bytes_rev].
  destruct (is_space c) eqn:Hc.
  { intros [= <-]. exists [c], l1. by split; [apply is_space_inv|]. }
  destruct l1 as [|b l2]; [done|].
  destruct (byte_is 194 b && byte_is 160 c) eqn:Hab.
  { intros [= <-]. apply andb_true_iff in Hab as [->%byte_is_eq ->%byte_is_eq].
    exists [ascii_of_nat 194; ascii_of_nat 160], l2.
    split; [|done]. unfold white_space. cbn. in_list. }
  destruct l2 as [|a l3]; [done|]. destruct (white3 a b c) eqn:Hw; [|done].
  intros [= <-]. exists [a; b; c], l3. by split; [apply white3_inv|].
Qed.

(** The first byte of a white-space character is no later byte of one. *)
Lemma white_space_bytes :
  Forall (fun t => match t with
                   | [] => False
                   | c :: l => first_byte c = true /\ existsb first_byte l = false
                   end) white_space.
Proof.
  unfold white_space. cbn.
  repeat (apply Forall_cons; split; [split; reflexivity|]).
  by apply Forall_nil.
Qed.

Lemma strip_blank (size : list ascii -> nat) (ts : list (list ascii))
    (l : list ascii) (fuel : nat) :
  Forall (fun t => forall l', size (t ++ l') = length t /\ (0 < length t)%nat) ts ->
  size l = 0%nat -> (length ts <= fuel)%nat ->
  strip size fuel (concat ts ++ l) = l.
Proof.
  intros Hts Hl. revert fuel. induction Hts as [|t ts Ht Hts IH]; intros fuel Hf.
  - cbn [concat app]. destruct fuel; [done|]. cbn [strip]. by rewrite Hl.
  - destruct fuel as [|fuel]; [cbn in Hf; lia|]. cbn [concat strip].
    rewrite <- app_assoc. destruct (Ht (concat ts ++ l)) as [-> Hpos].
    destruct (length t) as [|k] eqn:Hk; [lia|].
    rewrite <- Hk, skipn_app, skipn_all, Nat.sub_diag. cbn [app skipn].
    apply IH. cbn in Hf. lia.
Qed.

Lemma concat_length_le (ts : list (list ascii)) :
  Forall (fun t => 0 < length t)%nat ts -> (length ts <= length (concat ts))%nat.
Proof.
  induction 1 as [|t ts Ht Hts IH]; [done|]. cbn. rewrite length_app. lia.
Qed.

Lemma trimmed_by_measure (l : list ascii) :
  white_bytes l = 0%nat -> white_bytes_rev (rev l) = 0%nat -> trimmed l.
Proof.
  intros H1 H2 t rest Ht. split; intros ->.
  - destruct (white_space_at t rest Ht) as (E & _ & Hpos). lia.
  - rewrite rev_app_distr in H2.
    destruct (white_space_at t (rev rest) Ht) as (_ & E & Hpos). lia.
Qed.

Lemma trimmed_measure (l : list ascii) :
  trimmed l -> white_bytes l = 0%nat /\ white_bytes_rev (rev l) = 0%nat.
Proof.
  intros Hl. split.
  - destruct (white_bytes l) as [|k] eqn:E; [done|].
    destruct (white_bytes_inv l k E) as (t & rest & Ht & Heq & _).
    by destruct (Hl t rest Ht) as [H _].
  - destruct (white_bytes_rev (rev l)) as [|k] eqn:E; [done|].
    destruct (white_bytes_rev_inv (rev l) k E) as (t & rest & Ht & Heq & _).
    destruct (Hl t (rev rest) Ht) as [_ H]. exfalso. apply H.
    by rewrite <- (rev_involutive l), Heq, rev_app_distr, rev_involutive.
Qed.

(** White space after a text that does not start with a white-space character
    makes no such character at its start. *)
Lemma trimmed_start (l b : list ascii) :
  trimmed l -> l <> [] -> blank b -> white_bytes (l ++ b) = 0%nat.
Proof.
  intros Hl Hne (ts & Hts & ->).
  destruct (white_bytes (l ++ concat ts)) as [|k] eqn:E; [done|]. exfalso.
  destruct (white_bytes_inv _ k E) as (t & rest & Ht & Heq & _).
  apply app_eq_app in Heq as [l' [[H1 H2]|[H1 H2]]].
  { by destruct (Hl t l' Ht) as [H _]. }
  destruct l' as [|x l'].
  { rewrite app_nil_r in H1. subst t. destruct (Hl l [] Ht) as [H _].
    apply H. by rewrite app_nil_r. }
  destruct l as [|c l]; [done|]. subst t.
  pose proof (proj1 (Forall_forall _ _) white_space_bytes _ Ht) as [_ Hlater].
  cbn [app] in Hlater. rewrite existsb_app in Hlater. cbn [existsb] in Hlater.
  assert (Hx : first_byte x = true).
  { clear -Hts H2. induction Hts as [|t ts Ht Hts IH]; [done|].
    pose proof (proj1 (Forall_forall _ _) white_space_bytes _ Ht) as Hb.
    destruct t as [|y t]; [done|]. cbn in H2. injection H2 as -> _.
    by destruct Hb. }
  rewrite Hx in Hlater. cbn in Hlater.
  by rewrite orb_true_r in Hlater.
Qed.

Lemma rev_blank (ts : list (list ascii)) :
  Forall (fun t => t ∈ white_space) ts ->
  exists ts', rev (concat ts) = concat ts' /\
    Forall (fun t => forall l, white_bytes_rev (t ++ l) = length t
                               /\ (0 < length t)%nat) ts'.
Proof.
  induction 1 as [|t ts Ht Hts (ts' & Heq & IH)].
  - by exists [].
  - exists (ts' ++ [rev t]). split.
    + cbn [concat]. rewrite rev_app_distr, Heq, concat_app. cbn.
      by rewrite app_nil_r.
    + apply Forall_app. split; [done|]. apply Forall_cons. split; [|done].
      intros l. destruct (white_space_at t l Ht) as (_ & E & Hpos).
      by rewrite length_rev.
Qed.

Lemma trim_blank_around (a l b : list ascii) :
  blank a -> blank b -> trimmed l ->
  rev (trimEnd_rev (rev (trimStart (a ++ l ++ b)))) = l.
Proof.
  intros (ts1 & Hts1 & ->) Hb Hl.
  assert (Hfront : forall ts, Forall (fun t => t ∈ white_space) ts ->
            Forall (fun t => forall l', white_bytes (t ++ l') = length t
                                        /\ (0 < length t)%nat) ts).
  { intros ts Hts. eapply Forall_impl; [exact Hts|]. intros t Ht l'.
    by destruct (white_space_at t l' Ht) as (E & _ & Hpos). }
  assert (Hlen : forall (size : list ascii -> nat) ts,
            Forall (fun t => forall l', size (t ++ l') = length t
                                        /\ (0 < length t)%nat) ts ->
            (length ts <= length (concat ts))%nat).
  { intros size ts Hts. apply concat_length_le.
    eapply Forall_impl; [exact Hts|]. intros t Ht. by destruct (Ht []). }
  destruct l as [|c l].
  - cbn [app]. destruct Hb as (ts2 & Hts2 & ->).
    rewrite <- concat_app, <- (app_nil_r (concat (ts1 ++ ts2))).
    unfold trimStart. rewrite strip_blank; [done| |done|].
    + apply Hfront. by apply Forall_app.
    + rewrite app_nil_r. eapply Hlen, Hfront. by apply Forall_app.
  - pose proof (trimmed_start (c :: l) b Hl ltac:(done) Hb) as Hs.
    destruct (trimmed_measure _ Hl) as [_ He].
    unfold trimStart. rewrite strip_blank; [|by apply Hfront|done|].
    2:{ rewrite length_app. pose proof (Hlen _ ts1 (Hfront ts1 Hts1)). lia. }
    destruct Hb as (ts2 & Hts2 & ->). rewrite rev_app_distr.
    destruct (rev_blank ts2 Hts2) as (ts' & -> & Hts').
    unfold trimEnd_rev. rewrite strip_blank; [|done|done|].
    2:{ rewrite length_app. pose proof (Hlen _ ts' Hts'). lia. }
    apply rev_involutive.
Qed.

(** X1.  [UPI_REGEX.test] accepts exactly the texts made of a local part of
    two characters or more among letters, digits, underscore, dot and hyphen,
    an at sign, and two letters or more up to the end of the text. *)
Theorem UPI_REGEX_accepts_the_pattern (text : string) :
  UPI_REGEX_test text = true <->
  exists loc dom,
    list_ascii_of_string text = loc ++ "@"%char :: dom /\
    (2 <= length loc)%nat /\ forallb is_local loc = true /\
    (2 <= length dom)%nat /\ forallb is_alpha dom = true.
Proof.
  unfold UPI_REGEX_test. split.
  - destruct (span_local (list_ascii_of_string text)) as [loc rest] eqn:Hs.
    destruct (span_local_app _ _ _ Hs) as (Heq & Hloc & _).
    intros [Hlen Hrest]%andb_true_iff. destruct rest as [|c dom]; [done|].
    apply andb_true_iff in Hrest as [[Hc Hd]%andb_true_iff Ha].
    apply Ascii.eqb_eq in Hc as ->. apply Nat.leb_le in Hlen, Hd.
    by exists loc, dom.
  - intros (loc & dom & -> & Hlen & Hloc & Hd & Ha).
    rewrite (span_local_stops loc ("@"%char :: dom) Hloc eq_refl).
    apply Nat.leb_le in Hlen, Hd. by rewrite Hlen, Hd, Ha.
Qed.


(** X2.  The three readings the dialogues give to a text exclude each other:
    a text that [UPI_REGEX] accepts, once lowered, is neither the cancel nor
    the confirm keyword, and it is not empty; so the order in which the handler
    tests "cancel", "confirm" and the pattern does not matter. *)
Theorem keywords_are_no_payout_targets (text : string) :
  UPI_REGEX_test (trim text) = true ->
  ~ is_cancel text /\ ~ is_confirm text /\ trim text <> EmptyString.
Proof.
  intros Hupi. destruct (accepted_upi_is_no_keyword _ Hupi) as (Hc & Hk & Ht).
  unfold is_cancel, is_confirm. split; [|split].
  - intros Heq. rewrite Heq in Hc. discriminate Hc.
  - intros Heq. rewrite Heq in Hk. discriminate Hk.
  - intros Heq. rewrite Heq in Ht. discriminate Ht.
Qed.

(** X3.  The text handler reads a text message without the white space
    around it ([ctx.message.text.trim()]): a text that neither starts nor ends
    with a white-space character, sent with white-space characters of any kind
    before and after it (the ASCII ones, the no-break space, the other Unicode
    spaces, the line and paragraph separators, the byte order mark), is
    trimmed to the text itself, and the handler does with the message what it
    does with the text alone. *)
Theorem text_handler_ignores_surrounding_space (cfg : config) (from : sender)
    (a core b : string) (code : string) (now : Z) :
  blank (list_ascii_of_string a) -> blank (list_ascii_of_string b) ->
  trimmed (list_ascii_of_string core) ->
  trim (a ++ core ++ b) = core /\
  handle cfg (Text from (a ++ core ++ b) code now)
  = handle cfg (Text from core code now).
Proof.
  intros Ha Hb Hcore.
  assert (Htrim : forall a b, blank (list_ascii_of_string a) ->
            blank (list_ascii_of_string b) -> trim (a ++ core ++ b) = core).
  { intros a' b' Ha' Hb'. unfold trim.
    rewrite <- (string_of_list_ascii_of_string core) at 2. f_equal.
    rewrite !list_ascii_of_string_app.
    by apply trim_blank_around. }
  split; [by apply Htrim|].
  cbn [handle]. unfold on_text. rewrite (Htrim a b Ha Hb).
  assert (He : blank []) by (by exists []).
  pose proof (trim_blank_around [] _ [] He He Hcore) as H0.
  cbn [app] in H0. rewrite app_nil_r in H0. unfold trim.
  by rewrite H0, string_of_list_ascii_of_string.
Qed.

Lemma text_handler_ignores_surrounding_space_witness :
  let a := string_of_list_ascii (map ascii_of_nat [32; 194; 160; 10]%nat) in
  let b := string_of_list_ascii (map ascii_of_nat [226; 128; 131; 239; 187; 191; 9]%nat) in
  blank (list_ascii_of_string a) /\ blank (list_ascii_of_string b) /\
  trimmed (list_ascii_of_string "Can cel") /\
  trim (a ++ "Can cel" ++ b) = "Can cel"%string /\
  handle default_config (Text erin (a ++ "Can cel" ++ b) "ref_e" 5)
  = handle default_config (Text erin "Can cel" "ref_e" 5).
Proof.
  intros a b.
  assert (Ha : blank (list_ascii_of_string a)).
  { exists (map (map ascii_of_nat) [[32]; [194; 160]; [10]]%nat).
    split; [|reflexivity]. unfold white_space. cbn.
    repeat (apply Forall_cons; split; [in_list|]). by apply Forall_nil. }
  assert (Hb : blank (list_ascii_of_string b)).
  { exists (map (map ascii_of_nat) [[226; 128; 131]; [239; 187; 191]; [9]]%nat).
    split; [|reflexivity]. unfold white_space. cbn.
    repeat (apply Forall_cons; split; [in_list|]). by apply Forall_nil. }
  assert (Hc : trimmed (list_ascii_of_string "Can cel"))
    by (by apply trimmed_by_measure).
  split; [exact Ha|]. split; [exact Hb|]. split; [exact Hc|].
  exact (text_handler_ignores_surrounding_space default_config erin
           a "Can cel" b "ref_e" 5 Ha Hb Hc).
Defined.

Lemma keywords_are_no_payout_targets_witness :
  UPI_REGEX_test (trim " erin@bank ") = true /\
  ~ is_cancel " erin@bank " /\ ~ is_confirm " erin@bank " /\
  trim " erin@bank " <> EmptyString.
Proof.
  split; [reflexivity|].
  exact (keywords_are_no_payout_targets " erin@bank " eq_refl).
Defined.

Lemma UPI_REGEX_accepts_the_pattern_witness :
  UPI_REGEX_test "na.me-1@bank" = true /\
  exists loc dom,
    list_ascii_of_string "ab@cd" = loc ++ "@"%char :: dom /\
    (2 <= length loc)%nat /\ forallb is_local loc = true /\
    (2 <= length dom)%nat /\ forallb is_alpha dom = true.
Proof.
  split.
  - apply (proj2 (UPI_REGEX_accepts_the_pattern "na.me-1@bank")).
    exists (list_ascii_of_string "na.me-1"), (list_ascii_of_string "bank").
    repeat split; cbn; lia.
  - exact (proj1 (UPI_REGEX_accepts_the_pattern "ab@cd") eq_refl).
Defined.

(** ** The dialogues, text by text *)

Section Dialogues.

Context (cfg : config).

Lemma text_step (from : sender) (text code : string) (now : Z) (s : db)
    (u : user) :
  users s !! from_id from = Some u ->
  step cfg (Text from text code now) s
  = final (dialogue cfg (from_id from) u (trim text) now) s /\
  events (handle cfg (Text from text code now)) s
  = DbRead Users :: events (dialogue cfg (from_id from) u (trim text) now) s.
Proof.
  intros Hu. unfold step, final, events. cbn [handle].
  rewrite (on_text_found cfg from text code now _ s u Hu).
  destruct (dialogue_run cfg (from_id from) u (trim text) now s)
    as (s' & ev & Hd & Hidle).
  unfold final, events. rewrite Hd. destruct (in_dialogue u); cbn; [done|].
  by destruct (Hidle eq_refl) as [-> ->].
Qed.

(** What the command or the button of payout-target setup leaves in the
    account: the stored document, at most renamed, with the setup flag. *)
Lemma setupi_step (via : entry) (from : sender) (code : string) (now : Z)
    (s : db) (u : user) :
  users s !! from_id from = Some u ->
  exists u1, renamed u u1 /\
    users (step cfg (Setupi via from code now) s)
    = <[from_id from := set_draftUpiSetup None (set_awaitingUpiSetup true u1)]>
        (users s) /\
    withdrawals (step cfg (Setupi via from code now) s) = withdrawals s /\
    pending (step cfg (Setupi via from code now) s) = pending s /\
    refs (step cfg (Setupi via from code now) s) = refs s.
Proof.
  intros Hu.
  destruct (ensureUserProfile_run from code now s)
    as (r & s1 & l & Hrun & Hp & Hw & Hr & Hus).
  rewrite Hu in Hus. destruct Hus as (u1 & -> & Hren & Hus).
  exists u1. split; [done|].
  unfold step. cbn. unfold on_setupi. rewrite final_entered, final_bind, Hrun.
  unfold startUpiSetup, final. cbn. rewrite Hus.
  repeat split; try done.
  apply map_eq. intros t. destruct (decide (t = from_id from)) as [->|Hne].
  - by rewrite lookup_alter_eq, !lookup_insert_eq.
  - by rewrite lookup_alter_ne, !lookup_insert_ne.
Qed.

(** X4.  Payout-target setup, from start to end: an account that runs
    [/setupi] (or taps the button), sends a text that [UPI_REGEX] accepts and
    then the confirm keyword has that text, trimmed, as its saved payout
    target, no longer needs setup, and is out of the setup dialogue; its
    balance, its locked amount, the withdrawal dialogue and the other
    collections are as before. *)
Theorem setup_saves_the_confirmed_target (via : entry) (from : sender)
    (code1 code2 code3 : string) (now1 now2 now3 : Z) (target word : string)
    (s : db) (u : user) :
  users s !! from_id from = Some u ->
  UPI_REGEX_test (trim target) = true ->
  is_confirm word ->
  let s3 := run cfg [ Setupi via from code1 now1;
                      Text from target code2 now2;
                      Text from word code3 now3 ] s in
  exists u3, users s3 !! from_id from = Some u3 /\
    primaryUPI u3 = Some (trim target) /\ needsUpiSetup u3 = false /\
    awaitingUpiSetup u3 = false /\ draftUpiSetup u3 = None /\
    balance u3 = balance u /\ balanceLocked u3 = balanceLocked u /\
    awaitingWithdrawUPI u3 = awaitingWithdrawUPI u /\
    draftWithdrawUPI u3 = draftWithdrawUPI u /\
    awaitingSupportMessage u3 = awaitingSupportMessage u /\
    (forall t, t <> from_id from -> users s3 !! t = users s !! t) /\
    withdrawals s3 = withdrawals s /\ pending s3 = pending s /\
    refs s3 = refs s.
Proof.
  intros Hu Hupi Hword. cbn [run fold_left].
  destruct (setupi_step via from code1 now1 s u Hu)
    as (u1 & (a & b & ->) & Hus1 & Hw1 & Hp1 & Hr1).
  set (s1 := step cfg (Setupi via from code1 now1) s) in *.
  set (d1 := set_draftUpiSetup None
               (set_awaitingUpiSetup true (set_first_name a (set_username b u)))) in *.
  assert (Hd1 : users s1 !! from_id from = Some d1)
    by by rewrite Hus1, lookup_insert_eq.
  destruct (accepted_upi_is_no_keyword _ Hupi) as (Hnc & Hnk & Htruthy).
  (* the text that is the target *)
  destruct (text_step from target code2 now2 s1 d1 Hd1) as [Hs2 _].
  unfold dialogue, final in Hs2. cbn in Hs2.
  rewrite Hnc, Hnk, Hupi in Hs2. cbn in Hs2.
  set (s2 := step cfg (Text from target code2 now2) s1) in *.
  set (d2 := set_draftUpiSetup (Some (trim target)) d1).
  assert (Hd2 : users s2 !! from_id from = Some d2).
  { rewrite Hs2. cbn. by rewrite lookup_alter_eq, Hd1. }
  (* the confirm keyword *)
  destruct (text_step from word code3 now3 s2 d2 Hd2) as [Hs3 _].
  unfold dialogue, final in Hs3. cbn in Hs3.
  unfold is_confirm in Hword. rewrite Hword in Hs3. cbn in Hs3.
  cbn in Htruthy. rewrite Htruthy in Hs3. cbn in Hs3.
  rewrite Hs3. cbn. rewrite lookup_alter_eq, Hd2. cbn.
  eexists. split; [reflexivity|]. cbn.
  repeat split; try done.
  - intros t Ht. rewrite lookup_alter_ne by done. rewrite Hs2. cbn.
    rewrite lookup_alter_ne by done. rewrite Hus1.
    by rewrite lookup_insert_ne.
  - rewrite Hs2. done.
  - rewrite Hs2. done.
  - rewrite Hs2. done.
Qed.

(** X5.  In the setup dialogue the handler refuses what it cannot use and
    cancels on request: the cancel keyword closes the dialogue and keeps the
    saved target; the confirm keyword without a captured target, and a text
    that is neither a keyword nor accepted by [UPI_REGEX], change nothing.
    And whatever the text, the setup dialogue comes first: the balance, the
    locked amount, the withdrawal dialogue and [withdrawals] are not
    touched. *)
Theorem setup_dialogue_refuses_and_cancels (from : sender) (text code : string)
    (now : Z) (s : db) (u : user) :
  users s !! from_id from = Some u ->
  awaitingUpiSetup u = true ->
  let s' := step cfg (Text from text code now) s in
  let ev := events (handle cfg (Text from text code now)) s in
  (is_cancel text ->
     users s' !! from_id from
       = Some (set_draftUpiSetup None (set_awaitingUpiSetup false u)) /\
     ev = [DbRead Users; DbWrite Users; Reply UpiSetupCancelled]) /\
  (is_confirm text -> truthy (draftUpiSetup u) = false ->
     s' = s /\ ev = [DbRead Users; Reply SendUpiFirst]) /\
  (~ is_cancel text -> ~ is_confirm text ->
     UPI_REGEX_test (trim text) = false ->
     s' = s /\ ev = [DbRead Users; Reply InvalidUpiSetup]) /\
  (withdrawals s' = withdrawals s /\ pending s' = pending s /\
   refs s' = refs s /\
   (forall t, t <> from_id from -> users s' !! t = users s !! t) /\
   exists u', users s' !! from_id from = Some u' /\
     balance u' = balance u /\ balanceLocked u' = balanceLocked u /\
     awaitingWithdrawUPI u' = awaitingWithdrawUPI u /\
     awaitingWithdrawUPIConfirm u' = awaitingWithdrawUPIConfirm u /\
     draftWithdrawUPI u' = draftWithdrawUPI u /\
     awaitingSupportMessage u' = awaitingSupportMessage u).
Proof.
  intros Hu Hsetup s' ev. subst s' ev.
  destruct (text_step from text code now s u Hu) as [-> ->].
  unfold dialogue, final, events, is_cancel, is_confirm. rewrite Hsetup.
  split; [|split; [|split]].
  - intros ->. cbn. by rewrite lookup_alter_eq, Hu.
  - intros -> Hd. cbn. by rewrite Hd.
  - intros Hc Hk Hre. apply String.eqb_neq in Hc, Hk.
    by rewrite Hc, Hk, Hre.
  - repeat match goal with
           | |- context [if ?c then _ else _] => destruct c eqn:?
           end; cbn;
      (repeat split; try done;
       [intros t Ht; by rewrite lookup_alter_ne
       |rewrite lookup_alter_eq, Hu; cbn; eexists; split; [reflexivity|done]])
      || (repeat split; try done; eexists; split; [exact Hu|done]).
Qed.

(** X6.  Support intake is single-shot: for an account that only awaits a
    support message, any text, keyword or not, is forwarded without the white
    space around it to every administrator in the order of the list, the flag
    is removed and nothing else changes.  The next text message of the account
    is then read by no dialogue: the handler reads the account and passes the
    message on, so that a command registered after the handler runs on the
    same database, and a text with no command writes nothing and sends
    nothing. *)
Theorem support_message_is_forwarded_once (from : sender)
    (text1 text2 code1 code2 : string) (now1 now2 : Z) (s : db) (u : user) :
  users s !! from_id from = Some u ->
  awaitingUpiSetup u = false -> awaitingWithdrawUPI u = false ->
  awaitingSupportMessage u = true ->
  let s1 := step cfg (Text from text1 code1 now1) s in
  s1 = with_users (alter (set_awaitingSupportMessage false) (from_id from)) s /\
  events (handle cfg (Text from text1 code1 now1)) s
    = [DbRead Users; DbWrite Users]
      ++ map (fun a => Send a (SupportRequest (from_id from) (trim text1)))
           (ADMIN_IDS cfg)
      ++ [Reply SupportThanks] /\
  (forall next : M unit,
     on_text cfg from text2 code2 now2 next s1
     = let '(r, s2, ev) := next s1 in (r, s2, DbRead Users :: ev)) /\
  step cfg (Text from text2 code2 now2) s1 = s1 /\
  events (handle cfg (Text from text2 code2 now2)) s1 = [DbRead Users].
Proof.
  intros Hu H1 H2 H3 s1. subst s1.
  destruct (text_step from text1 code1 now1 s u Hu) as [Hs Hev].
  assert (Hs1 : step cfg (Text from text1 code1 now1) s
                = with_users (alter (set_awaitingSupportMessage false)
                                (from_id from)) s).
  { rewrite Hs. unfold dialogue, final. rewrite H1, H2, H3. cbn.
    unfold bind. rewrite for_each_send. reflexivity. }
  split; [exact Hs1|]. split.
  { rewrite Hev. unfold dialogue, events. rewrite H1, H2, H3. cbn.
    unfold bind. rewrite for_each_send. reflexivity. }
  rewrite Hs1.
  assert (Hu1 : users (with_users (alter (set_awaitingSupportMessage false)
                                     (from_id from)) s) !! from_id from
                = Some (set_awaitingSupportMessage false u)).
  { cbn. by rewrite lookup_alter_eq, Hu. }
  assert (Hidle : in_dialogue (set_awaitingSupportMessage false u) = false).
  { unfold in_dialogue. cbn. by rewrite H1, H2. }
  split.
  { intros next. by rewrite (on_text_found cfg from text2 code2 now2 next _ _ Hu1), Hidle. }
  unfold step, final, events.
  by rewrite (text_idle cfg from text2 code2 now2 _ _ Hu1 Hidle).
Qed.

(** The text handler on a message from an identity without an account: it
    creates the account, or nothing when the insert is refused, and passes
    the message on. *)
Lemma unknown_sender_text (from : sender) (text code : string) (now : Z)
    (s : db) :
  users s !! from_id from = None ->
  exists s1 l,
    (s1 = s \/
     s1 = with_users (insert (from_id from) (new_user from code now)) s) /\
    (forall e, e ∈ l -> e = DbRead Users \/ e = DbWrite Users) /\
    (forall next : M unit,
       on_text cfg from text code now next s
       = let '(r, s2, ev) := next s1 in (r, s2, l ++ ev)) /\
    step cfg (Text from text code now) s = s1 /\
    events (handle cfg (Text from text code now)) s = l.
Proof.
  intros Hu. unfold step, final, events. cbn [handle].
  unfold on_text, try_catch, bind, usersCol_findOne, get. rewrite Hu. cbn.
  unfold ensureUserProfile, bind, usersCol_findOne, get. rewrite Hu. cbn.
  unfold usersCol_insertOne. destruct (orb _ _); cbn.
  + eexists _, _. split; [by left|]. split; [|split; [|done]].
    * intros e He.
      repeat (apply elem_of_cons in He as [->|He]; [by eauto|]).
      by apply elem_of_nil in He.
    * intros next. by destruct (next s) as [[r s2] ev].
  + eexists _, _. split; [by right|]. split; [|split; [|done]].
    * intros e He.
      repeat (apply elem_of_cons in He as [->|He]; [by eauto|]).
      by apply elem_of_nil in He.
    * intros next. by destruct (next _) as [[r s2] ev].
Qed.

(** X7.  A text message from an account with no dialogue open is read and
    passed on: the handler reads the account, changes nothing and goes on to
    the rest of the chain, so that a command registered after it runs on the
    same database; a text with no command is dropped there: the database is
    unchanged and the only event is the read.  From an identity without an
    account, the handler creates the account, or nothing when the insert is
    refused, replies nothing and writes nowhere else, and passes the message
    on as well. *)
Theorem idle_text_is_passed_on (from : sender) (text code : string) (now : Z)
    (s : db) :
  (forall u, users s !! from_id from = Some u -> idle u ->
     (forall next : M unit,
        on_text cfg from text code now next s
        = let '(r, s2, ev) := next s in (r, s2, DbRead Users :: ev)) /\
     step cfg (Text from text code now) s = s /\
     events (handle cfg (Text from text code now)) s = [DbRead Users]) /\
  (users s !! from_id from = None ->
     exists s1 l,
       (s1 = s \/
        s1 = with_users (insert (from_id from) (new_user from code now)) s) /\
       (forall e, e ∈ l -> e = DbRead Users \/ e = DbWrite Users) /\
       (forall next : M unit,
          on_text cfg from text code now next s
          = let '(r, s2, ev) := next s1 in (r, s2, l ++ ev)) /\
       step cfg (Text from text code now) s = s1 /\
       events (handle cfg (Text from text code now)) s = l).
Proof.
  split.
  - intros u Hu (H1 & H2 & H3).
    assert (Hidle : in_dialogue u = false).
    { unfold in_dialogue. by rewrite H1, H2, H3. }
    split.
    { intros next. by rewrite (on_text_found cfg from text code now next s u Hu), Hidle. }
    unfold step, final, events.
    by rewrite (text_idle cfg from text code now s u Hu Hidle).
  - apply unknown_sender_text.
Qed.

End Dialogues.

Lemma setup_saves_the_confirmed_target_witness :
  users db_erin_idle !! from_id erin = Some erin_idle /\
  UPI_REGEX_test (trim " erin@bank ") = true /\ is_confirm "Confirm" /\
  exists u3,
    users (run default_config
             [ Setupi Command erin "ref_x" 1; Text erin " erin@bank " "ref_x" 2;
               Text erin "Confirm" "ref_x" 3 ] db_erin_idle) !! from_id erin
      = Some u3 /\
    primaryUPI u3 = Some (trim " erin@bank ").
Proof.
  split; [reflexivity|]. split; [reflexivity|]. split; [reflexivity|].
  destruct (setup_saves_the_confirmed_target default_config Command erin
              "ref_x" "ref_x" "ref_x" 1 2 3 " erin@bank " "Confirm"
              db_erin_idle erin_idle eq_refl eq_refl eq_refl)
    as (u3 & H1 & H2 & _).
  exists u3. split; [exact H1|exact H2].
Defined.

Lemma setup_dialogue_refuses_and_cancels_witness :
  users db_erin_in_setup !! from_id erin
    = Some (set_awaitingUpiSetup true erin_idle) /\
  is_cancel (nbsp ++ "CANCEL ") /\
  events (handle default_config (Text erin (nbsp ++ "CANCEL ") "ref_x" 4))
    db_erin_in_setup
    = [DbRead Users; DbWrite Users; Reply UpiSetupCancelled].
Proof.
  split; [reflexivity|]. split; [reflexivity|].
  exact (proj2 (proj1 (setup_dialogue_refuses_and_cancels default_config erin
                         (nbsp ++ "CANCEL ") "ref_x" 4 db_erin_in_setup
                         (set_awaitingUpiSetup true erin_idle)
                         eq_refl eq_refl) eq_refl)).
Defined.

Lemma support_message_is_forwarded_once_witness :
  users db_erin_support !! from_id erin
    = Some (set_awaitingSupportMessage true erin_idle) /\
  events (handle default_config (Text erin ("help" ++ nbsp) "ref_x" 4))
    db_erin_support
    = [DbRead Users; DbWrite Users; Send 1 (SupportRequest 7 "help");
       Reply SupportThanks].
Proof.
  split; [reflexivity|].
  exact (proj1 (proj2 (support_message_is_forwarded_once default_config erin
                         ("help" ++ nbsp) "/pay 000000000000000000000000"
                         "ref_x" "ref_x" 4 5 db_erin_support
                         (set_awaitingSupportMessage true erin_idle)
                         eq_refl eq_refl eq_refl eq_refl))).
Defined.

Lemma idle_text_is_passed_on_witness :
  users db_erin_idle !! from_id erin = Some erin_idle /\ idle erin_idle /\
  step default_config (Text erin "confirm" "ref_x" 4) db_erin_idle
    = db_erin_idle /\
  users db_erin_idle !! from_id mallory = None /\
  forall e,
    e ∈ events (handle default_config (Text mallory "hello" "ref_m" 4))
          db_erin_idle ->
    e = DbRead Users \/ e = DbWrite Users.
Proof.
  split; [reflexivity|]. split; [by repeat split|].
  destruct (idle_text_is_passed_on default_config erin "confirm" "ref_x" 4
              db_erin_idle) as [H _].
  destruct (H erin_idle eq_refl ltac:(by repeat split)) as (_ & Hs & _).
  split; [exact Hs|]. split; [reflexivity|].
  destruct (idle_text_is_passed_on default_config mallory "hello" "ref_m" 4
              db_erin_idle) as [_ H2].
  destruct (H2 eq_refl) as (s1 & l & _ & Hl & _ & _ & Hev).
  rewrite Hev. exact Hl.
Defined.

(** ** Withdrawals, from the draft to the payout *)

Section Withdrawals.

Context (cfg : config).

(** What an accepted [/withdraw] leaves: the stored document, at most
    renamed, drafted. *)
Lemma withdraw_step_drafts (via : entry) (from : sender) (code : string)
    (now : Z) (s : db) (u : user) :
  users s !! from_id from = Some u ->
  no_lock u ->
  (MIN_WITHDRAWAL cfg <= balance u)%Q ->
  exists u1, renamed u u1 /\
    users (step cfg (Withdraw via from code now) s)
    = <[from_id from := drafted now u1]> (users s) /\
    withdrawals (step cfg (Withdraw via from code now) s) = withdrawals s /\
    pending (step cfg (Withdraw via from code now) s) = pending s /\
    refs (step cfg (Withdraw via from code now) s) = refs s.
Proof.
  intros Hu Hl Hmin.
  destruct (ensureUserProfile_run from code now s)
    as (r & s1 & l & Hrun & Hp & Hw & Hr & Hus).
  rewrite Hu in Hus. destruct Hus as (u1 & -> & Hren & Hus).
  exists u1. split; [done|]. pose proof Hren as (a & b & ->).
  unfold step. cbn. unfold on_withdraw. rewrite final_entered, final_bind, Hrun.
  unfold startWithdrawFlow, final.
  assert (Hg : match balanceLocked u with
               | Some l => Qltb 0 l | None => false end = false).
  { destruct (balanceLocked u) as [k|] eqn:E; [|done].
    apply Qltb_ge. apply Qnot_lt_le. by apply Hl. }
  cbn. rewrite Hg. apply Qltb_ge in Hmin. rewrite Hmin. cbn.
  rewrite Hus. repeat split; try done.
  apply map_eq. intros t. destruct (decide (t = from_id from)) as [->|Hne].
  - rewrite lookup_alter_eq, !lookup_insert_eq. cbn. unfold drafted. cbn.
    by destruct (truthy (primaryUPI u)).
  - by rewrite lookup_alter_ne, !lookup_insert_ne.
Qed.

(** The step of the confirm keyword in the withdrawal dialogue with a
    captured target. *)
Lemma confirm_step_requests (from : sender) (text code : string) (now : Z)
    (s : db) (u : user) (target : string) :
  users s !! from_id from = Some u ->
  awaitingUpiSetup u = false -> awaitingWithdrawUPI u = true ->
  awaitingWithdrawUPIConfirm u = true ->
  draftWithdrawUPI u = Some target -> target <> EmptyString ->
  is_confirm text ->
  step cfg (Text from text code now) s
  = with_users (alter (requested target) (from_id from))
      (with_withdrawals
         (insert (fresh (dom (withdrawals s)))
            (request (from_id from) target (default 0%Q (balanceLocked u)) now))
         s) /\
  events (handle cfg (Text from text code now)) s
  = [DbRead Users; DbWrite Withdrawals; DbWrite Users;
     Reply (WithdrawalStored (default 0%Q (balanceLocked u)) target)]
    ++ map (fun a => Send a (WithdrawalRequest (from_id from)
                               (default 0%Q (balanceLocked u)) target))
         (ADMIN_IDS cfg).
Proof.
  intros Hu H1 H2 H3 H4 H5 Hk.
  destruct (text_step cfg from text code now s u Hu) as [-> ->].
  unfold dialogue, final, events. unfold is_confirm in Hk.
  rewrite H1, H2, H3, H4, Hk. cbn.
  apply String.eqb_neq in H5. rewrite H5. cbn.
  unfold bind. rewrite for_each_send. cbn. by rewrite app_nil_r.
Qed.

(** X8.  The confirm keyword in the withdrawal dialogue.  With a captured
    payout target it stores one new withdrawal under an [_id] not used
    before: pending, for the account, to that target, for the whole locked
    amount; it closes the dialogue, saves the target as the account's own,
    keeps balance and lock as they are, and tells every administrator.
    Without a captured target it stores nothing and changes nothing. *)
Theorem confirm_stores_one_request (from : sender) (text code : string)
    (now : Z) (s : db) (u : user) :
  users s !! from_id from = Some u ->
  awaitingUpiSetup u = false -> awaitingWithdrawUPI u = true ->
  is_confirm text ->
  let s' := step cfg (Text from text code now) s in
  let ev := events (handle cfg (Text from text code now)) s in
  let _id := fresh (dom (withdrawals s)) in
  (forall target,
     awaitingWithdrawUPIConfirm u = true ->
     draftWithdrawUPI u = Some target -> target <> EmptyString ->
     withdrawals s !! _id = None /\
     withdrawals s'
       = <[_id := request (from_id from) target
                    (default 0%Q (balanceLocked u)) now]> (withdrawals s) /\
     (exists u', users s' !! from_id from = Some u' /\
        balance u' = balance u /\ balanceLocked u' = balanceLocked u /\
        awaitingWithdrawUPI u' = false /\
        awaitingWithdrawUPIConfirm u' = false /\
        draftWithdrawUPI u' = None /\ primaryUPI u' = Some target /\
        needsUpiSetup u' = false) /\
     (forall a, a ∈ ADMIN_IDS cfg ->
        Send a (WithdrawalRequest (from_id from)
                  (default 0%Q (balanceLocked u)) target) ∈ ev)) /\
  (awaitingWithdrawUPIConfirm u = false \/ truthy (draftWithdrawUPI u) = false ->
     s' = s /\ ev = [DbRead Users; Reply SendUpiBeforeConfirming]).
Proof.
  intros Hu H1 H2 Hk s' ev _id. subst s' ev _id. split.
  - intros target H3 H4 H5.
    destruct (confirm_step_requests from text code now s u target
                Hu H1 H2 H3 H4 H5 Hk) as [-> ->].
    split; [apply not_elem_of_dom, is_fresh|]. split; [done|]. split.
    + cbn. rewrite lookup_alter_eq, Hu. cbn. eexists. split; [reflexivity|].
      done.
    + intros a Ha. apply elem_of_app. right.
      apply list_elem_of_fmap. by exists a.
  - intros Hno.
    destruct (text_step cfg from text code now s u Hu) as [-> ->].
    unfold dialogue, final, events. unfold is_confirm in Hk.
    rewrite H1, H2, Hk. cbn.
    assert (Hc : negb (awaitingWithdrawUPIConfirm u)
                 || negb (truthy (draftWithdrawUPI u)) = true).
    { destruct Hno as [-> | ->]; [done|]. apply orb_true_r. }
    by rewrite Hc.
Qed.

Lemma drafted_fields (now : Z) (u : user) :
  awaitingUpiSetup (drafted now u) = awaitingUpiSetup u /\
  awaitingWithdrawUPI (drafted now u) = true /\
  balanceLocked (drafted now u) = Some (balance u) /\
  balance (drafted now u) = (balance u + - balance u)%Q /\
  awaitingWithdrawUPIConfirm (drafted now u) = truthy (primaryUPI u) /\
  draftWithdrawUPI (drafted now u)
    = (if truthy (primaryUPI u) then primaryUPI u else None) /\
  awaitingSupportMessage (drafted now u) = awaitingSupportMessage u.
Proof. unfold drafted. by destruct (truthy (primaryUPI u)). Qed.

(** X9.  A saved payout target makes a new draft confirmable at once:
    [/withdraw] followed by the confirm keyword stores the request for the
    whole balance to the saved target, the balance being zero and the amount
    locked.  Without a saved target the same keyword is refused and the draft
    stays as [/withdraw] left it. *)
Theorem saved_target_is_confirmable_at_once (via : entry) (from : sender)
    (code1 code2 word : string) (now1 now2 : Z) (s : db) (u : user) :
  users s !! from_id from = Some u ->
  awaitingUpiSetup u = false ->
  no_lock u ->
  (MIN_WITHDRAWAL cfg <= balance u)%Q ->
  is_confirm word ->
  let s1 := step cfg (Withdraw via from code1 now1) s in
  let s2 := step cfg (Text from word code2 now2) s1 in
  (forall target, primaryUPI u = Some target -> target <> EmptyString ->
     withdrawals s2
       = <[fresh (dom (withdrawals s))
             := request (from_id from) target (balance u) now2]>
           (withdrawals s) /\
     exists u2, users s2 !! from_id from = Some u2 /\
       (balance u2 == 0)%Q /\ balanceLocked u2 = Some (balance u) /\
       awaitingWithdrawUPI u2 = false /\ primaryUPI u2 = Some target) /\
  (truthy (primaryUPI u) = false ->
     s2 = s1 /\
     events (handle cfg (Text from word code2 now2)) s1
       = [DbRead Users; Reply SendUpiBeforeConfirming]).
Proof.
  intros Hu Hsetup Hl Hmin Hk s1 s2. subst s1 s2.
  destruct (withdraw_step_drafts via from code1 now1 s u Hu Hl Hmin)
    as (u1 & (a & b & ->) & Hus1 & Hw1 & _).
  set (s1 := step cfg (Withdraw via from code1 now1) s) in *.
  set (u1 := set_first_name a (set_username b u)) in *.
  assert (Hd1 : users s1 !! from_id from = Some (drafted now1 u1))
    by by rewrite Hus1, lookup_insert_eq.
  destruct (drafted_fields now1 u1) as (F1 & F2 & F3 & F4 & F5 & F6 & F7).
  change (primaryUPI u1) with (primaryUPI u) in F5, F6.
  change (balance u1) with (balance u) in F3, F4.
  change (awaitingUpiSetup u1) with (awaitingUpiSetup u) in F1.
  split.
  - intros target Ht Hne.
    assert (Htr : truthy (primaryUPI u) = true).
    { rewrite Ht. cbn. apply String.eqb_neq in Hne. by rewrite Hne. }
    rewrite Htr in F5, F6. rewrite Ht in F6.
    destruct (confirm_step_requests from word code2 now2 s1 _ target Hd1
                ltac:(congruence) F2 F5 F6 Hne Hk) as [Hs2 _].
    rewrite F3, Hw1 in Hs2. cbn [default] in Hs2. rewrite Hs2.
    split; [cbn [withdrawals with_users with_withdrawals]; by rewrite Hw1|].
    cbn [users with_users with_withdrawals].
    rewrite lookup_alter_eq, Hd1. cbn [fmap option_fmap option_map].
    eexists. split; [reflexivity|].
    change (balance (requested target (drafted now1 u1)))
      with (balance (drafted now1 u1)).
    change (balanceLocked (requested target (drafted now1 u1)))
      with (balanceLocked (drafted now1 u1)).
    rewrite F3, F4. repeat split; try done. lra.
  - intros Htr. rewrite Htr in F5.
    destruct (text_step cfg from word code2 now2 s1 _ Hd1) as [-> ->].
    unfold dialogue, final, events. unfold is_confirm in Hk.
    rewrite F1, Hsetup, F2, Hk, F5. done.
Qed.

(** X10.  The whole life of a withdrawal.  An account out of setup, with
    nothing locked and at least the minimum, drafts a withdrawal, sends a
    payout target and confirms; the request is stored under the next [_id].
    If an administrator with no dialogue open then cancels that request, the
    account has its balance of before the draft and nothing locked, and the
    request is cancelled; if the administrator pays it instead, the balance
    is zero, nothing is locked, and the request is paid for the balance of
    before. *)
Theorem request_is_refunded_or_paid_in_full (via : entry) (from boss : sender)
    (code1 code2 code3 code4 target word text4 : string)
    (now1 now2 now3 now4 : Z) (s : db) (u : user) :
  users s !! from_id from = Some u ->
  awaitingUpiSetup u = false ->
  no_lock u ->
  (MIN_WITHDRAWAL cfg <= balance u)%Q ->
  UPI_REGEX_test (trim target) = true ->
  is_confirm word ->
  isAdmin cfg (from_id boss) = true ->
  passed_on boss s = true ->
  let _id := fresh (dom (withdrawals s)) in
  let s3 := run cfg [ Withdraw via from code1 now1;
                      Text from target code2 now2;
                      Text from word code3 now3 ] s in
  withdrawals s3 !! _id
    = Some (request (from_id from) (trim target) (balance u) now3) /\
  (let s4 := step cfg (CancelWithdraw boss text4 (ObjectId _id) code4 now4) s3 in
   exists u4 w4, users s4 !! from_id from = Some u4 /\
     (balance u4 == balance u)%Q /\ balanceLocked u4 = None /\
     awaitingWithdrawUPI u4 = false /\
     withdrawals s4 !! _id = Some w4 /\ w_status w4 = WCancelled /\
     cancelledAt w4 = Some now4 /\ amount w4 = balance u) /\
  (let s4 := step cfg (Pay boss text4 (ObjectId _id) code4 now4) s3 in
   exists u4 w4, users s4 !! from_id from = Some u4 /\
     (balance u4 == 0)%Q /\ balanceLocked u4 = None /\
     awaitingWithdrawUPI u4 = false /\
     withdrawals s4 !! _id = Some w4 /\ w_status w4 = WPaid /\
     paidAt w4 = Some now4 /\ paidBy w4 = Some (from_id boss) /\
     amount w4 = balance u).
Proof.
  intros Hu Hsetup Hl Hmin Hupi Hk Hboss Hidle _id s3. subst _id s3.
  cbn [run fold_left].
  destruct (withdraw_step_drafts via from code1 now1 s u Hu Hl Hmin)
    as (u1 & (a & b & ->) & Hus1 & Hw1 & _).
  set (s1 := step cfg (Withdraw via from code1 now1) s) in *.
  set (u1 := set_first_name a (set_username b u)) in *.
  assert (Hd1 : users s1 !! from_id from = Some (drafted now1 u1))
    by by rewrite Hus1, lookup_insert_eq.
  destruct (drafted_fields now1 u1) as (F1 & F2 & F3 & F4 & _ & _ & F7).
  change (balance u1) with (balance u) in F3, F4.
  change (awaitingUpiSetup u1) with (awaitingUpiSetup u) in F1.
  change (awaitingSupportMessage u1) with (awaitingSupportMessage u) in F7.
  destruct (accepted_upi_is_no_keyword _ Hupi) as (Hnc & Hnk & Htruthy).
  (* the payout target *)
  destruct (text_step cfg from target code2 now2 s1 _ Hd1) as [Hs2 _].
  unfold dialogue, final in Hs2. rewrite F1, Hsetup, F2, Hnc, Hnk, Hupi in Hs2.
  cbn in Hs2.
  set (s2 := step cfg (Text from target code2 now2) s1) in *.
  set (d2 := set_awaitingWithdrawUPIConfirm true
               (set_draftWithdrawUPI (Some (trim target)) (drafted now1 u1))).
  assert (Hd2 : users s2 !! from_id from = Some d2).
  { rewrite Hs2. cbn. by rewrite lookup_alter_eq, Hd1. }
  assert (Hw2 : withdrawals s2 = withdrawals s) by by rewrite Hs2.
  (* the confirm keyword *)
  assert (Hne : trim target <> EmptyString).
  { intros Heq. rewrite Heq in Htruthy. discriminate Htruthy. }
  assert (G1 : awaitingUpiSetup d2 = false).
  { change (awaitingUpiSetup d2) with (awaitingUpiSetup (drafted now1 u1)).
    congruence. }
  destruct (confirm_step_requests from word code3 now3 s2 d2 (trim target)
              Hd2 G1 F2 eq_refl eq_refl Hne Hk)
    as [Hs3 _].
  change (balanceLocked d2) with (balanceLocked (drafted now1 u1)) in Hs3.
  rewrite F3, Hw2 in Hs3. cbn [default] in Hs3.
  set (s3 := step cfg (Text from word code3 now3) s2) in *.
  set (_id := fresh (dom (withdrawals s))) in *.
  set (w := request (from_id from) (trim target) (balance u) now3) in *.
  assert (Hw3 : withdrawals s3 !! _id = Some w).
  { rewrite Hs3. cbn. by rewrite lookup_insert_eq. }
  assert (Hd3 : users s3 !! from_id from = Some (requested (trim target) d2)).
  { rewrite Hs3. cbn. by rewrite lookup_alter_eq, Hd2. }
  (* the administrator's message passes the text handler *)
  assert (Hpass3 : passed_on boss s3 = true).
  { unfold passed_on in *.
    destruct (decide (from_id boss = from_id from)) as [Heq|Hne'].
    - rewrite Heq in *. rewrite Hu in Hidle. rewrite Hd3.
      apply negb_true_iff in Hidle. apply negb_true_iff.
      unfold in_dialogue in *.
      apply orb_false_iff in Hidle as [_ Hsup].
      change (awaitingUpiSetup (requested (trim target) d2))
        with (awaitingUpiSetup (drafted now1 u1)).
      change (awaitingSupportMessage (requested (trim target) d2))
        with (awaitingSupportMessage (drafted now1 u1)).
      rewrite F1, Hsetup, F7, Hsup. done.
    - assert (Hsame : users s3 !! from_id boss = users s !! from_id boss).
      { rewrite Hs3. cbn. rewrite lookup_alter_ne by done.
        rewrite Hs2. cbn. rewrite lookup_alter_ne by done.
        rewrite Hus1. by rewrite lookup_insert_ne. }
      by rewrite Hsame. }
  destruct (text_keeps cfg boss text4 code4 now4 s3 Hpass3) as (_ & Hws & _ & _).
  destruct (text_passed cfg boss text4 code4 now4 s3 Hpass3) as (_ & _ & Hus).
  specialize (Hus _ _ Hd3). rewrite <- Hws in Hw3.
  split; [by rewrite <- Hws|]. split.
  - cbn zeta. unfold step. cbn [handle]. rewrite !command_final by done.
    generalize dependent (step cfg (Text boss text4 code4 now4) s3).
    intros s3' Hw3 _ Hd3'.
    unfold final. cbn. unfold on_cancelwithdraw. rewrite Hboss. cbn.
    unfold bind, withdrawalsCol_findOne_pending, get. rewrite Hw3. cbn.
    rewrite !lookup_alter_eq, Hw3, Hd3'. cbn -[drafted].
    eexists _, _. split; [reflexivity|]. cbn -[drafted]. rewrite F4.
    repeat split; try done. lra.
  - cbn zeta. unfold step. cbn [handle]. rewrite !command_final by done.
    generalize dependent (step cfg (Text boss text4 code4 now4) s3).
    intros s3' Hw3 _ Hd3'.
    unfold final. cbn. unfold on_pay. rewrite Hboss. cbn.
    unfold bind, withdrawalsCol_findOne_pending, get. rewrite Hw3. cbn.
    rewrite !lookup_alter_eq, Hw3, Hd3'. cbn -[drafted].
    eexists _, _. split; [reflexivity|]. cbn -[drafted]. rewrite F4.
    repeat split; try done. lra.
Qed.

(** X11.  [/cancelwithdraw <id>] by an administrator reaches the command when
    no dialogue of the administrator takes the message; [bot.on("text")] has
    then read the administrator's account, or created it, and done no more.
    On a pending withdrawal the command cancels it with [cancelledAt] stamped,
    its amount and owner kept; the owner gets the amount back on the balance
    and has nothing locked; no other account changes; the owner is told once.
    On an [_id] that names no pending withdrawal: "Not found." and no change.
    After it, [/pay] and [/cancelwithdraw] for that [_id], from anybody, do no
    more than the text handler does with their message.  An id that
    [new ObjectId] refuses changes nothing more either: [/pay] replies with
    the error, [/cancelwithdraw] lets the exception escape.  When a dialogue
    of the administrator takes the message, the update is that of the text
    handler alone. *)
Theorem cancelwithdraw_refunds_pending_else_not_found (from : sender)
    (text : string) (_id : N) (code : string) (now : Z) (s : db)
    (Hadmin : isAdmin cfg (from_id from) = true) :
  let m := handle cfg (CancelWithdraw from text (ObjectId _id) code now) in
  let read := handle cfg (Text from text code now) in
  (passed_on from s = true ->
   (forall a, users s !! from_id from = Some a ->
      final read s = s /\ events read s = [DbRead Users]) /\
   withdrawals (final read s) = withdrawals s /\
   (forall t u, users s !! t = Some u -> users (final read s) !! t = Some u) /\
   (forall w, withdrawals s !! _id = Some w -> w_status w = WPending ->
      (exists w', withdrawals (final m s) !! _id = Some w' /\
         w_status w' = WCancelled /\ cancelledAt w' = Some now /\
         amount w' = amount w /\ userId w' = userId w /\ upi w' = upi w) /\
      (forall u, users s !! userId w = Some u ->
         exists u', users (final m s) !! userId w = Some u' /\
           balanceLocked u' = None /\
           balance u' = (balance u + amount w)%Q) /\
      (forall t, t <> userId w ->
         users (final m s) !! t = users (final read s) !! t) /\
      events m s = events read s
                   ++ [DbRead Withdrawals; DbWrite Withdrawals; DbWrite Users;
                       Reply CancelledAndRefunded;
                       Send (userId w) WithdrawalCancelled] /\
      (forall boss text' code' now',
         step cfg (Pay boss text' (ObjectId _id) code' now') (final m s)
           = step cfg (Text boss text' code' now') (final m s) /\
         step cfg (CancelWithdraw boss text' (ObjectId _id) code' now')
           (final m s)
           = step cfg (Text boss text' code' now') (final m s))) /\
   ((forall w, withdrawals s !! _id = Some w -> w_status w <> WPending) ->
      final m s = final read s /\
      events m s = events read s ++ [DbRead Withdrawals; Reply NotFound]) /\
   handle cfg (Pay from text BadId code now) s
     = (Returned tt, final read s, events read s ++ [Reply ErrorReply]) /\
   handle cfg (CancelWithdraw from text BadId code now) s
     = (Thrown, final read s, events read s)) /\
  (passed_on from s = false -> m s = read s).
Proof.
  intros m read. subst m read.
  change (handle cfg (CancelWithdraw from text (ObjectId _id) code now))
    with (on_text cfg from text code now
            (on_cancelwithdraw cfg from (ObjectId _id) now)).
  split; [|by apply command_taken].
  intros Hpass.
  rewrite (command_final cfg from text code now _ s Hpass).
  rewrite (command_events cfg from text code now _ s Hpass).
  cbn [handle]. rewrite !(command_reached cfg from text code now _ s Hpass).
  change (on_text cfg from text code now (ret tt))
    with (handle cfg (Text from text code now)).
  change (final (handle cfg (Text from text code now)) s)
    with (step cfg (Text from text code now) s).
  destruct (text_keeps cfg from text code now s Hpass) as (_ & Hws & _ & _).
  destruct (text_passed cfg from text code now s Hpass) as (Hidle & _ & Hus).
  split; [exact Hidle|]. split; [exact Hws|]. split; [exact Hus|].
  clear Hidle.
  generalize dependent (step cfg (Text from text code now) s).
  generalize (events (handle cfg (Text from text code now)) s).
  intros evT s1 Hws Hus.
  split; [|split].
  - intros w Hw Hp. rewrite <- Hws in Hw.
    assert (Hfinal : final (on_cancelwithdraw cfg from (ObjectId _id) now) s1
              = with_users
                  (alter (fun d => set_balanceLocked None
                                     (inc_balance (amount w) d)) (userId w))
                  (with_withdrawals
                     (alter (fun d => set_cancelledAt (Some now)
                                        (set_w_status WCancelled d)) _id) s1)).
    { unfold final, on_cancelwithdraw. rewrite Hadmin. cbn.
      unfold bind, withdrawalsCol_findOne_pending, get. by rewrite Hw, Hp. }
    split; [|split; [|split; [|split]]].
    + rewrite Hfinal. cbn. rewrite lookup_alter_eq, Hw. cbn. eauto 10.
    + intros u Hu. rewrite Hfinal. cbn.
      rewrite lookup_alter_eq, (Hus _ _ Hu). cbn. eauto.
    + intros t Ht. rewrite Hfinal. cbn. by rewrite lookup_alter_ne.
    + unfold events, on_cancelwithdraw. rewrite Hadmin. cbn.
      unfold bind, withdrawalsCol_findOne_pending, get. by rewrite Hw, Hp.
    + intros boss text' code' now'.
      set (s2 := final (on_cancelwithdraw cfg from (ObjectId _id) now) s1).
      assert (Hgone : forall s3, withdrawals s3 = withdrawals s2 ->
                exists w', withdrawals s3 !! _id = Some w' /\
                           w_status w' = WCancelled).
      { intros s3 H3. rewrite H3. unfold s2. rewrite Hfinal. cbn.
        rewrite lookup_alter_eq, Hw. cbn. eauto. }
      unfold step at 1 3. cbn [handle]. rewrite !final_on_text_next.
      destruct (passed_on boss s2) eqn:Hb; [|done].
      destruct (text_keeps cfg boss text' code' now' s2 Hb) as (_ & Hws2 & _ & _).
      destruct (Hgone _ Hws2) as (w' & Hw' & Hst).
      generalize dependent (step cfg (Text boss text' code' now') s2).
      intros s3 _ Hw'.
      unfold final, on_pay, on_cancelwithdraw.
      destruct (isAdmin cfg (from_id boss)); cbn; [|done].
      unfold bind, withdrawalsCol_findOne_pending, get. by rewrite Hw', Hst.
  - intros Hnp. unfold final, events, on_cancelwithdraw.
    rewrite Hadmin. cbn. unfold bind, withdrawalsCol_findOne_pending, get.
    rewrite Hws.
    destruct (withdrawals s !! _id) as [w|] eqn:Hw; [|done].
    specialize (Hnp w eq_refl). by destruct (w_status w).
  - unfold on_pay, on_cancelwithdraw. rewrite Hadmin. cbn.
    by rewrite app_nil_r.
Qed.

(** X12.  [/withdraw] is refused, and only renames the account at most, when
    an amount is already locked ("already pending", tested first) and when
    the balance is under the minimum ("minimum", with the current balance):
    no balance, lock, flag or collection changes. *)
Theorem withdraw_is_refused_when_locked_or_short (via : entry) (from : sender)
    (code : string) (now : Z) (s : db) (u : user) :
  users s !! from_id from = Some u ->
  let s' := step cfg (Withdraw via from code now) s in
  let ev := events (handle cfg (Withdraw via from code now)) s in
  let refused r :=
    (exists u', renamed u u' /\ users s' = <[from_id from := u']> (users s)) /\
    withdrawals s' = withdrawals s /\ pending s' = pending s /\
    refs s' = refs s /\ last ev = Some (Reply r) in
  ((exists l, balanceLocked u = Some l /\ (0 < l)%Q) ->
     refused AlreadyPendingWithdrawal) /\
  (no_lock u -> (balance u < MIN_WITHDRAWAL cfg)%Q ->
     refused (MinimumNotReached (balance u))).
Proof.
  intros Hu s' ev refused. subst s' ev refused. cbn beta.
  destruct (ensureUserProfile_run from code now s)
    as (r & s1 & l & Hrun & Hp & Hw & Hr & Hus).
  rewrite Hu in Hus. destruct Hus as (u1 & -> & Hren & Hus).
  pose proof Hren as (a & b & Hab).
  assert (Hfields : balanceLocked u1 = balanceLocked u /\ balance u1 = balance u)
    by by rewrite Hab.
  destruct Hfields as [Hl1 Hb1].
  split.
  - intros (k & Hk & Hpos). apply Qltb_lt in Hpos.
    unfold step, final, events. cbn. unfold on_withdraw, startWithdrawFlow.
    destruct via; cbn; unfold try_catch, bind, answerCbQuery, emit;
      rewrite Hrun, Hl1, Hk, Hpos; cbn;
      (split; [exists u1; by split|]); repeat split; try done;
      by rewrite ?app_comm_cons, last_snoc.
  - intros Hnl Hshort. apply Qltb_lt in Hshort.
    assert (Hg : match balanceLocked u with
                 | Some l => Qltb 0 l | None => false end = false).
    { destruct (balanceLocked u) as [k|] eqn:E; [|done].
      apply Qltb_ge. apply Qnot_lt_le. by apply Hnl. }
    unfold step, final, events. cbn. unfold on_withdraw, startWithdrawFlow.
    destruct via; cbn; unfold try_catch, bind, answerCbQuery, emit;
      rewrite Hrun, Hl1, Hg, Hb1, Hshort; cbn;
      (split; [exists u1; by split|]); repeat split; try done;
      by rewrite ?app_comm_cons, last_snoc.
Qed.

End Withdrawals.

Lemma confirm_stores_one_request_witness :
  users db_erin_drafted !! from_id erin = Some erin_drafted /\
  is_confirm "confirm" /\
  withdrawals (step default_config (Text erin "confirm" "ref_x" 6)
                 db_erin_drafted)
    = <[fresh (dom (withdrawals db_erin_drafted))
          := request 7 "erin@bank" 100 6]> (withdrawals db_erin_drafted).
Proof.
  split; [reflexivity|]. split; [reflexivity|].
  apply (proj1 (confirm_stores_one_request default_config erin "confirm"
                  "ref_x" 6 db_erin_drafted erin_drafted
                  eq_refl eq_refl eq_refl eq_refl) "erin@bank"%string eq_refl
           eq_refl).
  discriminate.
Defined.

Lemma saved_target_is_confirmable_at_once_witness :
  users db_erin_with_target !! from_id erin = Some erin_with_target /\
  no_lock erin_with_target /\
  (MIN_WITHDRAWAL default_config <= balance erin_with_target)%Q /\
  withdrawals
    (step default_config (Text erin "confirm" "ref_x" 6)
       (step default_config (Withdraw Button erin "ref_x" 5)
          db_erin_with_target))
    = <[fresh (dom (withdrawals db_erin_with_target))
          := request 7 "erin@bank" 100 6]> (withdrawals db_erin_with_target).
Proof.
  assert (Hl : no_lock erin_with_target) by (intros l Hl; discriminate Hl).
  assert (Hm : (MIN_WITHDRAWAL default_config <= balance erin_with_target)%Q)
    by (intros H; discriminate H).
  split; [reflexivity|]. split; [exact Hl|]. split; [exact Hm|].
  apply (proj1 (saved_target_is_confirmable_at_once default_config Button erin
                  "ref_x" "ref_x" "confirm" 5 6 db_erin_with_target
                  erin_with_target eq_refl eq_refl Hl Hm eq_refl)
           "erin@bank"%string eq_refl).
  discriminate.
Defined.

Lemma request_is_refunded_or_paid_in_full_witness :
  users db_erin_idle !! from_id erin = Some erin_idle /\
  no_lock erin_idle /\
  (MIN_WITHDRAWAL default_config <= balance erin_idle)%Q /\
  UPI_REGEX_test (trim "erin@bank") = true /\
  isAdmin default_config (from_id admin) = true /\
  passed_on admin db_erin_idle = true /\
  withdrawals
    (run default_config
       [ Withdraw Command erin "ref_x" 5; Text erin "erin@bank" "ref_x" 6;
         Text erin "confirm" "ref_x" 7 ] db_erin_idle)
    !! fresh (dom (withdrawals db_erin_idle))
    = Some (request 7 "erin@bank" 100 7).
Proof.
  assert (Hl : no_lock erin_idle) by (intros l Hl; discriminate Hl).
  assert (Hm : (MIN_WITHDRAWAL default_config <= balance erin_idle)%Q)
    by (intros H; discriminate H).
  split; [reflexivity|]. split; [exact Hl|]. split; [exact Hm|].
  split; [reflexivity|]. split; [reflexivity|]. split; [reflexivity|].
  exact (proj1 (request_is_refunded_or_paid_in_full default_config Command erin
                  admin "ref_x" "ref_x" "ref_x" "ref_a" "erin@bank" "confirm"
                  "/pay 000000000000000000000000" 5 6 7 8
                  db_erin_idle erin_idle eq_refl eq_refl Hl Hm eq_refl eq_refl
                  eq_refl eq_refl)).
Defined.

Lemma cancelwithdraw_refunds_pending_else_not_found_witness :
  isAdmin default_config (from_id admin) = true /\
  passed_on admin db_admin_idle = true /\
  events (handle default_config
            (CancelWithdraw admin "/cancelwithdraw 000000000000000000000000"
               (ObjectId 0) "ref_b" 7))
    db_admin_idle
    = [DbRead Users; DbRead Withdrawals; DbWrite Withdrawals; DbWrite Users;
       Reply CancelledAndRefunded; Send 9 WithdrawalCancelled].
Proof.
  split; [reflexivity|]. split; [reflexivity|].
  destruct (cancelwithdraw_refunds_pending_else_not_found default_config admin
              "/cancelwithdraw 000000000000000000000000" 0%N "ref_b" 7
              db_admin_idle eq_refl) as [H _].
  destruct (H eq_refl) as (_ & _ & _ & Hpending & _).
  destruct (Hpending carol_request eq_refl eq_refl) as (_ & _ & _ & Hev & _).
  exact Hev.
Defined.

Lemma withdraw_is_refused_when_locked_or_short_witness :
  users db_one_request !! from_id carol = Some carol_drafted /\
  (exists l, balanceLocked carol_drafted = Some l /\ (0 < l)%Q) /\
  withdrawals (step default_config (Withdraw Command carol "ref_x" 8)
                 db_one_request)
    = withdrawals db_one_request.
Proof.
  assert (Hl : exists l, balanceLocked carol_drafted = Some l /\ (0 < l)%Q)
    by (exists 100%Q; split; reflexivity).
  split; [reflexivity|]. split; [exact Hl|].
  exact (proj1 (proj2 (proj1 (withdraw_is_refused_when_locked_or_short
                  default_config Command carol "ref_x" 8 db_one_request
                  carol_drafted eq_refl) Hl))).
Defined.

(** ** Who may run the admin commands *)

Section Authorization.

Context (cfg : config).

Lemma isAdmin_elem (t : Z) : isAdmin cfg t = true <-> t ∈ ADMIN_IDS cfg.
Proof.
  unfold isAdmin. rewrite existsb_exists. split.
  - intros (x & Hx & Heq). apply Z.eqb_eq in Heq as ->.
    by apply list_elem_of_In.
  - intros Hin. exists t. split; [by apply list_elem_of_In|apply Z.eqb_refl].
Qed.

(** What a command registered after [bot.on("text")] does when all it does
    is to reply "Unauthorized". *)
Lemma refused_after_text (from : sender) (text code : string) (now : Z)
    (s : db) :
  let m := on_text cfg from text code now (reply Unauthorized) in
  let read := handle cfg (Text from text code now) in
  final m s = final read s /\
  (passed_on from s = true ->
     m s = (Returned tt, final read s, events read s ++ [Reply Unauthorized])) /\
  (passed_on from s = false -> m s = read s) /\
  (forall a, users s !! from_id from = Some a -> idle a ->
     m s = (Returned tt, s, [DbRead Users; Reply Unauthorized])).
Proof.
  cbn zeta. split; [|split; [|split]].
  - rewrite final_on_text_next. by destruct (passed_on from s).
  - intros Hpass. by rewrite (command_reached cfg from text code now _ s Hpass).
  - apply command_taken.
  - intros a Ha (H1 & H2 & H3).
    rewrite (on_text_found cfg from text code now _ s a Ha).
    unfold in_dialogue. by rewrite H1, H2, H3.
Qed.

(** X13.  A sender whose id is not in [ADMIN_IDS] gets nothing done by
    [/pay], [/cancelwithdraw], [/admin_credit], [/admin_confirm] and the
    confirm button, whatever the arguments.  The message of a command goes
    through [bot.on("text")] first: the database is left as that handler
    leaves it; when no dialogue of the sender takes the message, the command
    adds the reply "Unauthorized" and nothing else, which for a stored account
    makes the read of the account and that reply, the database unchanged;
    when a dialogue takes it, the command is not reached.  The button answers
    the callback and replies "Unauthorized", and reads and writes nothing.
    No confirmation pass runs.  With an empty [ADMIN_IDS] this is every
    sender. *)
Theorem admin_commands_are_refused_to_others (from : sender) (s : db) :
  (from_id from ∉ ADMIN_IDS cfg) ->
  let refused (u : update) (text code : string) (now : Z) :=
    let read := handle cfg (Text from text code now) in
    step cfg u s = final read s /\
    (passed_on from s = true ->
       handle cfg u s
       = (Returned tt, final read s, events read s ++ [Reply Unauthorized])) /\
    (passed_on from s = false -> handle cfg u s = read s) /\
    (forall a, users s !! from_id from = Some a -> idle a ->
       handle cfg u s = (Returned tt, s, [DbRead Users; Reply Unauthorized])) in
  (forall text arg code now, refused (Pay from text arg code now) text code now) /\
  (forall text arg code now,
     refused (CancelWithdraw from text arg code now) text code now) /\
  (forall text args code now,
     refused (AdminCredit from text args code now) text code now) /\
  (forall text code now,
     refused (AdminConfirm from text code now) text code now /\
     confirmed_by cfg (AdminConfirm from text code now) s = []) /\
  (forall now,
     handle cfg (AdminConfirmButton from now) s
       = (Returned tt, s, [AnswerCbQuery; Reply Unauthorized]) /\
     confirmed_by cfg (AdminConfirmButton from now) s = []).
Proof.
  intros Hnot refused.
  assert (Hna : isAdmin cfg (from_id from) = false).
  { destruct (isAdmin cfg (from_id from)) eqn:E; [|done].
    by apply isAdmin_elem in E. }
  subst refused. cbn beta zeta.
  unfold step, confirmed_by, pass_of. cbn [handle].
  unfold on_pay, on_cancelwithdraw, on_admin_credit, on_admin_confirm,
    on_admin_confirm_button.
  rewrite Hna. cbn [negb andb].
  split; [|split; [|split; [|split]]]; intros.
  - apply refused_after_text.
  - apply refused_after_text.
  - apply refused_after_text.
  - split; [apply refused_after_text|done].
  - done.
Qed.

End Authorization.

Lemma admin_commands_are_refused_to_others_witness :
  (from_id carol ∉ ADMIN_IDS default_config) /\
  users db_one_request !! from_id carol = Some carol_drafted /\
  step default_config (Pay carol "/pay 000000000000000000000000" (ObjectId 0) "ref_c" 9)
    db_one_request
  = step default_config (Text carol "/pay 000000000000000000000000" "ref_c" 9)
      db_one_request /\
  users db_erin_idle !! from_id erin = Some erin_idle /\
  handle default_config
    (AdminCredit erin "/admin_credit 7 1000 me"
       (Some (mkCreditArgs (Some 7) (Some 1000%Q) "me")) "ref_e" 9)
    db_erin_idle
    = (Returned tt, db_erin_idle, [DbRead Users; Reply Unauthorized]).
Proof.
  assert (H : forall t, t <> 1 -> t ∉ ADMIN_IDS default_config).
  { intros t Ht [Heq|Hin]%elem_of_cons; [done|].
    by apply elem_of_nil in Hin. }
  split; [by apply H|]. split; [reflexivity|]. split.
  - exact (proj1 (proj1 (admin_commands_are_refused_to_others default_config
                    carol db_one_request (H 9 ltac:(done)))
                    "/pay 000000000000000000000000"%string (ObjectId 0)
                    "ref_c"%string 9)).
  - split; [reflexivity|].
    destruct (admin_commands_are_refused_to_others default_config
                erin db_erin_idle (H 7 ltac:(done))) as (_ & _ & Hc & _).
    destruct (Hc "/admin_credit 7 1000 me"%string
                (Some (mkCreditArgs (Some 7) (Some 1000%Q) "me"))
                "ref_e"%string 9) as (_ & _ & _ & Hidle).
    by apply (Hidle erin_idle).
Defined.

(** ** What every update keeps *)

Section Keeps.

Context (R : relation db) `{!PreOrder R}.

Lemma keeps_ret {A} (a : A) : keeps R (ret a).
Proof. intros s. reflexivity. Qed.

Lemma keeps_throw {A} : keeps R (@throw A).
Proof. intros s. reflexivity. Qed.

Lemma keeps_emit (e : event) : keeps R (emit e).
Proof. intros s. reflexivity. Qed.

Lemma keeps_get {A} (c : collection) (f : db -> A) : keeps R (get c f).
Proof. intros s. reflexivity. Qed.

Lemma keeps_put (c : collection) (f : db -> db) :
  (forall s, R s (f s)) -> keeps R (put c f).
Proof. intros H s. apply H. Qed.

Lemma keeps_bind {A B} (m : M A) (k : A -> M B) :
  keeps R m -> (forall a, keeps R (k a)) -> keeps R (bind m k).
Proof.
  intros Hm Hk s. rewrite final_bind. specialize (Hm s). unfold final in Hm.
  destruct (m s) as [[[a|] s1] l1]; cbn in Hm; [|exact Hm].
  etransitivity; [exact Hm|apply Hk].
Qed.

Lemma keeps_try_catch {A} (m h : M A) :
  keeps R m -> keeps R h -> keeps R (try_catch m h).
Proof.
  intros Hm Hh s. specialize (Hm s). unfold final, try_catch in *.
  destruct (m s) as [[[a|] s1] l1]; cbn in *; [exact Hm|].
  specialize (Hh s1). unfold final in Hh.
  destruct (h s1) as [[r s2] l2]. cbn in *.
  etransitivity; [exact Hm|exact Hh].
Qed.

Lemma keeps_entered (via : entry) (m : M unit) :
  keeps R m -> keeps R (entered via m).
Proof. intros Hm s. rewrite final_entered. apply Hm. Qed.

Lemma keeps_for_each {A} (l : list A) (body : A -> M unit) :
  (forall a, keeps R (body a)) -> keeps R (for_each l body).
Proof.
  intros Hb. induction l as [|x l IH]; cbn; [apply keeps_ret|].
  apply keeps_bind; [apply Hb|intros _; exact IH].
Qed.

Lemma keeps_for_of {A B} (l : list A) (body : A -> B -> M B) (acc : B) :
  (forall a b, keeps R (body a b)) -> keeps R (for_of l body acc).
Proof.
  intros Hb. revert acc. induction l as [|x l IH]; intros acc; cbn;
    [apply keeps_ret|].
  apply keeps_bind; [apply Hb|intros b; apply IH].
Qed.

Context (HR : writes_kept R).

Lemma keeps_usersCol_updateOne (t : Z) (f : user -> user) :
  (forall u, same_identity u (f u)) -> keeps R (usersCol_updateOne t f).
Proof. intros Hf. apply keeps_put. intros s. by apply (users_update R HR). Qed.

Lemma keeps_usersCol_findOneAndUpdate (t : Z) (f : user -> user) :
  (forall u, same_identity u (f u)) -> keeps R (usersCol_findOneAndUpdate t f).
Proof. intros Hf s. by apply (users_update R HR). Qed.

Lemma keeps_usersCol_insertOne (t : Z) (u : user) :
  keeps R (usersCol_insertOne t u).
Proof.
  intros s. unfold final, usersCol_insertOne.
  change (has_unique_index Users F_telegramId) with true.
  change (has_unique_index Users F_referralCode) with true.
  cbn [andb].
  destruct (bool_decide (is_Some (users s !! t))) eqn:E1; cbn; [reflexivity|].
  destruct (bool_decide (is_Some (find_by_code (referralCode u) (users s))))
    eqn:E2; cbn; [reflexivity|].
  apply bool_decide_eq_false in E1, E2.
  apply (users_insert R HR); by apply eq_None_not_Some.
Qed.

Lemma keeps_pendingCol_updateOne (i : N) (f : pendingDoc -> pendingDoc) :
  (forall d, same_referral d (f d)) -> keeps R (pendingCol_updateOne i f).
Proof. intros Hf. apply keeps_put. intros s. by apply (pending_update R HR). Qed.

Lemma keeps_pendingCol_insertOne (p : pendingDoc) :
  keeps R (pendingCol_insertOne p).
Proof.
  intros s. unfold final, pendingCol_insertOne.
  change (has_unique_index Pending F_referredId) with false. cbn.
  by apply (pending_insert R HR).
Qed.

Lemma keeps_withdrawalsCol_updateOne (i : N) (f : withdrawal -> withdrawal) :
  (forall w, same_request w (f w)) -> keeps R (withdrawalsCol_updateOne i f).
Proof. intros Hf. apply keeps_put. intros s. by apply (withdrawals_update R HR). Qed.

Lemma keeps_withdrawalsCol_insertOne (w : withdrawal) :
  keeps R (withdrawalsCol_insertOne w).
Proof. apply keeps_put. intros s. by apply (withdrawals_insert R HR). Qed.

Lemma keeps_refsCol_insertOne (r : refDoc) :
  refs_kept R -> keeps R (refsCol_insertOne r).
Proof. intros Hrefs. apply keeps_put. intros s. apply Hrefs. Qed.

End Keeps.

Ltac keeps_step :=
  lazymatch goal with
  | |- keeps ?R (bind _ _) => apply (keeps_bind R); [|intros ?]
  | |- keeps ?R (ret _) => apply (keeps_ret R)
  | |- keeps ?R throw => apply (keeps_throw R)
  | |- keeps ?R (emit _) => apply (keeps_emit R)
  | |- keeps ?R (reply _) => apply (keeps_emit R)
  | |- keeps ?R (sendMessage _ _) => apply (keeps_emit R)
  | |- keeps ?R answerCbQuery => apply (keeps_emit R)
  | |- keeps ?R sendMainMenu => apply (keeps_emit R)
  | |- keeps ?R (get _ _) => apply (keeps_get R)
  | |- keeps ?R (usersCol_findOne _) => apply (keeps_get R)
  | |- keeps ?R (usersCol_findOne_referralCode _) => apply (keeps_get R)
  | |- keeps ?R (pendingCol_findOne_referredId _) => apply (keeps_get R)
  | |- keeps ?R (pendingCol_find _) => apply (keeps_get R)
  | |- keeps ?R (refsCol_findOne_referredId _) => apply (keeps_get R)
  | |- keeps ?R (withdrawalsCol_findOne_pending _) => apply (keeps_get R)
  | |- keeps ?R withdrawalsCol_find => apply (keeps_get R)
  | |- keeps ?R (try_catch _ _) => apply (keeps_try_catch R)
  | |- keeps ?R (entered _ _) => apply (keeps_entered R)
  | |- keeps ?R (for_each _ _) => apply (keeps_for_each R); intros ?
  | |- keeps ?R (for_of _ _ _) => apply (keeps_for_of R); intros ? ?
  | |- keeps ?R (usersCol_updateOne _ _) =>
      apply (keeps_usersCol_updateOne R); [assumption|by intros []]
  | |- keeps ?R (usersCol_findOneAndUpdate _ _) =>
      apply (keeps_usersCol_findOneAndUpdate R); [assumption|by intros []]
  | |- keeps ?R (usersCol_insertOne _ _) =>
      apply (keeps_usersCol_insertOne R); assumption
  | |- keeps ?R (pendingCol_updateOne _ _) =>
      apply (keeps_pendingCol_updateOne R); [assumption|by intros []]
  | |- keeps ?R (pendingCol_insertOne _) =>
      apply (keeps_pendingCol_insertOne R); assumption
  | |- keeps ?R (withdrawalsCol_updateOne _ _) =>
      apply (keeps_withdrawalsCol_updateOne R); [assumption|by intros []]
  | |- keeps ?R (withdrawalsCol_insertOne _) =>
      apply (keeps_withdrawalsCol_insertOne R); assumption
  | |- keeps ?R (refsCol_insertOne _) =>
      apply (keeps_refsCol_insertOne R); assumption
  | |- keeps ?R (if ?b then _ else _) => destruct b
  | |- keeps ?R (match ?x with _ => _ end) => destruct x
  end.

Section HandlersKeep.

Context (cfg : config) (R : relation db) `{!PreOrder R} (HW : writes_kept R).

Lemma keeps_ensureUserProfile (from : sender) (code : string) (now : Z) :
  keeps R (ensureUserProfile from code now).
Proof.
  unfold ensureUserProfile. keeps_step; [keeps_step|].
  destruct a as [u|]; [|repeat keeps_step].
  destruct (name_update (from_username from) (username u)),
    (name_update (from_first_name from) (first_name u)); cbn;
    repeat keeps_step.
Qed.

Lemma keeps_dialogue (t : Z) (u : user) (text : string) (now : Z) :
  keeps R (dialogue cfg t u text now).
Proof. unfold dialogue. repeat keeps_step. Qed.

Lemma keeps_on_text (from : sender) (text code : string) (now : Z)
    (next : M unit) :
  keeps R next -> keeps R (on_text cfg from text code now next).
Proof.
  intros Hn. unfold on_text. keeps_step; [|by destruct a; [keeps_step|]].
  keeps_step; [|keeps_step].
  keeps_step; [keeps_step|].
  keeps_step; [|apply keeps_dialogue].
  destruct a; [keeps_step|apply keeps_ensureUserProfile].
Qed.

Lemma keeps_before_command (u : update) (s : db) : R s (before_command cfg u s).
Proof.
  destruct u; cbn [before_command]; try reflexivity;
    apply (keeps_on_text _ _ _ _ (ret tt)); keeps_step.
Qed.

(** An update that runs no confirmation pass is a sequence of writes outside
    [refs]. *)
Lemma keeps_quiet (u : update) (s : db) :
  pass_of cfg u s = None -> R s (step cfg u s).
Proof.
  intros Hp. unfold step.
  destruct u; cbn [handle]; cbn [pass_of] in Hp; try discriminate Hp;
    try lazymatch goal with
        | |- R ?s (final ?m ?s) =>
            lazymatch m with
            | on_text _ _ _ _ _ (on_admin_confirm _ _ _ _) => idtac
            | on_admin_confirm_button _ _ _ => idtac
            | _ => enough (Hk : keeps R m) by apply Hk; clear Hp s
            end
        end.
  - unfold on_start, register_referral. keeps_step; [|keeps_step].
    keeps_step; [apply keeps_ensureUserProfile|].
    repeat keeps_step.
  - unfold on_lookup, replyBalance, replyProfile, replyStatus.
    keeps_step. destruct k;
      (keeps_step; [apply keeps_ensureUserProfile|repeat keeps_step]).
  - unfold on_setupi, startUpiSetup. keeps_step.
    keeps_step; [apply keeps_ensureUserProfile|repeat keeps_step].
  - unfold on_withdraw, startWithdrawFlow. keeps_step.
    keeps_step; [apply keeps_ensureUserProfile|].
    do 2 keeps_step; [keeps_step..|]. cbv zeta.
    destruct (truthy (primaryUPI a)); repeat keeps_step.
  - apply keeps_on_text. keeps_step.
  - unfold on_support. repeat keeps_step.
  - apply keeps_on_text. unfold on_pay. repeat keeps_step.
  - apply keeps_on_text. unfold on_cancelwithdraw. repeat keeps_step.
  - rewrite final_on_text_next.
    destruct (passed_on from s) eqn:Hpass.
    + rewrite andb_true_r in Hp.
      destruct (isAdmin cfg (from_id from)) eqn:Ha; [discriminate Hp|].
      etransitivity;
        [apply (keeps_on_text from text code now (ret tt)); keeps_step|].
      unfold on_admin_confirm. rewrite Ha. cbn [negb].
      apply (keeps_emit R).
    + apply (keeps_on_text from text code now (ret tt)). keeps_step.
  - destruct (isAdmin cfg (from_id from)) eqn:Ha; [discriminate Hp|].
    enough (Hk : keeps R (on_admin_confirm_button cfg from now)) by apply Hk.
    unfold on_admin_confirm_button. rewrite Ha. cbn [negb].
    keeps_step; keeps_step.
  - apply keeps_on_text. unfold on_admin_credit. repeat keeps_step.
Qed.

Context (Hrefs : refs_kept R).

Lemma keeps_confirmPendingReferrals (force : bool) (now : Z) :
  keeps R (confirmPendingReferrals cfg force now).
Proof.
  unfold confirmPendingReferrals, confirm_loop. keeps_step; [keeps_step|].
  keeps_step. unfold confirm_one, invalidate. destruct a0 as [i p].
  repeat keeps_step.
Qed.

(** Every update is a sequence of these writes. *)
Lemma keeps_handle (u : update) : keeps R (handle cfg u).
Proof.
  intros s. change (R s (step cfg u s)).
  destruct (pass_of cfg u s) as [[force now]|] eqn:Hp; [|by apply keeps_quiet].
  rewrite (pass_of_step cfg u force now s Hp).
  etransitivity; [apply keeps_before_command|].
  apply keeps_confirmPendingReferrals.
Qed.

Lemma keeps_run (us : list update) (s : db) : R s (run cfg us s).
Proof.
  revert s. induction us as [|u us IH]; intros s; [reflexivity|].
  cbn. etransitivity; [apply (keeps_handle u s)|apply IH].
Qed.

End HandlersKeep.

(** ** Stored records stay *)

Lemma kept_alter `{Countable K} {V} (S : relation V) (m : gmap K V)
    (f : V -> V) (k i : K) (v : V) :
  (forall x, S x x) -> (forall x, S x (f x)) -> m !! i = Some v ->
  exists v', alter f k m !! i = Some v' /\ S v v'.
Proof.
  intros Hrefl Hf Hi. destruct (decide (k = i)) as [->|Hne].
  - rewrite lookup_alter_eq, Hi. cbn. eauto.
  - rewrite lookup_alter_ne by done. eauto.
Qed.

Lemma kept_insert `{Countable K} {V} (S : relation V) (m : gmap K V)
    (k i : K) (p v : V) :
  (forall x, S x x) -> m !! k = None -> m !! i = Some v ->
  exists v', <[k := p]> m !! i = Some v' /\ S v v'.
Proof.
  intros Hrefl Hk Hi. rewrite lookup_insert_ne by congruence. eauto.
Qed.

Lemma fresh_None {V} (m : gmap N V) : m !! fresh (dom m) = None.
Proof. apply not_elem_of_dom, is_fresh. Qed.

Lemma same_identity_refl u : same_identity u u.
Proof. done. Qed.
Lemma same_request_refl w : same_request w w.
Proof. done. Qed.
Lemma same_referral_refl d : same_referral d d.
Proof. done. Qed.

Lemma history_preorder : PreOrder history.
Proof.
  split.
  - intros s. repeat split; eauto using same_identity_refl, same_request_refl,
      same_referral_refl.
    exists []. by rewrite app_nil_r.
  - intros s1 s2 s3 (U1 & W1 & P1 & l1 & R1) (U2 & W2 & P2 & l2 & R2).
    split; [|split; [|split]].
    + intros t u Hu. destruct (U1 t u Hu) as (u1 & Hu1 & I1).
      destruct (U2 t u1 Hu1) as (u2 & Hu2 & I2). exists u2.
      split; [done|]. unfold same_identity in *. intuition congruence.
    + intros i w Hw. destruct (W1 i w Hw) as (w1 & Hw1 & I1).
      destruct (W2 i w1 Hw1) as (w2 & Hw2 & I2). exists w2.
      split; [done|]. unfold same_request in *. intuition congruence.
    + intros i d Hd. destruct (P1 i d Hd) as (d1 & Hd1 & I1).
      destruct (P2 i d1 Hd1) as (d2 & Hd2 & I2). exists d2.
      split; [done|]. unfold same_referral in *. intuition congruence.
    + exists (l1 ++ l2). by rewrite R2, R1, app_assoc.
Qed.

Lemma history_users (f : gmap Z user -> gmap Z user) (s : db) :
  (forall t u, users s !! t = Some u ->
     exists u', f (users s) !! t = Some u' /\ same_identity u u') ->
  history s (with_users f s).
Proof.
  intros Hf. split; [exact Hf|]. cbn.
  repeat split; eauto using same_request_refl, same_referral_refl.
  exists []. by rewrite app_nil_r.
Qed.

Lemma history_pending (f : gmap N pendingDoc -> gmap N pendingDoc) (s : db) :
  (forall i d, pending s !! i = Some d ->
     exists d', f (pending s) !! i = Some d' /\ same_referral d d') ->
  history s (with_pending f s).
Proof.
  intros Hf. split; [|split; [|split; [exact Hf|]]]; cbn;
    eauto using same_identity_refl, same_request_refl.
  exists []. by rewrite app_nil_r.
Qed.

Lemma history_withdrawals (f : gmap N withdrawal -> gmap N withdrawal)
    (s : db) :
  (forall i w, withdrawals s !! i = Some w ->
     exists w', f (withdrawals s) !! i = Some w' /\ same_request w w') ->
  history s (with_withdrawals f s).
Proof.
  intros Hf. split; [|split; [exact Hf|split]]; cbn;
    eauto using same_identity_refl, same_referral_refl.
  exists []. by rewrite app_nil_r.
Qed.

Lemma history_respects : respects history.
Proof.
  split; [split|].
  - intros t f s Hf. apply history_users. intros t0 u Hu.
    by apply kept_alter.
  - intros t u s Hnone _. apply history_users. intros t0 u0 Hu.
    by apply kept_insert.
  - intros i f s Hf. apply history_pending. intros j d Hd.
    by apply kept_alter.
  - intros p s. apply history_pending. intros j d Hd.
    apply kept_insert; [done|apply fresh_None|done].
  - intros i f s Hf. apply history_withdrawals. intros j w Hw.
    by apply kept_alter.
  - intros w s. apply history_withdrawals. intros j w0 Hw.
    apply kept_insert; [done|apply fresh_None|done].
  - intros r s. repeat split; cbn;
      eauto using same_identity_refl, same_request_refl, same_referral_refl.
Qed.

Section Records.

Context (cfg : config).

Lemma run_history (us : list update) (s : db) : history s (run cfg us s).
Proof.
  exact (@keeps_run cfg history history_preorder (proj1 history_respects)
           (proj2 history_respects) us s).
Qed.

Lemma change_keeps_settled (k : kind) (s s' : db) (i : N) (w : withdrawal) :
  ledger_change cfg k s s' ->
  withdrawals s !! i = Some w -> w_status w <> WPending ->
  withdrawals s' !! i = Some w.
Proof.
  intros Hc Hi Hw.
  destruct Hc as [k s s' _ E|s s' t u u' _ _ _ E|s s' t u' _ _ _ _ _ E
    |s s' t u u' _ _ _ _ _ _ _ E|s s' t u u' _ _ _ _ _ _ E
    |s s' t u u' w0 _ _ _ _ _ _ _ _ _ E|s s' j w0 w' Hj Hp _ E _
    |s s' j w0 w' Hj Hp _ E _|s s' t q _ _ E|s s' _ E];
    rewrite E; try done.
  - rewrite lookup_insert_ne; [done|]. intros Heq.
    by rewrite <- Heq, fresh_None in Hi.
  - rewrite lookup_insert_ne; [done|]. intros ->. congruence.
  - rewrite lookup_insert_ne; [done|]. intros ->. congruence.
Qed.

Lemma step_keeps_settled_withdrawal (u : update) (s : db) (i : N)
    (w : withdrawal) :
  withdrawals s !! i = Some w -> w_status w <> WPending ->
  withdrawals (step cfg u s) !! i = Some w.
Proof.
  intros Hi Hw. destruct (step_changes cfg u s) as (s1 & H1 & H2).
  eauto using change_keeps_settled.
Qed.

Lemma step_keeps_settled_referral (u : update) (s : db) (i : N)
    (d : pendingDoc) :
  pending s !! i = Some d -> p_status d <> RPending ->
  pending (step cfg u s) !! i = Some d.
Proof.
  intros Hi Hd. destruct (pass_of cfg u s) as [[force now]|] eqn:Hp.
  - rewrite (pass_of_step cfg u force now s Hp).
    destruct (before_command_keeps cfg u force now s Hp) as (Hp1 & _).
    rewrite <- Hp1 in Hi. clear Hp1.
    generalize dependent (before_command cfg u s). clear s Hp. intros s Hi.
    destruct (confirm_loop_frame cfg now (selected cfg force now s)
                (mkSummary [] []) s)
      as (sum & s' & ev & cs & ns & Hloop & _ & _ & _ & _ & _ & _ & Hout & _).
    unfold final. rewrite confirmPendingReferrals_run.
    unfold confirm_loop. rewrite Hloop. cbn. rewrite Hout; [done|].
    intros ([j q] & -> & Hin)%list_elem_of_fmap. cbn in Hi.
    apply selected_spec in Hin as [Hj Hq]. rewrite Hi in Hj.
    injection Hj as <-. unfold query in Hq.
    apply andb_true_iff in Hq as [Hst _]. by destruct (p_status d).
  - destruct (quiet_step_pending cfg u s Hp) as [->|(p & _ & _ & ->)];
      [done|].
    rewrite lookup_insert_ne; [done|]. intros Heq.
    by rewrite <- Heq, fresh_None in Hi.
Qed.

(** X14.  Whatever updates arrive, an account is never deleted, and its
    referral code, its creation date and its badges never change. *)
Theorem accounts_are_kept (us : list update) (s : db) (t : Z) (u : user) :
  users s !! t = Some u ->
  exists u', users (run cfg us s) !! t = Some u' /\
    referralCode u' = referralCode u /\ createdAt u' = createdAt u /\
    badges u' = badges u.
Proof. intros Hu. by apply (run_history us s). Qed.

(** X15.  Whatever updates arrive, a withdrawal is never deleted and keeps
    its owner, payout target, amount and request date; once it is paid or
    cancelled it never changes again. *)
Theorem withdrawals_are_kept (us : list update) (s : db) (i : N)
    (w : withdrawal) :
  withdrawals s !! i = Some w ->
  exists w', withdrawals (run cfg us s) !! i = Some w' /\
    userId w' = userId w /\ upi w' = upi w /\ amount w' = amount w /\
    requestedAt w' = requestedAt w /\
    (w_status w <> WPending -> w' = w).
Proof.
  intros Hw. destruct (run_history us s) as (_ & W & _).
  destruct (W i w Hw) as (w' & Hw' & I1 & I2 & I3 & I4).
  exists w'. repeat split; try done.
  intros Hst. enough (withdrawals (run cfg us s) !! i = Some w) by congruence.
  clear - Hw Hst. revert s Hw.
  induction us as [|u us IH]; intros s Hw; [done|].
  cbn. apply IH. by apply step_keeps_settled_withdrawal.
Qed.

(** X16.  Whatever updates arrive, a stored referral is never deleted and
    keeps who referred whom, the code used and its creation date; once it
    is confirmed or invalidated it never changes again. *)
Theorem referrals_are_kept (us : list update) (s : db) (i : N)
    (d : pendingDoc) :
  pending s !! i = Some d ->
  exists d', pending (run cfg us s) !! i = Some d' /\
    referredId d' = referredId d /\ referrerId d' = referrerId d /\
    p_referralCode d' = p_referralCode d /\ p_createdAt d' = p_createdAt d /\
    (p_status d <> RPending -> d' = d).
Proof.
  intros Hd. destruct (run_history us s) as (_ & _ & P & _).
  destruct (P i d Hd) as (d' & Hd' & I1 & I2 & I3 & I4).
  exists d'. repeat split; try done.
  intros Hst. enough (pending (run cfg us s) !! i = Some d) by congruence.
  clear - Hd Hst. revert s Hd.
  induction us as [|u us IH]; intros s Hd; [done|].
  cbn. apply IH. by apply step_keeps_settled_referral.
Qed.

End Records.

Lemma accounts_are_kept_witness :
  users db_erin_idle !! 7 = Some erin_idle /\
  exists u', users (run default_config erin_requests db_erin_idle) !! 7 = Some u' /\
    referralCode u' = "ref_e"%string.
Proof.
  split; [reflexivity|].
  destruct (accounts_are_kept default_config erin_requests db_erin_idle 7
              erin_idle eq_refl) as (u' & Hu & Hc & _).
  exists u'. split; [exact Hu|exact Hc].
Defined.

Lemma withdrawals_are_kept_witness :
  withdrawals db_one_request !! 0%N = Some carol_request /\
  exists w',
    withdrawals (run default_config
                   [Pay admin "/pay 000000000000000000000000" (ObjectId 0)
                      "ref_a" 7;
                    CancelWithdraw admin
                      "/cancelwithdraw 000000000000000000000000" (ObjectId 0)
                      "ref_a" 8]
                   db_one_request) !! 0%N = Some w' /\
    amount w' = 100%Q.
Proof.
  split; [reflexivity|].
  destruct (withdrawals_are_kept default_config
              [Pay admin "/pay 000000000000000000000000" (ObjectId 0)
                 "ref_a" 7;
               CancelWithdraw admin
                 "/cancelwithdraw 000000000000000000000000" (ObjectId 0)
                 "ref_a" 8]
              db_one_request 0%N carol_request eq_refl)
    as (w' & Hw & _ & _ & Ha & _).
  exists w'. split; [exact Hw|exact Ha].
Defined.

Lemma referrals_are_kept_witness :
  pending db_referrals !! 0%N = Some self_referred /\
  exists d',
    pending (run default_config [Sweep 1000000000; Sweep 2000000000]
               db_referrals) !! 0%N = Some d' /\
    referrerId d' = 7.
Proof.
  split; [reflexivity|].
  destruct (referrals_are_kept default_config
              [Sweep 1000000000; Sweep 2000000000] db_referrals 0%N
              self_referred eq_refl) as (d' & Hd & _ & Hr & _).
  exists d'. split; [exact Hd|exact Hr].
Defined.

(** ** Referral codes *)

Lemma find_by_code_None (code : string) (m : gmap Z user) :
  find_by_code code m = None <->
  forall t u, m !! t = Some u -> referralCode u <> code.
Proof.
  unfold find_by_code. split.
  - intros Hnone t u Ht Heq.
    apply elem_of_map_to_list, list_elem_of_In in Ht.
    pose proof (find_none _ _ Hnone _ Ht) as Hf. cbn in Hf.
    apply String.eqb_neq in Hf. done.
  - intros Hall. destruct (List.find _ _) as [[t u]|] eqn:Hf; [|done].
    apply find_some in Hf as [Hin Heq]. cbn in Heq.
    apply list_elem_of_In, elem_of_map_to_list in Hin.
    apply String.eqb_eq in Heq. by destruct (Hall t u Hin).
Qed.

Lemma find_by_code_Some (code : string) (m : gmap Z user) (t : Z) (u : user) :
  find_by_code code m = Some (t, u) ->
  m !! t = Some u /\ referralCode u = code.
Proof.
  unfold find_by_code. intros Hf. apply find_some in Hf as [Hin Heq].
  cbn in Heq. apply list_elem_of_In, elem_of_map_to_list in Hin.
  by apply String.eqb_eq in Heq.
Qed.

Lemma codes_kept_preorder : PreOrder codes_kept.
Proof. split; unfold codes_kept; [intros s; tauto|intros s1 s2 s3; tauto]. Qed.

Lemma codes_kept_respects : respects codes_kept.
Proof.
  split; [split|]; try (intros; intros Hinv; exact Hinv).
  - intros t f s Hf Hinv t1 t2 u1 u2 H1 H2 Heq. cbn in H1, H2.
    assert (Hback : forall i v, alter f t (users s) !! i = Some v ->
              exists v0, users s !! i = Some v0 /\
                referralCode v = referralCode v0).
    { intros i v Hv. destruct (decide (t = i)) as [->|Hne].
      - rewrite lookup_alter_eq in Hv.
        destruct (users s !! i) as [v0|]; [|done]. cbn in Hv.
        injection Hv as <-. exists v0. split; [done|]. apply Hf.
      - rewrite lookup_alter_ne in Hv by done. eauto. }
    destruct (Hback _ _ H1) as (v1 & Hv1 & E1).
    destruct (Hback _ _ H2) as (v2 & Hv2 & E2).
    apply (Hinv t1 t2 v1 v2 Hv1 Hv2). congruence.
  - intros t u s Hnone Hcode Hinv t1 t2 u1 u2 H1 H2 Heq. cbn in H1, H2.
    rewrite find_by_code_None in Hcode.
    destruct (decide (t = t1)) as [<-|N1], (decide (t = t2)) as [<-|N2];
      [done|..].
    + rewrite lookup_insert_eq in H1. rewrite lookup_insert_ne in H2 by done.
      injection H1 as <-. by destruct (Hcode t2 u2 H2).
    + rewrite lookup_insert_eq in H2. rewrite lookup_insert_ne in H1 by done.
      injection H2 as <-. by destruct (Hcode t1 u1 H1).
    + rewrite lookup_insert_ne in H1, H2 by done. eauto.
  - intros r s Hinv. exact Hinv.
Qed.

Section Codes.

Context (cfg : config).

(** X17.  No two accounts ever share a referral code: uniqueness is kept by
    every sequence of updates and holds in every state the bot reaches.  It
    rests on the unique index: when the code drawn for a new account is the
    code of a stored account, [insertOne] throws, no account is created, and
    [/start] ends without a message. *)
Theorem referral_codes_stay_unique :
  (forall us s, codes_unique s -> codes_unique (run cfg us s)) /\
  (forall s, reachable cfg s -> codes_unique s) /\
  (forall from text code now s t u,
     users s !! from_id from = None ->
     users s !! t = Some u -> referralCode u = code ->
     handle cfg (Start from text code now) s
       = (Returned tt, s, [DbRead Users; DbWrite Users])).
Proof.
  assert (Hrun : forall us s, codes_unique s -> codes_unique (run cfg us s)).
  { intros us s.
    exact (@keeps_run cfg codes_kept codes_kept_preorder
             (proj1 codes_kept_respects) (proj2 codes_kept_respects) us s). }
  split; [exact Hrun|]. split.
  - intros s [us ->]. apply Hrun. intros t t' u u' Hu. done.
  - intros from text code now s t u Hnone Hu Hcode.
    cbn. unfold on_start, try_catch, bind, ensureUserProfile, bind,
      usersCol_findOne, get, usersCol_insertOne.
    rewrite Hnone.
    change (has_unique_index Users F_telegramId) with true.
    change (has_unique_index Users F_referralCode) with true.
    cbn [andb referralCode new_user].
    destruct (find_by_code code (users s)) as [[t' u']|] eqn:Hf.
    + rewrite (bool_decide_eq_true_2 _ (mk_is_Some _ _ eq_refl)).
      by rewrite orb_true_r.
    + rewrite find_by_code_None in Hf. by destruct (Hf t u Hu).
Qed.

End Codes.

Lemma referral_codes_stay_unique_witness :
  reachable default_config (run default_config erin_requests empty_db) /\
  codes_unique (run default_config erin_requests empty_db).
Proof.
  assert (H : reachable default_config
                (run default_config erin_requests empty_db))
    by (exists erin_requests; reflexivity).
  split; [exact H|].
  exact (proj1 (proj2 (referral_codes_stay_unique default_config)) _ H).
Defined.

(** ** Registering a referral *)

Section Registration.

Context (cfg : config).

Lemma find_by_code_owner (s : db) (code : string) (r : Z) (ru : user) :
  codes_unique s -> users s !! r = Some ru -> referralCode ru = code ->
  find_by_code code (users s) = Some (r, ru).
Proof.
  intros Hinv Hr Hcode.
  destruct (find_by_code code (users s)) as [[t u]|] eqn:Hf.
  - apply find_by_code_Some in Hf as [Ht Hu].
    assert (t = r) as -> by (apply (Hinv t r u ru); congruence).
    congruence.
  - rewrite find_by_code_None in Hf. by destruct (Hf r ru Hr).
Qed.

Lemma register_referral_new (t r : Z) (ru : user) (payload : string)
    (now : Z) (s : db) :
  String.prefix "ref_" payload = true ->
  find_by_code payload (users s) = Some (r, ru) -> r <> t ->
  find_by_referred t (pending s) = None -> find_ref t (refs s) = None ->
  register_referral t payload now s
  = (Returned tt,
     with_pending (insert (fresh (dom (pending s)))
                     (referral t r payload now)) s,
     [DbRead Users; DbRead Pending; DbRead Refs; DbWrite Pending;
      Send r YouReferred]).
Proof.
  intros Hpre Hf Hne Hp Hr. unfold register_referral. rewrite Hpre.
  unfold bind, usersCol_findOne_referralCode, pendingCol_findOne_referredId,
    refsCol_findOne_referredId, get, pendingCol_insertOne.
  rewrite Hf. apply Z.eqb_neq in Hne. rewrite Hne. cbn.
  rewrite Hp. cbn. rewrite Hr. cbn. reflexivity.
Qed.

Lemma register_referral_none (t : Z) (payload : string) (now : Z) (s : db) :
  String.prefix "ref_" payload = false \/
  (forall t' u, users s !! t' = Some u -> t' <> t ->
     referralCode u <> payload) ->
  exists ev, register_referral t payload now s = (Returned tt, s, ev) /\
    (ev = [] \/ ev = [DbRead Users]).
Proof.
  intros Hno. unfold register_referral.
  destruct (String.prefix "ref_" payload) eqn:Hpre; [|by eauto].
  destruct Hno as [?|Hno]; [done|].
  unfold bind, usersCol_findOne_referralCode, get.
  destruct (find_by_code payload (users s)) as [[r ru]|] eqn:Hf; cbn;
    [|by eauto].
  apply find_by_code_Some in Hf as [Hr Hcode].
  destruct (Z.eqb_spec r t) as [->|Hne]; cbn; [by eauto|].
  by destruct (Hno r ru Hr Hne).
Qed.

(** X18.  [/start] with the referral code of another account, from an
    identity that no stored referral names as referred, stores one pending
    referral (referred: the sender; referrer: the owner of the code; created
    now) under a fresh [_id], tells the referrer, and shows the main menu;
    accounts other than the sender's, [refs] and [withdrawals] are as
    before. *)
Theorem start_registers_the_referral (from : sender) (text code : string)
    (now : Z) (s : db) (r : Z) (ru : user) :
  codes_unique s ->
  String.prefix "ref_" (payload_of text) = true ->
  users s !! r = Some ru -> referralCode ru = payload_of text ->
  r <> from_id from ->
  ~ already_referred s (from_id from) ->
  (users s !! from_id from = None ->
   forall t u, users s !! t = Some u -> referralCode u <> code) ->
  let s' := step cfg (Start from text code now) s in
  pending s'
    = <[fresh (dom (pending s))
          := referral (from_id from) r (payload_of text) now]> (pending s) /\
  refs s' = refs s /\ withdrawals s' = withdrawals s /\
  (forall t, t <> from_id from -> users s' !! t = users s !! t) /\
  is_Some (users s' !! from_id from) /\
  exists l,
    events (handle cfg (Start from text code now)) s
      = l ++ [DbRead Users; DbRead Pending; DbRead Refs; DbWrite Pending;
              Send r YouReferred; Reply MainMenu] /\
    forall e, e ∈ l -> e = DbRead Users \/ e = DbWrite Users.
Proof.
  intros Hinv Hpre Hr Hcode Hne Hnot Hnew s'.
  assert (Hp : find_by_referred (from_id from) (pending s) = None).
  { apply find_by_referred_None. intros i p Hi Heq. apply Hnot. left. eauto. }
  assert (Hrf : find_ref (from_id from) (refs s) = None).
  { apply find_ref_None. intros x Hx Heq. apply Hnot. right. eauto. }
  pose proof (ensureUserProfile_events from code now s) as Hev.
  pose proof (@keeps_ensureUserProfile codes_kept codes_kept_preorder
                (proj1 codes_kept_respects) from code now s Hinv) as Hinv1.
  destruct (ensureUserProfile_run from code now s)
    as (res & s1 & l & Hrun & Hp1 & Hw1 & Hr1 & Hcase).
  unfold final in Hinv1. unfold events in Hev. rewrite Hrun in Hinv1, Hev.
  cbn in Hinv1, Hev.
  assert (Hu1 : exists u1, res = Returned u1 /\
            users s1 = <[from_id from := u1]> (users s)).
  { destruct (users s !! from_id from) as [u|] eqn:Hu.
    - destruct Hcase as (u' & -> & _ & Hs1). eauto.
    - destruct Hcase as [[-> ->]|[-> Hs1]]; [|by eauto].
      exfalso. revert Hrun.
      unfold ensureUserProfile, bind, usersCol_findOne, get.
      rewrite Hu. unfold usersCol_insertOne.
      change (has_unique_index Users F_telegramId) with true.
      change (has_unique_index Users F_referralCode) with true.
      cbn [andb referralCode new_user]. rewrite Hu.
      assert (Hf : find_by_code code (users s) = None).
      { apply find_by_code_None. by apply Hnew. }
      rewrite Hf.
      rewrite !bool_decide_eq_false_2 by (by intros [? ?]).
      cbn. intros [=]. }
  destruct Hu1 as (u1 & -> & Hs1).
  assert (Hr' : users s1 !! r = Some ru).
  { by rewrite Hs1, lookup_insert_ne. }
  pose proof (find_by_code_owner s1 _ r ru Hinv1 Hr' Hcode) as Hf.
  rewrite <- Hp1 in Hp. rewrite <- Hr1 in Hrf.
  pose proof (register_referral_new (from_id from) r ru (payload_of text) now
                s1 Hpre Hf Hne Hp Hrf) as Hreg.
  subst s'. unfold step, final, events. cbn [handle].
  unfold on_start, try_catch, bind. fold (payload_of text).
  rewrite Hrun, Hreg. cbn. rewrite Hp1, Hr1, Hw1, Hs1.
  repeat split; try done.
  - intros t Ht. by rewrite lookup_insert_ne.
  - by rewrite lookup_insert_eq.
  - exists l. split; [|exact Hev]. reflexivity.
Qed.

(** X19.  [/start] without a payload that begins with [ref_], with a code no
    account has, or with the sender's own code stores no referral and sends
    nothing to anybody else. *)
Theorem start_without_a_foreign_code_registers_nothing (from : sender)
    (text code : string) (now : Z) (s : db) :
  String.prefix "ref_" (payload_of text) = false \/
  (forall t u, users s !! t = Some u -> t <> from_id from ->
     referralCode u <> payload_of text) ->
  pending (step cfg (Start from text code now) s) = pending s /\
  refs (step cfg (Start from text code now) s) = refs s /\
  forall e, e ∈ events (handle cfg (Start from text code now)) s ->
    e = DbRead Users \/ e = DbWrite Users \/ e = Reply MainMenu.
Proof.
  intros Hno.
  pose proof (ensureUserProfile_events from code now s) as Hev.
  destruct (ensureUserProfile_run from code now s)
    as (res & s1 & l & Hrun & Hp1 & Hw1 & Hr1 & Hcase).
  unfold events in Hev. rewrite Hrun in Hev. cbn in Hev.
  unfold step, final, events. cbn [handle].
  unfold on_start, try_catch, bind. fold (payload_of text). rewrite Hrun.
  destruct res as [u1|]; cbn.
  2:{ rewrite app_nil_r. split; [done|]. split; [done|].
      intros e He. destruct (Hev e He); eauto. }
  assert (Hno1 : String.prefix "ref_" (payload_of text) = false \/
            (forall t u, users s1 !! t = Some u -> t <> from_id from ->
               referralCode u <> payload_of text)).
  { destruct Hno as [?|Hno]; [by left|right]. intros t u Ht Hne.
    apply (Hno t u); [|done].
    destruct (users s !! from_id from) as [u0|].
    - destruct Hcase as (u' & _ & _ & Hs1).
      by rewrite Hs1, lookup_insert_ne in Ht.
    - destruct Hcase as [[? ->]|[_ Hs1]]; [done|].
      by rewrite Hs1, lookup_insert_ne in Ht. }
  destruct (register_referral_none (from_id from) (payload_of text) now s1
              Hno1) as (ev & -> & Hevs).
  cbn. split; [done|]. split; [done|].
  intros e He. rewrite !elem_of_app in He. destruct He as [He|[He|He]].
  - destruct (Hev e He); eauto.
  - destruct Hevs as [-> | ->].
    + by apply elem_of_nil in He.
    + apply list_elem_of_singleton in He. eauto.
  - apply list_elem_of_singleton in He. eauto.
Qed.

End Registration.

Lemma start_registers_the_referral_witness :
  codes_unique db_erin_idle /\
  String.prefix "ref_" (payload_of "/start ref_e") = true /\
  users db_erin_idle !! 7 = Some erin_idle /\
  ~ already_referred db_erin_idle (from_id frank) /\
  pending (step default_config (Start frank "/start ref_e" "ref_f" 20)
             db_erin_idle)
    = <[fresh (dom (pending db_erin_idle)) := referral 8 7 "ref_e" 20]>
        (pending db_erin_idle).
Proof.
  assert (Hone : forall t u, users db_erin_idle !! t = Some u ->
            t = 7 /\ u = erin_idle).
  { intros t u Hu. unfold db_erin_idle in Hu. cbn [users] in Hu.
    by apply lookup_singleton_Some in Hu as [<- <-]. }
  assert (Hinv : codes_unique db_erin_idle).
  { intros t t' u u' Hu Hu' _.
    destruct (Hone t u Hu) as [-> _]. by destruct (Hone t' u' Hu') as [-> _]. }
  assert (Hnot : ~ already_referred db_erin_idle (from_id frank)).
  { intros [(i & p & Hi & _)|(r & Hr & _)].
    - unfold db_erin_idle in Hi. cbn [pending] in Hi.
      by rewrite lookup_empty in Hi.
    - unfold db_erin_idle in Hr. cbn [refs] in Hr.
      by apply elem_of_nil in Hr. }
  split; [exact Hinv|]. split; [reflexivity|]. split; [reflexivity|].
  split; [exact Hnot|].
  apply (start_registers_the_referral default_config frank "/start ref_e"
           "ref_f" 20 db_erin_idle 7 erin_idle Hinv eq_refl eq_refl eq_refl).
  - discriminate.
  - exact Hnot.
  - intros _ t u Hu. destruct (Hone t u Hu) as [_ ->]. discriminate.
Defined.

Lemma start_without_a_foreign_code_registers_nothing_witness :
  String.prefix "ref_" (payload_of "/start  ref_e") = false /\
  pending (step default_config (Start frank "/start  ref_e" "ref_f" 20)
             db_erin_idle)
    = pending db_erin_idle.
Proof.
  split; [reflexivity|].
  exact (proj1 (start_without_a_foreign_code_registers_nothing default_config
                  frank "/start  ref_e" "ref_f" 20 db_erin_idle
                  (or_introl eq_refl))).
Defined.

(** ** A confirmation pass, exactly *)

Section Pass.

Context (cfg : config).

Lemma confirm_one_exact (now : Z) (s0 : db) (i : N) (p : pendingDoc)
    (acc : summary) (s : db) :
  (forall t, is_Some (users s !! t) <-> is_Some (users s0 !! t)) ->
  exists s1 ev,
    confirm_one cfg now (i, p) acc s
    = (Returned (if confirms s0 p then push_confirmed i acc
                 else push_invalidated i acc), s1, ev) /\
    withdrawals s1 = withdrawals s /\
    pending s1 = alter (settle s0 now p) i (pending s) /\
    users s1 = (if confirms s0 p
                then alter (credit_referrer cfg) (referrerId p) (users s)
                else users s) /\
    refs s1 = (if confirms s0 p then refs s ++ [ref_of now p] else refs s).
Proof.
  intros Hdom. rewrite confirm_one_run. unfold settle, confirms, why_not.
  destruct (Z.eqb (referredId p) (referrerId p)); cbn.
  { eexists _, _. split; [reflexivity|]. done. }
  destruct (users s !! referredId p) as [u1|] eqn:H1.
  2:{ rewrite bool_decide_eq_false_2.
      2:{ rewrite <- Hdom, H1. by intros [? ?]. }
      cbn. eexists _, _. split; [reflexivity|]. done. }
  rewrite bool_decide_eq_true_2 by (rewrite <- Hdom, H1; eauto).
  destruct (users s !! referrerId p) as [u2|] eqn:H2.
  - rewrite bool_decide_eq_true_2 by (rewrite <- Hdom, H2; eauto).
    cbn. eexists _, _. split; [reflexivity|]. done.
  - rewrite bool_decide_eq_false_2.
    2:{ rewrite <- Hdom, H2. by intros [? ?]. }
    cbn. eexists _, _. split; [reflexivity|]. cbn. repeat split.
    apply map_eq. intros t. destruct (decide (referrerId p = t)) as [<-|Hne].
    + by rewrite lookup_alter_eq, H2.
    + by rewrite lookup_alter_ne.
Qed.

Lemma earned_cons (s0 : db) (i : N) (p : pendingDoc)
    (l : list (N * pendingDoc)) (t : Z) :
  earned s0 ((i, p) :: l) t
  = ((if confirms s0 p && Z.eqb (referrerId p) t then 1 else 0)
     + earned s0 l t)%nat.
Proof.
  unfold earned, confirmable. cbn. destruct (confirms s0 p); cbn; [|done].
  by destruct (Z.eqb (referrerId p) t).
Qed.

(** The loop, from the accounts [s0] it started with: the summary, the
    records of [refs], the credits and the updates of [pending] it makes. *)
Lemma confirm_loop_exact (now : Z) (s0 : db) (l : list (N * pendingDoc)) :
  NoDup l.*1 ->
  forall (acc : summary) (s : db),
  (forall t, is_Some (users s !! t) <-> is_Some (users s0 !! t)) ->
  exists s' ev,
    for_of l (confirm_one cfg now) acc s
    = (Returned (mkSummary (confirmed acc ++ (confirmable s0 l).*1)
                   (invalidated acc ++ (rejected s0 l).*1)), s', ev) /\
    withdrawals s' = withdrawals s /\
    refs s' = refs s ++ map (fun kv => ref_of now (snd kv)) (confirmable s0 l) /\
    (forall t, users s' !! t
       = Nat.iter (earned s0 l t) (credit_referrer cfg) <$> users s !! t) /\
    (forall j, j ∉ l.*1 -> pending s' !! j = pending s !! j) /\
    (forall j q, (j, q) ∈ l ->
       pending s' !! j = settle s0 now q <$> pending s !! j).
Proof.
  induction l as [|[i p] l IH]; intros Hnd acc s Hdom.
  { eexists _, _. split.
    - cbn. unfold ret. by rewrite !app_nil_r; destruct acc.
    - cbn. rewrite app_nil_r. repeat split; try done.
      + intros t. by destruct (users s !! t).
      + intros j q Hin. by apply elem_of_nil in Hin. }
  cbn in Hnd. apply NoDup_cons in Hnd as [Hi Hnd].
  destruct (confirm_one_exact now s0 i p acc s Hdom)
    as (s1 & ev1 & Hone & Hw1 & Hp1 & Hu1 & Hr1).
  assert (Hdom1 : forall t, is_Some (users s1 !! t) <-> is_Some (users s0 !! t)).
  { intros t. rewrite <- Hdom, Hu1. destruct (confirms s0 p); [|done].
    destruct (decide (referrerId p = t)) as [<-|Hne].
    - rewrite lookup_alter_eq. by rewrite fmap_is_Some.
    - by rewrite lookup_alter_ne. }
  destruct (IH Hnd (if confirms s0 p then push_confirmed i acc
                    else push_invalidated i acc) s1 Hdom1)
    as (s' & ev & Hloop & Hw & Hr & Hu & Hout & Hin).
  eexists s', _. split.
  { rewrite for_of_cons, Hone, Hloop. unfold confirmable, rejected. cbn.
    destruct (confirms s0 p); cbn; by rewrite <- ?app_assoc. }
  split; [congruence|]. split.
  { rewrite Hr, Hr1. unfold confirmable. cbn.
    destruct (confirms s0 p); cbn; by rewrite <- ?app_assoc. }
  split.
  { intros t. rewrite Hu, Hu1, earned_cons.
    destruct (confirms s0 p); cbn; [|done].
    destruct (Z.eqb_spec (referrerId p) t) as [<-|Hne].
    - rewrite lookup_alter_eq. destruct (users s !! referrerId p); [|done].
      cbn. by rewrite <- Nat.iter_succ_r.
    - by rewrite lookup_alter_ne. }
  split.
  { intros j Hj. cbn in Hj. apply not_elem_of_cons in Hj as [Hne Hj].
    rewrite (Hout j Hj), Hp1. by rewrite lookup_alter_ne. }
  intros j q Hjq. apply elem_of_cons in Hjq as [[= -> ->]|Hjq].
  - rewrite (Hout i Hi), Hp1. by rewrite lookup_alter_eq.
  - rewrite (Hin j q Hjq), Hp1. rewrite lookup_alter_ne; [done|].
    intros ->. apply Hi. apply list_elem_of_fmap. by exists (j, q).
Qed.

Lemma pass_exact (force : bool) (now : Z) (s : db) :
  let l := selected cfg force now s in
  let s' := final (confirmPendingReferrals cfg force now) s in
  value (confirmPendingReferrals cfg force now) s
    = Returned (mkSummary (confirmable s l).*1 (rejected s l).*1) /\
  withdrawals s' = withdrawals s /\
  refs s' = refs s ++ map (fun kv => ref_of now (snd kv)) (confirmable s l) /\
  (forall t, users s' !! t
     = Nat.iter (earned s l t) (credit_referrer cfg) <$> users s !! t) /\
  (forall i p, pending s !! i = Some p ->
     pending s' !! i
     = Some (if query cfg force now p then settle s now p p else p)) /\
  (forall i, pending s !! i = None -> pending s' !! i = None).
Proof.
  intros l s'. subst s'.
  destruct (confirm_loop_exact now s l (selected_NoDup cfg force now s)
              (mkSummary [] []) s (fun t => iff_refl _))
    as (s' & ev & Hloop & Hw & Hr & Hu & Hout & Hin).
  unfold value, final. rewrite confirmPendingReferrals_run.
  fold l. unfold confirm_loop. rewrite Hloop. cbn.
  repeat split; try done.
  - intros i p Hi. destruct (query cfg force now p) eqn:Hq.
    + assert (Hsel : (i, p) ∈ l) by (by apply selected_spec).
      by rewrite (Hin i p Hsel), Hi.
    + rewrite Hout; [done|].
      intros ([j q] & -> & Hjq)%list_elem_of_fmap.
      apply selected_spec in Hjq as [Hj Hq']. cbn in Hi. congruence.
  - intros i Hi. rewrite Hout; [done|].
    intros ([j q] & -> & Hjq)%list_elem_of_fmap.
    apply selected_spec in Hjq as [Hj _]. cbn in Hi. congruence.
Qed.

Lemma iter_credit_referrer (n : nat) (u : user) :
  exists b, (b == balance u + inject_Z (Z.of_nat n) * REFERRAL_REWARD cfg)%Q /\
    Nat.iter n (credit_referrer cfg) u
    = set_confirmedReferrals (confirmedReferrals u + Z.of_nat n)
        (set_balance b u).
Proof.
  induction n as [|n (b & Hb & IH)].
  - exists (balance u). split; [cbn; ring|]. cbn. rewrite Z.add_0_r.
    by destruct u.
  - exists (b + REFERRAL_REWARD cfg)%Q. split.
    + rewrite Hb, Nat2Z.inj_succ. unfold Z.succ. rewrite inject_Z_plus. ring.
    + rewrite Nat.iter_succ, IH. unfold credit_referrer,
        inc_confirmedReferrals, inc_balance, set_confirmedReferrals,
        set_balance. destruct u. cbn. f_equal. lia.
Qed.

Lemma settle_not_pending (s : db) (now : Z) (p d : pendingDoc) :
  p_status (settle s now p d) <> RPending.
Proof. unfold settle. by destruct (confirms s p). Qed.

Lemma query_pending (force : bool) (now : Z) (p : pendingDoc) :
  query cfg force now p = true -> p_status p = RPending.
Proof.
  unfold query. intros [Hst _]%andb_true_iff. by destruct (p_status p).
Qed.

(** X20.  A pass rewrites exactly the referrals it selects, each once, from
    the accounts stored when it starts: a referral of oneself is invalidated
    as [self_referral], one whose referred account is missing as
    [no_user_record], one whose referrer account is missing as
    [no_referrer_record], and any other is confirmed with the clock of the
    pass.  Every other referral, and every withdrawal, stays as it is, and
    after a forced pass no referral is pending. *)
Theorem pass_settles_what_it_selects (force : bool) (now : Z) (s : db) :
  let s' := final (confirmPendingReferrals cfg force now) s in
  (forall i p, pending s !! i = Some p -> query cfg force now p = true ->
     pending s' !! i
     = Some (if Z.eqb (referredId p) (referrerId p)
             then mark_invalid self_referral p
             else match users s !! referredId p, users s !! referrerId p with
                  | None, _ => mark_invalid no_user_record p
                  | Some _, None => mark_invalid no_referrer_record p
                  | Some _, Some _ => mark_confirmed now p
                  end)) /\
  (forall i p, pending s !! i = Some p -> query cfg force now p = false ->
     pending s' !! i = Some p) /\
  (forall i, pending s !! i = None -> pending s' !! i = None) /\
  withdrawals s' = withdrawals s /\
  (force = true ->
   forall i d, pending s' !! i = Some d -> p_status d <> RPending).
Proof.
  intros s'. destruct (pass_exact force now s) as (_ & Hw & _ & _ & Hp & Hn).
  fold s' in Hw, Hp, Hn. split.
  { intros i p Hi Hq. rewrite (Hp i p Hi), Hq. f_equal.
    unfold settle, confirms, why_not.
    destruct (Z.eqb (referredId p) (referrerId p)); cbn; [done|].
    destruct (users s !! referredId p) as [u1|].
    - rewrite bool_decide_eq_true_2 by eauto.
      destruct (users s !! referrerId p) as [u2|].
      + by rewrite bool_decide_eq_true_2 by eauto.
      + by rewrite bool_decide_eq_false_2 by (by intros [? ?]).
    - by rewrite bool_decide_eq_false_2 by (by intros [? ?]). }
  split.
  { intros i p Hi Hq. by rewrite (Hp i p Hi), Hq. }
  split; [exact Hn|]. split; [exact Hw|].
  intros -> i d Hd. destruct (pending s !! i) as [p|] eqn:Hi.
  - rewrite (Hp i p Hi) in Hd. injection Hd as <-.
    destruct (query cfg true now p) eqn:Hq.
    + apply settle_not_pending.
    + unfold query in Hq. rewrite orb_true_l, andb_true_r in Hq.
      by destruct (p_status p).
  - by rewrite (Hn i Hi) in Hd.
Qed.

(** X21.  A pass creates and deletes no account, and it credits an account
    one [REFERRAL_REWARD] and one confirmed referral for each referral it
    confirms with that account as referrer; nothing else of the account
    changes, and an account that referred none of them stays as it is. *)
Theorem pass_credits_one_reward_per_confirmation (force : bool) (now : Z)
    (s : db) (t : Z) :
  let s' := final (confirmPendingReferrals cfg force now) s in
  let n := earned s (selected cfg force now s) t in
  (users s !! t = None -> users s' !! t = None) /\
  (forall u, users s !! t = Some u ->
     exists b,
       (b == balance u + inject_Z (Z.of_nat n) * REFERRAL_REWARD cfg)%Q /\
       users s' !! t
       = Some (set_confirmedReferrals (confirmedReferrals u + Z.of_nat n)
                 (set_balance b u))) /\
  (forall u, users s !! t = Some u ->
     (forall i p, pending s !! i = Some p -> query cfg force now p = true ->
        confirms s p = true -> referrerId p <> t) ->
     users s' !! t = Some u).
Proof.
  intros s' n. destruct (pass_exact force now s) as (_ & _ & _ & Hu & _).
  fold s' in Hu. specialize (Hu t). fold n in Hu. split; [|split].
  - intros Hnone. by rewrite Hu, Hnone.
  - intros u Hsome. rewrite Hu, Hsome. cbn.
    destruct (iter_credit_referrer n u) as (b & Hb & ->). eauto.
  - intros u Hsome Hnot. rewrite Hu, Hsome. cbn.
    enough (n = 0%nat) as -> by done.
    subst n. unfold earned, confirmable.
    apply length_zero_iff_nil.
    destruct (List.filter _ _) as [|[i p] rest] eqn:Hf; [done|].
    assert (Hin : In (i, p) ((i, p) :: rest)) by (by left).
    rewrite <- Hf in Hin. apply filter_In in Hin as [Hin Ht].
    apply filter_In in Hin as [Hin Hc]. cbn in Ht, Hc.
    apply list_elem_of_In, selected_spec in Hin as [Hi Hq].
    apply Z.eqb_eq in Ht. by destruct (Hnot i p Hi Hq Hc).
Qed.

(** X22.  A pass ends normally and reports each referral it selected once, as
    confirmed or as invalidated; it appends to [refs] one record for each
    confirmed one, in the order of its report, and nothing else. *)
Theorem pass_reports_and_records_each_confirmation (force : bool) (now : Z)
    (s : db) :
  let l := selected cfg force now s in
  exists sum,
    value (confirmPendingReferrals cfg force now) s = Returned sum /\
    confirmed sum = (confirmable s l).*1 /\
    invalidated sum = (rejected s l).*1 /\
    NoDup (confirmed sum ++ invalidated sum) /\
    (forall i, i ∈ confirmed sum ++ invalidated sum <->
       exists p, pending s !! i = Some p /\ query cfg force now p = true) /\
    refs (final (confirmPendingReferrals cfg force now) s)
      = refs s ++ map (fun kv => ref_of now (snd kv)) (confirmable s l) /\
    length (confirmable s l) = length (confirmed sum).
Proof.
  intros l. destruct (pass_exact force now s) as (Hv & _ & Hr & _).
  fold l in Hv, Hr. eexists. split; [exact Hv|]. cbn.
  split; [done|]. split; [done|].
  assert (Hperm : (confirmable s l).*1 ++ (rejected s l).*1 ≡ₚ l.*1).
  { unfold confirmable, rejected. clear. induction l as [|[i p] l IH]; [done|].
    cbn. destruct (confirms s p); cbn.
    - by rewrite IH.
    - rewrite <- Permutation_middle. by rewrite IH. }
  split; [|split; [|split]].
  - rewrite Hperm. apply selected_NoDup.
  - intros i. rewrite Hperm. split.
    + intros ([j q] & -> & Hjq)%list_elem_of_fmap.
      apply selected_spec in Hjq. eauto.
    + intros (p & Hi & Hq). apply list_elem_of_fmap. exists (i, p).
      split; [done|]. by apply selected_spec.
  - exact Hr.
  - by rewrite length_fmap.
Qed.

(** X23.  After a forced pass there is nothing left to do: a pass that
    follows it, forced or not and whatever the clock, reports nothing and
    leaves the database as it is. *)
Theorem nothing_is_left_after_a_forced_pass (now1 now2 : Z) (force : bool)
    (s : db) :
  let s1 := final (confirmPendingReferrals cfg true now1) s in
  confirmPendingReferrals cfg force now2 s1
  = (Returned (mkSummary [] []), s1, [DbRead Pending]).
Proof.
  intros s1. rewrite confirmPendingReferrals_run.
  assert (Hnil : selected cfg force now2 s1 = []).
  { destruct (selected cfg force now2 s1) as [|[i p] l] eqn:Hsel; [done|].
    assert (Hin : (i, p) ∈ selected cfg force now2 s1)
      by (rewrite Hsel; left).
    apply selected_spec in Hin as [Hi Hq]. apply query_pending in Hq.
    destruct (pass_exact true now1 s) as (_ & _ & _ & _ & Hp & Hn).
    fold s1 in Hp, Hn. destruct (pending s !! i) as [p0|] eqn:Hi0.
    - rewrite (Hp i p0 Hi0) in Hi. injection Hi as <-.
      destruct (query cfg true now1 p0) eqn:Hq0.
      + by destruct (settle_not_pending s now1 p0 p0).
      + unfold query in Hq0. rewrite Hq in Hq0. done.
    - by rewrite (Hn i Hi0) in Hi. }
  by rewrite Hnil.
Qed.

(** X24.  The scheduled pass selects the pending referrals that are at least
    [CONFIRM_DELAY_HOURS] old, provided the cutoff is not before the epoch;
    a forced pass selects every pending referral. *)
Theorem scheduled_pass_waits_for_the_delay (now : Z) (p : pendingDoc) :
  (0 <= inject_Z now - CONFIRM_DELAY_HOURS cfg * 3600 * 1000)%Q ->
  (query cfg false now p = true <->
     p_status p = RPending /\
     (inject_Z (p_createdAt p) + CONFIRM_DELAY_HOURS cfg * 3600 * 1000
        <= inject_Z now)%Q) /\
  (query cfg true now p = true <-> p_status p = RPending).
Proof.
  intros Hpos. unfold query, cutoff, timeClip.
  set (v := (inject_Z now - CONFIRM_DELAY_HOURS cfg * 3600 * 1000)%Q) in *.
  assert (Hst : referral_status_eqb (p_status p) RPending = true <->
                p_status p = RPending) by (by destruct (p_status p)).
  split.
  - rewrite andb_true_iff, orb_false_l, Z.leb_le, Hst.
    assert (Hnum : 0 <= Qnum v).
    { revert Hpos. generalize v. intros q Hq. unfold Qle in Hq.
      cbn in Hq. lia. }
    rewrite Z.quot_div_nonneg by lia.
    assert (Hiff : p_createdAt p <= Qnum v / Z.pos (Qden v) <->
              (inject_Z (p_createdAt p) <= v)%Q).
    { revert Hnum. generalize v. intros q Hnum.
      unfold Qle. cbn. rewrite Z.mul_1_r. split.
      - intros Hle.
        pose proof (Z.mul_div_le (Qnum q) (Z.pos (Qden q)) ltac:(lia)). nia.
      - intros Hle. apply Z.div_le_lower_bound; lia. }
    rewrite Hiff. subst v. split; intros [H1 H2]; (split; [done|]); lra.
  - rewrite andb_true_iff, orb_true_l, Hst. tauto.
Qed.

End Pass.

Lemma pass_settles_what_it_selects_witness :
  pending db_referrals !! 0%N = Some self_referred /\
  query default_config false 1000000000 self_referred = true /\
  pending (final (confirmPendingReferrals default_config false 1000000000)
             db_referrals) !! 0%N
    = Some (mark_invalid self_referral self_referred).
Proof.
  split; [reflexivity|]. split; [reflexivity|].
  exact (proj1 (pass_settles_what_it_selects default_config false 1000000000
                  db_referrals) 0%N self_referred eq_refl eq_refl).
Defined.

Lemma pass_credits_one_reward_per_confirmation_witness :
  users db_referrals !! 7 = Some erin_idle /\
  earned db_referrals (selected default_config true 30 db_referrals) 7 = 1%nat /\
  exists b, (b == 100 + (1 # 2))%Q /\
    users (final (confirmPendingReferrals default_config true 30)
             db_referrals) !! 7
    = Some (set_confirmedReferrals 1 (set_balance b erin_idle)).
Proof.
  split; [reflexivity|]. split; [reflexivity|].
  destruct (proj1 (proj2 (pass_credits_one_reward_per_confirmation
                            default_config true 30 db_referrals 7))
              erin_idle eq_refl) as (b & Hb & Hu).
  exists b. split; [|exact Hu].
  rewrite Hb. reflexivity.
Defined.

Lemma scheduled_pass_waits_for_the_delay_witness :
  (0 <= inject_Z 1000000000
        - CONFIRM_DELAY_HOURS default_config * 3600 * 1000)%Q /\
  (query default_config false 1000000000 referred_by_erin = true <->
   p_status referred_by_erin = RPending /\
   (inject_Z (p_createdAt referred_by_erin)
      + CONFIRM_DELAY_HOURS default_config * 3600 * 1000
    <= inject_Z 1000000000)%Q).
Proof.
  assert (H : (0 <= inject_Z 1000000000
                    - CONFIRM_DELAY_HOURS default_config * 3600 * 1000)%Q)
    by (intros Hc; discriminate Hc).
  split; [exact H|].
  exact (proj1 (scheduled_pass_waits_for_the_delay default_config 1000000000
                  referred_by_erin H)).
Defined.

(** ** Profiles *)

Section Profiles.

Context (cfg : config).

Lemma same_string_eq (a b : option string) :
  same_string a b = true <-> a = b.
Proof.
  destruct a as [x|], b as [y|]; cbn; try (split; congruence).
  rewrite String.eqb_eq. split; congruence.
Qed.

Lemma name_update_synced (given stored : option string) :
  match name_update given stored with
  | Some x => synced_name given stored = Some x /\ Some x <> stored
  | None => synced_name given stored = stored
  end.
Proof.
  unfold name_update, synced_name. destruct (truthy given) eqn:Ht; cbn; [|done].
  destruct (same_string given stored) eqn:Hs; cbn.
  - by apply same_string_eq in Hs.
  - destruct given as [x|]; [|done]. split; [done|].
    intros Heq. apply same_string_eq in Heq. congruence.
Qed.

Lemma name_update_again (given stored : option string) :
  name_update given (synced_name given stored) = None.
Proof.
  unfold name_update, synced_name. destruct (truthy given) eqn:Ht; cbn;
    rewrite ?Ht; cbn; [|done].
  by rewrite (proj2 (same_string_eq given given) eq_refl).
Qed.

Lemma ensureUserProfile_known (from : sender) (code : string) (now : Z)
    (s : db) (u : user) :
  users s !! from_id from = Some u ->
  exists s' ev,
    ensureUserProfile from code now s = (Returned (synced from u), s', ev) /\
    users s' = <[from_id from := synced from u]> (users s) /\
    pending s' = pending s /\ withdrawals s' = withdrawals s /\
    refs s' = refs s /\
    (synced from u = u -> s' = s /\ ev = [DbRead Users]).
Proof.
  intros Hu. unfold ensureUserProfile, bind, usersCol_findOne, get.
  rewrite Hu. unfold synced.
  pose proof (name_update_synced (from_username from) (username u)) as H1.
  pose proof (name_update_synced (from_first_name from) (first_name u)) as H2.
  destruct (name_update (from_username from) (username u)) as [x|],
    (name_update (from_first_name from) (first_name u)) as [y|]; cbn.
  - destruct H1 as [-> N1], H2 as [-> N2].
    eexists _, _. split; [reflexivity|]. cbn. split.
    { apply map_eq. intros t. destruct (decide (from_id from = t)) as [<-|Hne].
      - by rewrite lookup_alter_eq, lookup_insert_eq, Hu.
      - by rewrite lookup_alter_ne, lookup_insert_ne. }
    do 3 (split; [done|]). intros Heq. exfalso.
      apply (f_equal username) in Heq. destruct u; cbn in *; congruence.
  - destruct H1 as [-> N1]. rewrite H2.
    eexists _, _. split; [by destruct u|]. cbn. split.
    { apply map_eq. intros t. destruct (decide (from_id from = t)) as [<-|Hne].
      - rewrite lookup_alter_eq, lookup_insert_eq, Hu. by destruct u.
      - by rewrite lookup_alter_ne, lookup_insert_ne. }
    do 3 (split; [done|]). intros Heq. exfalso.
      apply (f_equal username) in Heq. destruct u; cbn in *; congruence.
  - destruct H2 as [-> N2]. rewrite H1.
    eexists _, _. split; [by destruct u|]. cbn. split.
    { apply map_eq. intros t. destruct (decide (from_id from = t)) as [<-|Hne].
      - rewrite lookup_alter_eq, lookup_insert_eq, Hu. by destruct u.
      - by rewrite lookup_alter_ne, lookup_insert_ne. }
    do 3 (split; [done|]). intros Heq. exfalso.
      apply (f_equal first_name) in Heq. destruct u; cbn in *; congruence.
  - rewrite H1, H2. eexists _, _. split; [by destruct u|]. split.
    { rewrite insert_id; [done|]. rewrite Hu. by destruct u. }
    done.
Qed.

Lemma synced_again (from : sender) (u : user) :
  synced from (synced from u) = synced from u.
Proof.
  unfold synced, synced_name. destruct u. cbn.
  by destruct (truthy (from_username from)), (truthy (from_first_name from)).
Qed.

(** X25.  For a stored account [ensureUserProfile] returns, and leaves
    stored, the document with the sender's non-empty names written over the
    stored ones and nothing else changed: an absent or empty name erases
    nothing.  It writes only when a name differs, and a second call returns
    the same document without writing. *)
Theorem ensureUserProfile_syncs_names_once (from : sender) (code : string)
    (now : Z) (s : db) (u : user) :
  users s !! from_id from = Some u ->
  let s' := final (ensureUserProfile from code now) s in
  value (ensureUserProfile from code now) s = Returned (synced from u) /\
  users s' = <[from_id from := synced from u]> (users s) /\
  pending s' = pending s /\ withdrawals s' = withdrawals s /\
  refs s' = refs s /\
  (synced from u = u ->
   s' = s /\ events (ensureUserProfile from code now) s = [DbRead Users]) /\
  (forall code2 now2,
     ensureUserProfile from code2 now2 s'
     = (Returned (synced from u), s', [DbRead Users])).
Proof.
  intros Hu s'.
  destruct (ensureUserProfile_known from code now s u Hu)
    as (s1 & ev & Hrun & Hus & Hp & Hw & Hr & Hsame).
  assert (Hs' : s' = s1) by (subst s'; unfold final; by rewrite Hrun).
  clearbody s'. subst s'. unfold value, events. rewrite Hrun.
  cbn [fst snd]. do 5 (split; [done|]). split; [exact Hsame|].
  intros code2 now2.
  assert (Hu1 : users s1 !! from_id from = Some (synced from u)).
  { by rewrite Hus, lookup_insert_eq. }
  destruct (ensureUserProfile_known from code2 now2 s1 _ Hu1)
    as (s2 & ev2 & Hrun2 & _ & _ & _ & _ & Hsame2).
  rewrite Hrun2, synced_again.
  by destruct (Hsame2 (synced_again from u)) as [-> ->].
Qed.

End Profiles.

Lemma ensureUserProfile_syncs_names_once_witness :
  users db_erin_idle !! from_id (mkSender 7 None (Some "Erna"%string))
    = Some erin_idle /\
  value (ensureUserProfile (mkSender 7 None (Some "Erna"%string)) "ref_x" 9)
    db_erin_idle
  = Returned (set_first_name (Some "Erna"%string) erin_idle).
Proof.
  split; [reflexivity|].
  exact (proj1 (ensureUserProfile_syncs_names_once
                  (mkSender 7 None (Some "Erna"%string)) "ref_x" 9
                  db_erin_idle erin_idle eq_refl)).
Defined.

(** ** The channel guard *)

Section GuardFacts.

Context (cfg : config) (getChatMember : string -> Z -> option member).

Lemma has_elem (l : list string) (x : string) : has l x = true <-> x ∈ l.
Proof.
  unfold has. rewrite existsb_exists. split.
  - intros (y & Hy & Heq). apply String.eqb_eq in Heq as ->.
    by apply list_elem_of_In.
  - intros Hx. exists x. split; [by apply list_elem_of_In|].
    apply String.eqb_refl.
Qed.

Lemma is_missing_joined (id : Z) (c : channel) :
  is_missing getChatMember id c = false <-> joined getChatMember id c.
Proof.
  unfold is_missing, joined.
  destruct (getChatMember (chatId c) id) as [m|]; cycle 1.
  { split; [done|]. by intros (m & ? & _). }
  destruct (has ALLOWED_MEMBER_STATUSES (status m)) eqn:Hhas; cbn.
  - apply has_elem in Hhas. split; [|done]. intros _. eauto.
  - assert (Hnot : status m ∉ ALLOWED_MEMBER_STATUSES).
    { intros Hin. apply has_elem in Hin. congruence. }
    destruct (String.eqb_spec (status m) "restricted") as [Hr|Hr]; cbn.
    + destruct (is_member m) eqn:Hm; cbn.
      * split; [|done]. intros _. exists m. eauto.
      * split; [done|]. intros (m' & [= <-] & [?|[_ ?]]); [done|congruence].
    + split; [done|]. intros (m' & [= <-] & [?|[? _]]); done.
Qed.

Lemma collect_from_spec (id : Z) (channels : list channel) (k : nat)
    (c : channel) (i : nat) :
  (c, i) ∈ collect_from getChatMember k channels id <->
  exists j, i = (k + j)%nat /\ channels !! j = Some c /\ is_missing getChatMember id c = true.
Proof.
  revert k. induction channels as [|c0 rest IH]; intros k; cbn.
  { split; [by intros ?%elem_of_nil|]. by intros (j & _ & ? & _). }
  rewrite elem_of_app, IH. split.
  - intros [Hhere|(j & -> & Hj & Hm)].
    + destruct (is_missing getChatMember id c0) eqn:Hm; [|by apply elem_of_nil in Hhere].
      apply list_elem_of_singleton in Hhere as [= -> ->].
      exists 0%nat. split; [lia|done].
    + exists (S j). split; [lia|done].
  - intros ([|j] & -> & Hj & Hm).
    + left. cbn in Hj. injection Hj as ->. rewrite Hm.
      rewrite Nat.add_0_r. by apply list_elem_of_singleton.
    + right. exists j. split; [lia|done].
Qed.

Lemma collect_from_increasing (id : Z) (channels : list channel) (k : nat)
    (a b : nat) (x y : channel * nat) :
  collect_from getChatMember k channels id !! a = Some x ->
  collect_from getChatMember k channels id !! b = Some y ->
  (a < b)%nat -> (x.2 < y.2)%nat.
Proof.
  revert k a b. induction channels as [|c0 rest IH]; intros k a b; cbn;
    [done|].
  destruct (is_missing getChatMember id c0); cbn; [|apply IH].
  destruct a as [|a], b as [|b]; cbn; try lia.
  - intros [= <-] Hy _. apply list_elem_of_lookup_2 in Hy.
    destruct y as [c i]. apply collect_from_spec in Hy as (j & -> & _).
    cbn. lia.
  - intros Hx Hy Hlt. apply (IH (S k) a b); [done|done|lia].
Qed.

Lemma collect_from_nil (id : Z) (channels : list channel) (k : nat) :
  collect_from getChatMember k channels id = [] <-> Forall (joined getChatMember id) channels.
Proof.
  revert k. induction channels as [|c0 rest IH]; intros k; cbn.
  { split; [constructor|done]. }
  rewrite Forall_cons, <- (IH (S k)), <- is_missing_joined.
  destruct (is_missing getChatMember id c0); cbn; [split; [done|by intros [? _]]|].
  tauto.
Qed.

(** X26.  The guard lets an update through exactly when it has no sender,
    when the sender is an administrator, when it is the tap on the check
    button, or when the sender is a member of every required channel: a
    channel whose membership cannot be read counts as not joined.  It then
    sends nothing; when it refuses in a chat, the last thing it sends is the
    list of the channels that are missing. *)
Theorem guard_admits_admins_and_members (channels : list channel)
    (silent : bool) (c : ctx) :
  let r := enforceChannelRequirements cfg getChatMember channels silent c in
  (fst r = true <->
   ctx_from c = None \/
   exists id, ctx_from c = Some id /\
     (id ∈ ADMIN_IDS cfg \/
      callbackQuery c = Some "CHECK_REQUIREMENTS"%string \/
      Forall (joined getChatMember id) channels)) /\
  (fst r = true -> snd r = []) /\
  (forall id ch, ctx_from c = Some id -> id ∉ ADMIN_IDS cfg ->
     callbackQuery c <> Some "CHECK_REQUIREMENTS"%string ->
     ch ∈ channels -> getChatMember (chatId ch) id = None ->
     fst r = false) /\
  (fst r = false -> silent = false -> ctx_chat c = true ->
   exists id, ctx_from c = Some id /\
     last (snd r) = Some (lock_message (collectMissingChannels getChatMember channels id))).
Proof.
  intros r. subst r. unfold enforceChannelRequirements.
  destruct (ctx_from c) as [id|]; cbn.
  2:{ repeat split; try done. by left. }
  destruct (isAdmin cfg id) eqn:Hadm; cbn.
  { apply isAdmin_elem in Hadm. repeat split; try done.
    - intros _. right. exists id. eauto.
    - intros id' ch [= <-] Hnot. done. }
  assert (Hnadm : id ∉ ADMIN_IDS cfg).
  { intros Hin. apply isAdmin_elem in Hin. congruence. }
  assert (Hdata : match callbackQuery c with
                  | Some data => String.eqb data "CHECK_REQUIREMENTS"
                  | None => false
                  end = true <->
                  callbackQuery c = Some "CHECK_REQUIREMENTS"%string).
  { destruct (callbackQuery c) as [data|]; [|done].
    rewrite String.eqb_eq. split; congruence. }
  destruct (match callbackQuery c with Some _ => _ | None => _ end) eqn:Hcb.
  { pose proof (proj1 Hdata eq_refl) as Hcb'. cbn. repeat split; try done.
    intros _. right. exists id. eauto. }
  assert (Hncb : callbackQuery c <> Some "CHECK_REQUIREMENTS"%string).
  { intros Heq. apply Hdata in Heq. discriminate Heq. }
  unfold collectMissingChannels.
  destruct (collect_from getChatMember 0 channels id) as [|x missing] eqn:Hcol; cbn.
  { apply collect_from_nil in Hcol. repeat split; try done.
    - intros _. right. exists id. eauto.
    - intros id' ch [= <-] _ _ Hch Hnone.
      rewrite Forall_forall in Hcol. apply Hcol in Hch as (m & Hm & _).
      congruence. }
  assert (Hsome : ~ Forall (joined getChatMember id) channels).
  { intros Hall. apply (collect_from_nil id channels 0%nat) in Hall.
    congruence. }
  assert (Hfalse : forall l, fst (if silent then (false, [])
                                 else (false, l : list guard_event)) = false)
    by (by destruct silent).
  split; [|split; [|split]].
  - rewrite Hfalse. split; [done|].
    intros [?|(id' & [= <-] & [?|[?|?]])]; done.
  - by rewrite Hfalse.
  - intros. apply Hfalse.
  - intros _ -> Hchat. rewrite Hchat. exists id. split; [done|].
    rewrite Hcol. cbn [snd]. apply last_snoc.
Qed.

Lemma lock_rows_spec (missing : list (channel * nat)) :
  (forall ch i, (ch, i) ∈ missing ->
     match buildChannelLink ch with
     | Some l => UrlButton (buildJoinButtonLabel ch i) l ∈ (lock_rows missing).2
     | None =>
         (buildJoinButtonLabel ch i, describeChannel ch)
           ∈ (lock_rows missing).1
     end) /\
  (length (lock_rows missing).1 + length (lock_rows missing).2
   = length missing)%nat /\
  (forall b, b ∈ (lock_rows missing).2 ->
     exists ch i l, (ch, i) ∈ missing /\ buildChannelLink ch = Some l /\
       b = UrlButton (buildJoinButtonLabel ch i) l).
Proof.
  induction missing as [|[c0 i0] rest (IH1 & IH2 & IH3)]; cbn.
  { repeat split; try done;
      first [by intros ? ? ?%elem_of_nil|by intros ? ?%elem_of_nil]. }
  destruct (lock_rows rest) as [withoutLinks rows] eqn:Hrest. cbn in *.
  destruct (buildChannelLink c0) as [l0|] eqn:Hl0; cbn.
  - split; [|split; [lia|]].
    + intros ch i [[= -> ->]|Hin]%elem_of_cons.
      * rewrite Hl0. left.
      * specialize (IH1 ch i Hin). destruct (buildChannelLink ch); [|done].
        by right.
    + intros b [->|Hb]%elem_of_cons.
      * exists c0, i0, l0. split; [left|done].
      * destruct (IH3 b Hb) as (ch & i & l & Hin & Hl & ->).
        exists ch, i, l. split; [by right|done].
  - split; [|split; [lia|]].
    + intros ch i [[= -> ->]|Hin]%elem_of_cons.
      * rewrite Hl0. left.
      * specialize (IH1 ch i Hin). destruct (buildChannelLink ch); [done|].
        by right.
    + intros b Hb. destruct (IH3 b Hb) as (ch & i & l & Hin & Hl & ->).
      exists ch, i, l. split; [by right|done].
Qed.

(** X27.  The channels the guard reports missing are the required channels
    the user has not joined, each once, in the order of the list and with
    its position in it; the lock message shows each of them once, as a join
    button when a link is stored or the chat has a public name, and
    otherwise by name, and ends with the check button. *)
Theorem missing_channels_are_listed_once (channels : list channel) (id : Z) :
  let missing := collectMissingChannels getChatMember channels id in
  (forall ch i, (ch, i) ∈ missing <->
     channels !! i = Some ch /\ ~ joined getChatMember id ch) /\
  (forall a b x y, missing !! a = Some x -> missing !! b = Some y ->
     (a < b)%nat -> (x.2 < y.2)%nat) /\
  exists withoutLinks rows,
    lock_message missing = AccessLocked withoutLinks (rows ++ [CheckButton]) /\
    (length withoutLinks + length rows = length missing)%nat /\
    (forall ch i, (ch, i) ∈ missing ->
       number_of (buildJoinButtonLabel ch i) = S i /\
       match buildChannelLink ch with
       | Some l => UrlButton (buildJoinButtonLabel ch i) l ∈ rows
       | None => (buildJoinButtonLabel ch i, describeChannel ch) ∈ withoutLinks
       end) /\
    (forall b, b ∈ rows ->
       exists ch i l, (ch, i) ∈ missing /\ buildChannelLink ch = Some l /\
         b = UrlButton (buildJoinButtonLabel ch i) l).
Proof.
  intros missing. split; [|split].
  - intros ch i. subst missing. unfold collectMissingChannels.
    rewrite collect_from_spec, <- is_missing_joined. split.
    + intros (j & -> & Hj & Hm). cbn. split; [done|]. congruence.
    + intros [Hi Hm]. exists i. split; [done|]. split; [done|].
      by destruct (is_missing getChatMember id ch).
  - intros a b x y. apply collect_from_increasing.
  - destruct (lock_rows_spec missing) as (H1 & H2 & H3).
    unfold lock_message. destruct (lock_rows missing) as [withoutLinks rows].
    cbn in *. exists withoutLinks, rows. split; [done|]. split; [done|].
    split; [|done]. intros ch i Hin. split; [|by apply H1].
    cbn. lia.
Qed.

End GuardFacts.

Lemma guard_admits_admins_and_members_witness :
  (66 ∉ ADMIN_IDS default_config) /\
  news_channel ∈ [news_channel] /\
  fst (enforceChannelRequirements default_config no_answer [news_channel]
         false (mkCtx (Some 66) None true)) = false.
Proof.
  assert (H : 66 ∉ ADMIN_IDS default_config).
  { intros [Heq|Hin]%elem_of_cons; [discriminate Heq|].
    by apply elem_of_nil in Hin. }
  assert (Hin : news_channel ∈ [news_channel]) by left.
  split; [exact H|]. split; [exact Hin|].
  apply (proj1 (proj2 (proj2 (guard_admits_admins_and_members default_config
                                no_answer [news_channel] false
                                (mkCtx (Some 66) None true))))
           66 news_channel eq_refl H);
    [discriminate|exact Hin|reflexivity].
Defined.

Lemma missing_channels_are_listed_once_witness :
  [news_channel] !! 0%nat = Some news_channel /\
  ~ joined no_answer 66 news_channel /\
  (news_channel, 0%nat) ∈ collectMissingChannels no_answer [news_channel] 66.
Proof.
  assert (H : ~ joined no_answer 66 news_channel).
  { intros (m & Hm & _). discriminate Hm. }
  split; [reflexivity|]. split; [exact H|].
  apply (proj1 (missing_channels_are_listed_once no_answer [news_channel] 66)).
  split; [reflexivity|exact H].
Defined.

(** ** Lookups and the support button *)

Section Lookups.

Context (cfg : config).

(** X28.  [/balance], [/profile], [/status] and their buttons change nothing
    of a stored account but the names [ensureUserProfile] syncs, and nothing
    in the other collections; the balance reply shows the stored balance and
    the stored number of confirmed referrals. *)
Theorem lookups_change_names_only (k : lookup_kind) (via : entry)
    (from : sender) (code : string) (now : Z) (s : db) (u : user) :
  users s !! from_id from = Some u ->
  let s' := step cfg (Lookup k via from code now) s in
  users s' = <[from_id from := synced from u]> (users s) /\
  pending s' = pending s /\ withdrawals s' = withdrawals s /\
  refs s' = refs s /\
  last (events (handle cfg (Lookup k via from code now)) s)
  = Some (Reply match k with
                | Balance => BalanceReply (balance u) (confirmedReferrals u)
                | Profile => ProfileReply
                | Status => StatusReply
                end).
Proof.
  intros Hu s'.
  destruct (ensureUserProfile_known from code now s u Hu)
    as (s1 & ev & Hrun & Hus & Hp & Hw & Hr & _).
  assert (Hb : balance (synced from u) = balance u) by (by destruct u).
  assert (Hc : confirmedReferrals (synced from u) = confirmedReferrals u)
    by (by destruct u).
  subst s'. unfold step, final, events. cbn [handle]. unfold on_lookup, entered.
  destruct via, k; unfold replyBalance, replyProfile, replyStatus, try_catch,
    bind, answerCbQuery, emit; rewrite Hrun; cbn; rewrite ?Hb, ?Hc;
    (repeat split; try done);
    by rewrite ?app_comm_cons, last_app.
Qed.

(** X29.  The support button always shows its prompt, but it opens the
    dialogue only for a stored account: for an unknown sender nothing is
    stored, and the text message that follows is forwarded to nobody: the
    text handler creates the account at most and passes the message on; a
    text with no command ends there, with reads and writes of [users] as its
    only events. *)
Theorem support_button_needs_an_account (from : sender) (s : db) :
  events (handle cfg (Support from)) s
    = [DbWrite Users; AnswerCbQuery; Reply SupportPrompt] /\
  (forall u, users s !! from_id from = Some u ->
     step cfg (Support from) s
     = with_users (insert (from_id from) (set_awaitingSupportMessage true u))
         s) /\
  (users s !! from_id from = None ->
   step cfg (Support from) s = s /\
   forall text code now,
     exists s1 l,
       (s1 = s \/
        s1 = with_users (insert (from_id from) (new_user from code now)) s) /\
       (forall e, e ∈ l -> e = DbRead Users \/ e = DbWrite Users) /\
       (forall next : M unit,
          on_text cfg from text code now next (step cfg (Support from) s)
          = let '(r, s2, ev) := next s1 in (r, s2, l ++ ev)) /\
       handle cfg (Text from text code now) (step cfg (Support from) s)
       = (Returned tt, s1, l)).
Proof.
  split; [reflexivity|].
  assert (Hstep : step cfg (Support from) s
            = with_users (alter (set_awaitingSupportMessage true)
                            (from_id from)) s) by reflexivity.
  split.
  - intros u Hu. rewrite Hstep. unfold with_users. f_equal.
    apply map_eq. intros t. destruct (decide (from_id from = t)) as [<-|Hne].
    + by rewrite lookup_alter_eq, lookup_insert_eq, Hu.
    + by rewrite lookup_alter_ne, lookup_insert_ne.
  - intros Hu.
    assert (Hsame : step cfg (Support from) s = s).
    { rewrite Hstep. destruct s as [us ps ws rs]. unfold with_users. cbn.
      f_equal. apply map_eq. intros t. cbn in Hu.
      destruct (decide (from_id from = t)) as [<-|Hne].
      - by rewrite lookup_alter_eq, Hu.
      - by rewrite lookup_alter_ne. }
    split; [exact Hsame|]. rewrite Hsame. intros text code now.
    destruct (unknown_sender_text cfg from text code now s Hu)
      as (s1 & l & Hs1 & Hl & Hnext & _ & _).
    exists s1, l. split; [exact Hs1|]. split; [exact Hl|].
    split; [exact Hnext|].
    cbn [handle]. rewrite Hnext. cbn. by rewrite app_nil_r.
Qed.

End Lookups.

Lemma lookups_change_names_only_witness :
  users db_erin_idle !! from_id erin = Some erin_idle /\
  last (events (handle default_config (Lookup Balance Command erin "ref_x" 3))
          db_erin_idle)
  = Some (Reply (BalanceReply 100 0)).
Proof.
  split; [reflexivity|].
  exact (proj2 (proj2 (proj2 (proj2
           (lookups_change_names_only default_config Balance Command erin
              "ref_x" 3 db_erin_idle erin_idle eq_refl))))).
Defined.

Lemma support_button_needs_an_account_witness :
  users db_erin_idle !! from_id frank = None /\
  step default_config (Support frank) db_erin_idle = db_erin_idle.
Proof.
  split; [reflexivity|].
  exact (proj1 (proj2 (proj2 (support_button_needs_an_account default_config
                                frank db_erin_idle)) eq_refl)).
Defined.

(** ** [refs] against [pending] *)



Section Audit.

Context (cfg : config).





End Audit.

